(** * Storage accounting and sharing in the file routes

    A shallow embedding of [routes/files.js] and of the three mongoose
    models ([models/User.js], [models/File.js], [models/Folder.js]).

    The handlers are written in a small state-and-exception monad over a
    [World] that holds the three MongoDB collections, the set of blob paths
    on disk, a log of the database and filesystem calls in the order they
    are issued, and an oracle that says which database calls throw.

    Conventions of the embedding:
    - a JavaScript number that holds a byte count or an HTTP status is the
      integer it holds, a [Z], and sums of stored sizes are exact; [NaN],
      which [parseInt] returns for an absent or non-numeric header, is a
      constructor of its own ([jsnum]), and the one sum that takes a number
      chosen by the client, in the quota check, is rounded as a double rounds
      it ([round_double]);
    - a string is the sequence of its characters; [trim] and [toLowerCase]
      act on ASCII white space and ASCII letters: they are the JavaScript
      functions on strings of plain ASCII ([plain_ascii]);
    - an [ObjectId] is the integer it encodes, compared as the source
      compares the [toString()] of two ids;
    - a collection is the list of its documents in insertion order; [_id] is
      unique in a collection because an insert of a duplicate [_id] throws;
    - [await]ed calls run one after the other (one request at a time). *)

From Stdlib Require Import ZArith List String Ascii Bool Lia.
Import ListNotations.

Local Open Scope string_scope.
Local Open Scope list_scope.
Local Open Scope Z_scope.

(** ** JavaScript values *)

Definition ObjectId := Z.

(** A JavaScript number as the quota check sees it. *)
Inductive jsnum : Type :=
| Num (z : Z)
| NaN.

(** The double nearest to an integer: up to [2 ^ 53] every integer is a
    double; beyond, an integer of [e + 53] bits is rounded to a multiple of
    [2 ^ e], to the nearest one and, half way, to the one with the even
    quotient. (A sum beyond the largest double is [Infinity] in JavaScript;
    it compares with a byte count as the rounded integer does.) *)
Definition round_double (z : Z) : Z :=
  let a := Z.abs z in
  if a <=? 2 ^ 53 then z
  else
    let e := Z.log2 a - 52 in
    let q := a / 2 ^ e in
    let r := a mod 2 ^ e in
    let half := 2 ^ (e - 1) in
    let q' := if (half <? r) || ((r =? half) && Z.odd q) then q + 1 else q in
    Z.sgn z * (q' * 2 ^ e).

(** [a + b] on numbers: the sum of two doubles is the double nearest to
    their exact sum; [NaN] is absorbing. *)
Definition js_add (a b : jsnum) : jsnum :=
  match a, b with
  | Num x, Num y => Num (round_double (x + y))
  | _, _ => NaN
  end.

(** [a > b] on numbers: every comparison with [NaN] is [false]. *)
Definition js_gt (a b : jsnum) : bool :=
  match a, b with
  | Num x, Num y => (y <? x)%Z
  | _, _ => false
  end.

(** Truthiness of a string: only the empty string is falsy. *)
Definition truthy (s : string) : bool := negb (String.eqb s "").

(** [v || d] for a request field that is a string or [undefined]. *)
Definition or_default (v : option string) (d : string) : string :=
  match v with
  | Some s => if truthy s then s else d
  | None => d
  end.

(** [folderId || null]: an absent id becomes [null]. *)
Definition or_null (v : option ObjectId) : option ObjectId := v.

Definition is_space (c : ascii) : bool :=
  match c with
  | " "%char => true
  | "009"%char | "010"%char | "011"%char | "012"%char | "013"%char => true
  | _ => false
  end.

Fixpoint trim_start (s : string) : string :=
  match s with
  | String c r => if is_space c then trim_start r else s
  | EmptyString => EmptyString
  end.

Fixpoint trim_end (s : string) : string :=
  match s with
  | String c r =>
      match trim_end r with
      | EmptyString => if is_space c then EmptyString else String c EmptyString
      | r' => String c r'
      end
  | EmptyString => EmptyString
  end.

(** [String.prototype.trim], on ASCII white space. *)
Definition trim (s : string) : string := trim_end (trim_start s).

(** [String.prototype.toLowerCase], on ASCII letters. *)
Definition lower_char (c : ascii) : ascii :=
  let n := nat_of_ascii c in
  if ((65 <=? n) && (n <=? 90))%nat then ascii_of_nat (n + 32) else c.

Fixpoint toLowerCase (s : string) : string :=
  match s with
  | String c r => String (lower_char c) (toLowerCase r)
  | EmptyString => EmptyString
  end.

(** A string of ASCII characters: on these, [trim] and [toLowerCase] above
    are [String.prototype.trim] and [String.prototype.toLowerCase]. *)
Fixpoint plain_ascii (s : string) : bool :=
  match s with
  | EmptyString => true
  | String c r => (nat_of_ascii c <? 128)%nat && plain_ascii r
  end.

(** ** The models *)

(** [models/User.js]; the password is left out. *)
Module User.
Record t : Type := mk {
  _id : ObjectId;
  name : string;
  email : string;
  storageUsed : Z;
  storageLimit : Z
}.

(** The schema default of [storageLimit]: 1 GiB. *)
Definition default_storageLimit : Z := 1073741824.

(** The setters of [email] ([trim: true, lowercase: true]); mongoose runs
    them on the value of a document and on the value of a query filter. *)
Definition email_setters (s : string) : string := trim (toLowerCase s).

Definition with_storageUsed (v : Z) (u : t) : t :=
  mk (_id u) (name u) (email u) v (storageLimit u).
End User.

(** [models/Folder.js]. *)
Module Folder.
Record t : Type := mk {
  _id : ObjectId;
  name : string;
  owner : ObjectId;
  parent : option ObjectId
}.
End Folder.

(** [models/File.js]. *)
Module File.
(** An element of [sharedWith]. The permission is kept as the string the
    database holds: the schema's [enum] is checked by [save] only. *)
Record share : Type := mkShare {
  user : ObjectId;
  permission : string
}.

Record t : Type := mk {
  _id : ObjectId;
  filename : string;
  originalName : string;
  mimetype : string;
  size : Z;
  path : string;
  owner : ObjectId;
  folder : option ObjectId;
  isPublic : bool;
  sharedWith : list share
}.

Definition with_sharedWith (l : list share) (f : t) : t :=
  mk (_id f) (filename f) (originalName f) (mimetype f) (size f) (path f)
     (owner f) (folder f) (isPublic f) l.

Definition with_isPublic (b : bool) (f : t) : t :=
  mk (_id f) (filename f) (originalName f) (mimetype f) (size f) (path f)
     (owner f) (folder f) b (sharedWith f).

(** The [enum] of [sharedWith.permission]. *)
Definition permission_enum (p : string) : bool :=
  String.eqb p "read" || String.eqb p "edit".

(** What [new File({...})] is given in the upload route. [raw_size] is a
    JavaScript value: [None] is [undefined]. *)
Record raw : Type := mkRaw {
  raw_id : ObjectId;
  raw_filename : string;
  raw_originalName : string;
  raw_mimetype : string;
  raw_size : option jsnum;
  raw_path : string;
  raw_owner : ObjectId;
  raw_folder : option ObjectId
}.
End File.

(** ** The world *)

(** A database or filesystem call, as it is issued. *)
Inductive Event : Type :=
| FileFindOne (id : ObjectId)
| FileFind (folder : ObjectId)
| FileInsert (id : ObjectId)
| FileSave (id : ObjectId)
| FileUpdateOne (id : ObjectId)
| FileFindOneAndUpdate (id : ObjectId)
| FileDeleteOne (id : ObjectId)
| FileDeleteMany (folder : ObjectId)
| FolderFindOne (id : ObjectId)
| FolderInsert (id : ObjectId)
| FolderDeleteOne (id : ObjectId)
| UserFindOne (email : string)
| UserInc (id : ObjectId) (delta : Z)
| FsUnlink (path : string).

Record World : Type := mkWorld {
  users : list User.t;
  files : list File.t;
  folders : list Folder.t;
  disk : list string;
  log : list Event;
  faults : list (option string)
}.

Definition set_users (v : list User.t) (w : World) : World :=
  mkWorld v (files w) (folders w) (disk w) (log w) (faults w).
Definition set_files (v : list File.t) (w : World) : World :=
  mkWorld (users w) v (folders w) (disk w) (log w) (faults w).
Definition set_folders (v : list Folder.t) (w : World) : World :=
  mkWorld (users w) (files w) v (disk w) (log w) (faults w).
Definition set_disk (v : list string) (w : World) : World :=
  mkWorld (users w) (files w) (folders w) v (log w) (faults w).
Definition set_log (v : list Event) (w : World) : World :=
  mkWorld (users w) (files w) (folders w) (disk w) v (faults w).
Definition set_faults (v : list (option string)) (w : World) : World :=
  mkWorld (users w) (files w) (folders w) (disk w) (log w) v.

(** What a call can throw. [ValidationError] is mongoose's, raised by [save]
    before anything is sent; [MongoError] is a failure of the call itself.
    The texts of mongoose's messages are abbreviated. *)
Inductive Exn : Type :=
| ValidationError (msg : string)
| MongoError (msg : string).

Definition exn_message (e : Exn) : string :=
  match e with
  | ValidationError m => m
  | MongoError m => m
  end.

(** ** The monad of the handlers *)

Definition M (A : Type) : Type := World -> (Exn + A) * World.

Definition ret {A} (a : A) : M A := fun w => (inr a, w).

Definition bind {A B} (m : M A) (k : A -> M B) : M B :=
  fun w =>
    match m w with
    | (inr a, w') => k a w'
    | (inl e, w') => (inl e, w')
    end.

Definition throw {A} (e : Exn) : M A := fun w => (inl e, w).

(** [try { body } catch (err) { handler }]: the writes of the body made
    before the throw stay. *)
Definition try_catch {A} (body : M A) (handler : Exn -> M A) : M A :=
  fun w =>
    match body w with
    | (inr a, w') => (inr a, w')
    | (inl e, w') => handler e w'
    end.

Declare Scope js_scope.
Delimit Scope js_scope with js.
Notation "x <- c ;; k" := (bind c (fun x => k))
  (at level 100, c at next level, right associativity) : js_scope.
Notation "c ;; k" := (bind c (fun _ => k))
  (at level 100, right associativity) : js_scope.
Local Open Scope js_scope.

Definition get_world : M World := fun w => (inr w, w).
Definition modify (f : World -> World) : M unit := fun w => (inr tt, f w).

(** A call is logged when it is issued. *)
Definition emit (e : Event) : M unit :=
  modify (fun w => set_log (log w ++ [e]) w).

(** A database round trip: logged, then it throws if the oracle says so.
    An exhausted oracle means a database that answers. *)
Definition db (e : Event) : M unit :=
  emit e ;;
  w <- get_world ;;
  match faults w with
  | [] => ret tt
  | None :: r => modify (set_faults r)
  | Some msg :: r => modify (set_faults r) ;; throw (MongoError msg)
  end.

(** [for (const x of l) { body }]. *)
Fixpoint for_of {A} (l : list A) (body : A -> M unit) : M unit :=
  match l with
  | [] => ret tt
  | x :: r => body x ;; for_of r body
  end.

(** ** Collections *)

(** The first document that matches is the one a single-document update or
    delete acts on. *)
Fixpoint update_first {A} (q : A -> bool) (f : A -> A) (l : list A) : list A :=
  match l with
  | [] => []
  | x :: r => if q x then f x :: r else x :: update_first q f r
  end.

Fixpoint delete_first {A} (q : A -> bool) (l : list A) : list A :=
  match l with
  | [] => []
  | x :: r => if q x then r else x :: delete_first q r
  end.

(** Query filters of [routes/files.js]. *)
Definition has_id (id : ObjectId) (f : File.t) : bool := File._id f =? id.

(** [{ _id: fileId, owner: userId }]. *)
Definition q_owned (fileId userId : ObjectId) (f : File.t) : bool :=
  (File._id f =? fileId) && (File.owner f =? userId).

(** [{ sharedWith: { $elemMatch: { user: userId } } }]. *)
Definition q_shared_with (userId : ObjectId) (f : File.t) : bool :=
  existsb (fun sh => File.user sh =? userId) (File.sharedWith f).

(** [{ _id: fileId, $or: [ {owner}, {sharedWith: $elemMatch}, {isPublic: true} ] }]. *)
Definition q_readable (fileId userId : ObjectId) (f : File.t) : bool :=
  (File._id f =? fileId) &&
  ((File.owner f =? userId) || q_shared_with userId f || File.isPublic f).

(** [{ folder: folderId }]. *)
Definition q_in_folder (folderId : ObjectId) (f : File.t) : bool :=
  match File.folder f with
  | Some d => d =? folderId
  | None => false
  end.

(** [{ _id: fileId, 'sharedWith.user': target }]. *)
Definition q_share_of (fileId target : ObjectId) (f : File.t) : bool :=
  (File._id f =? fileId) && q_shared_with target f.

(** [{ _id: folderId, owner: userId }] on folders. *)
Definition q_folder_owned (folderId userId : ObjectId) (d : Folder.t) : bool :=
  (Folder._id d =? folderId) && (Folder.owner d =? userId).

Definition File_findOne (id : ObjectId) (q : File.t -> bool) : M (option File.t) :=
  db (FileFindOne id) ;;
  w <- get_world ;;
  ret (find q (files w)).

Definition File_find (folderId : ObjectId) : M (list File.t) :=
  db (FileFind folderId) ;;
  w <- get_world ;;
  ret (filter (q_in_folder folderId) (files w)).

(** The casts and setters [new File(...)] applies: [trim] on the two names,
    the cast of [size] to a number. A failed cast is reported by [save]. *)
Definition File_new (r : File.raw) : string + File.t :=
  match File.raw_size r with
  | None => inl "Path `size` is required."
  | Some NaN => inl "Cast to Number failed for value NaN at path size"
  | Some (Num z) =>
      inr (File.mk (File.raw_id r) (trim (File.raw_filename r))
             (trim (File.raw_originalName r)) (File.raw_mimetype r) z
             (File.raw_path r) (File.raw_owner r) (File.raw_folder r)
             false [])
  end.

(** The validators of [FileSchema]: [required] strings are not empty, every
    [sharedWith.permission] is in the [enum]. *)
Definition File_validate (f : File.t) : option string :=
  if negb (truthy (File.filename f)) then Some "Path `filename` is required."
  else if negb (truthy (File.originalName f)) then Some "Path `originalName` is required."
  else if negb (truthy (File.mimetype f)) then Some "Path `mimetype` is required."
  else if negb (truthy (File.path f)) then Some "Path `path` is required."
  else if forallb (fun sh => File.permission_enum (File.permission sh)) (File.sharedWith f)
       then None
       else Some "Validator failed for path `permission`".

(** [file.save()] on a new document: validate, then insert; the unique index
    on [_id] refuses a second document with the same id. *)
Definition File_insert (f : File.t) : M unit :=
  match File_validate f with
  | Some msg => throw (ValidationError msg)
  | None =>
      db (FileInsert (File._id f)) ;;
      w <- get_world ;;
      if existsb (has_id (File._id f)) (files w)
      then throw (MongoError "E11000 duplicate key error")
      else modify (set_files (files w ++ [f]))
  end.

(** [file.save()] on a document that was loaded: mongoose validates the
    whole document, then writes it back under its [_id]. *)
Definition File_save (f : File.t) : M unit :=
  match File_validate f with
  | Some msg => throw (ValidationError msg)
  | None =>
      db (FileSave (File._id f)) ;;
      modify (fun w => set_files (update_first (has_id (File._id f)) (fun _ => f) (files w)) w)
  end.

(** [new File({...})] followed by [file.save()]. *)
Definition createFile (r : File.raw) : M File.t :=
  match File_new r with
  | inl msg => throw (ValidationError msg)
  | inr f => File_insert f ;; ret f
  end.

(** [file.deleteOne()]. *)
Definition File_deleteOne (id : ObjectId) : M unit :=
  db (FileDeleteOne id) ;;
  modify (fun w => set_files (delete_first (has_id id) (files w)) w).

(** [File.deleteMany({ folder: folderId })]. *)
Definition File_deleteMany (folderId : ObjectId) : M unit :=
  db (FileDeleteMany folderId) ;;
  modify (fun w => set_files (filter (fun f => negb (q_in_folder folderId f)) (files w)) w).

(** The positional [$set] of ['sharedWith.$.permission']: the first element
    of the array that matches. No validator runs on an [updateOne]. *)
Definition set_permission (target : ObjectId) (p : string) (f : File.t) : File.t :=
  File.with_sharedWith
    (update_first (fun sh => File.user sh =? target)
                  (fun sh => File.mkShare (File.user sh) p) (File.sharedWith f)) f.

Definition File_updateOne_permission (fileId target : ObjectId) (p : string) : M unit :=
  db (FileUpdateOne fileId) ;;
  modify (fun w => set_files (update_first (q_share_of fileId target)
                                (set_permission target p) (files w)) w).

(** [File.findOneAndUpdate({_id, owner}, { isPublic }, { new: true })]. *)
Definition File_findOneAndUpdate_isPublic (fileId userId : ObjectId) (b : bool)
  : M (option File.t) :=
  db (FileFindOneAndUpdate fileId) ;;
  w <- get_world ;;
  match find (q_owned fileId userId) (files w) with
  | None => ret None
  | Some f =>
      modify (set_files (update_first (q_owned fileId userId) (File.with_isPublic b) (files w))) ;;
      ret (Some (File.with_isPublic b f))
  end.

Definition Folder_findOne (folderId userId : ObjectId) : M (option Folder.t) :=
  db (FolderFindOne folderId) ;;
  w <- get_world ;;
  ret (find (q_folder_owned folderId userId) (folders w)).

(** [folder.save()] on a new folder; [name] is trimmed and required. *)
Definition Folder_insert (d : Folder.t) : M unit :=
  if negb (truthy (Folder.name d)) then throw (ValidationError "Path `name` is required.")
  else
    db (FolderInsert (Folder._id d)) ;;
    w <- get_world ;;
    if existsb (fun x => Folder._id x =? Folder._id d) (folders w)
    then throw (MongoError "E11000 duplicate key error")
    else modify (set_folders (folders w ++ [d])).

(** [folder.deleteOne()]. *)
Definition Folder_deleteOne (id : ObjectId) : M unit :=
  db (FolderDeleteOne id) ;;
  modify (fun w => set_folders (delete_first (fun x => Folder._id x =? id) (folders w)) w).

(** [User.findOne({ email })]: the filter is cast by the schema, which
    trims and lowercases the email asked for; the stored emails are matched
    as they are stored. *)
Definition User_findOne (email : string) : M (option User.t) :=
  db (UserFindOne email) ;;
  w <- get_world ;;
  ret (find (fun u => String.eqb (User.email u) (User.email_setters email)) (users w)).

(** [User.findByIdAndUpdate(userId, { $inc: { storageUsed: delta } })]. *)
Definition User_findByIdAndUpdate_inc (userId : ObjectId) (delta : Z) : M unit :=
  db (UserInc userId delta) ;;
  modify (fun w => set_users
            (update_first (fun u => User._id u =? userId)
               (fun u => User.with_storageUsed (User.storageUsed u + delta) u)
               (users w)) w).

(** ** The blob store: the files under [uploads/] *)

Definition fs_existsSync (p : string) : M bool :=
  w <- get_world ;; ret (existsb (String.eqb p) (disk w)).

Definition fs_unlinkSync (p : string) : M unit :=
  emit (FsUnlink p) ;;
  modify (fun w => set_disk (filter (fun x => negb (String.eqb p x)) (disk w)) w).

(** [if (path && fs.existsSync(path)) fs.unlinkSync(path)]. *)
Definition unlink_if_exists (p : string) : M unit :=
  if truthy p then
    e <- fs_existsSync p ;;
    if e then fs_unlinkSync p else ret tt
  else ret tt.

(** ** The routes of [routes/files.js] *)

(** A response: [res.status(s).json({ message })] or [res.download]. *)
Inductive Response : Type :=
| Json (status : Z) (message : string)
| Download (path : string) (name : string).

Definition status_of (r : Response) : Z :=
  match r with
  | Json s _ => s
  | Download _ _ => 200
  end.

(** [req.file], as multer's disk storage fills it. *)
Module Multer.
Record file : Type := mk {
  filename : string;
  originalname : string;
  mimetype : string;
  size : Z;
  path : string
}.

(** [limits: { fileSize: 100 * 1024 * 1024 }]. *)
Definition fileSize_limit : Z := 100 * 1024 * 1024.
End Multer.

Inductive filter_result : Type :=
| Accept
| Reject (msg : string).

(** [fileFilter]: the quota check made before the blob is written.
    [fileSize] is [parseInt(req.headers['content-length'])]. *)
Definition fileFilter (user : User.t) (fileSize : jsnum) : filter_result :=
  if js_gt (js_add (Num (User.storageUsed user)) fileSize)
           (Num (User.storageLimit user))
  then Reject "Storage limit exceeded"
  else Accept.

(** [upload.single('file')]: no part leaves [req.file] undefined; a part goes
    through [fileFilter] and the size limit - a file that reaches the limit
    is refused - and is then written under the path the storage chose. An
    error goes to the error middleware of the server, which answers 500.
    The part is what the body of the request carried: with a declared
    content length it is shorter than declared ([fits_declared] below). *)
Definition upload_single (user : User.t) (content_length : jsnum)
           (part : option Multer.file) : M (Response + option Multer.file) :=
  match part with
  | None => ret (inr None)
  | Some f =>
      match fileFilter user content_length with
      | Reject _ => ret (inl (Json 500 "Server error"))
      | Accept =>
          if Multer.fileSize_limit <=? Multer.size f
          then ret (inl (Json 500 "Server error"))
          else
            modify (fun w => set_disk (Multer.path f :: disk w) w) ;;
            ret (inr (Some f))
      end
  end.

(** [router.post('/upload')], after the middleware. [oid] is the [_id] that
    [new File] generates. *)
Definition upload (user : User.t) (file : option Multer.file)
           (folderId : option ObjectId) (oid : ObjectId) : M Response :=
  try_catch
    (match file with
     | None => ret (Json 400 "No file uploaded")
     | Some rf =>
         let fileSize := Multer.size rf in
         let userId := User._id user in
         _ <- createFile
                (File.mkRaw oid (Multer.filename rf) (Multer.originalname rf)
                   (Multer.mimetype rf) (Some (Num fileSize)) (Multer.path rf)
                   userId (or_null folderId)) ;;
         User_findByIdAndUpdate_inc userId fileSize ;;
         ret (Json 201 "File uploaded successfully")
     end)
    (fun err =>
       match file with
       | Some rf => unlink_if_exists (Multer.path rf)
       | None => ret tt
       end ;;
       ret (Json 500 (or_default (Some (exn_message err)) "Server error"))).

(** The whole route: middleware, then handler. *)
Definition upload_route (user : User.t) (content_length : jsnum)
           (part : option Multer.file) (folderId : option ObjectId)
           (oid : ObjectId) : M Response :=
  r <- upload_single user content_length part ;;
  match r with
  | inl resp => ret resp
  | inr file => upload user file folderId oid
  end.

(** [router.get('/download/:fileId')]. *)
Definition download (userId fileId : ObjectId) : M Response :=
  try_catch
    (file <- File_findOne fileId (q_readable fileId userId) ;;
     match file with
     | None => ret (Json 404 "File not found or access denied")
     | Some file => ret (Download (File.path file) (File.originalName file))
     end)
    (fun _ => ret (Json 500 "Server error")).

(** [router.post('/folder')]. [oid] is the [_id] that [new Folder] generates. *)
Definition create_folder (userId : ObjectId) (name : option string)
           (parentId : option ObjectId) (oid : ObjectId) : M Response :=
  try_catch
    (if negb (truthy (or_default name ""))
     then ret (Json 400 "Folder name is required")
     else
       Folder_insert (Folder.mk oid (trim (or_default name "")) userId (or_null parentId)) ;;
       ret (Json 201 "Folder created successfully"))
    (fun _ => ret (Json 500 "Server error")).

(** [router.delete('/file/:fileId')]. *)
Definition delete_file (userId fileId : ObjectId) : M Response :=
  try_catch
    (file <- File_findOne fileId (q_owned fileId userId) ;;
     match file with
     | None => ret (Json 404 "File not found or access denied")
     | Some file =>
         unlink_if_exists (File.path file) ;;
         User_findByIdAndUpdate_inc userId (- File.size file) ;;
         File_deleteOne (File._id file) ;;
         ret (Json 200 "File deleted successfully")
     end)
    (fun _ => ret (Json 500 "Server error")).

(** [files.reduce((total, file) => total + file.size, 0)]. *)
Definition total_size (fs : list File.t) : Z :=
  fold_left (fun total file => total + File.size file) fs 0.

(** [router.delete('/folder/:folderId')]. *)
Definition delete_folder (userId folderId : ObjectId) : M Response :=
  try_catch
    (folder <- Folder_findOne folderId userId ;;
     match folder with
     | None => ret (Json 404 "Folder not found or access denied")
     | Some folder =>
         fs <- File_find folderId ;;
         for_of fs (fun file => unlink_if_exists (File.path file)) ;;
         let totalSize := total_size fs in
         (if 0 <? totalSize
          then User_findByIdAndUpdate_inc userId (- totalSize)
          else ret tt) ;;
         File_deleteMany folderId ;;
         Folder_deleteOne (Folder._id folder) ;;
         ret (Json 200 "Folder and all its contents deleted successfully")
     end)
    (fun _ => ret (Json 500 "Server error")).

(** [router.post('/share/file/:fileId')]. *)
Definition share_file (userId fileId : ObjectId) (email permission : option string)
  : M Response :=
  try_catch
    (if negb (truthy (or_default email ""))
     then ret (Json 400 "Email is required")
     else
       targetUser <- User_findOne (or_default email "") ;;
       match targetUser with
       | None => ret (Json 404 "User not found")
       | Some targetUser =>
           if User._id targetUser =? userId
           then ret (Json 400 "Cannot share with yourself")
           else
             file <- File_findOne fileId (q_owned fileId userId) ;;
             match file with
             | None => ret (Json 404 "File not found or access denied")
             | Some file =>
                 let isAlreadyShared :=
                   existsb (fun share => File.user share =? User._id targetUser)
                           (File.sharedWith file) in
                 (if isAlreadyShared
                  then File_updateOne_permission fileId (User._id targetUser)
                         (or_default permission "read")
                  else File_save
                         (File.with_sharedWith
                            (File.sharedWith file ++
                             [File.mkShare (User._id targetUser)
                                           (or_default permission "read")])
                            file)) ;;
                 ret (Json 200 (String.append "File shared with "
                                  (String.append (User.email targetUser) " successfully")))
             end
       end)
    (fun _ => ret (Json 500 "Server error")).

(** [router.patch('/file/:fileId/public')]; [isPublic] is [None] when the
    body has no such field. *)
Definition set_public (userId fileId : ObjectId) (isPublic : option bool) : M Response :=
  try_catch
    (match isPublic with
     | None => ret (Json 400 "isPublic field is required")
     | Some b =>
         file <- File_findOneAndUpdate_isPublic fileId userId b ;;
         match file with
         | None => ret (Json 404 "File not found or access denied")
         | Some _ =>
             ret (Json 200 (if b then "File is now public" else "File is now private"))
         end
     end)
    (fun _ => ret (Json 500 "Server error")).

(** ** Vocabulary of the properties *)

(** The persistent part of two worlds is the same: catalog, ledger, blobs. *)
Definition same_store (w w' : World) : Prop :=
  users w' = users w /\ files w' = files w /\
  folders w' = folders w /\ disk w' = disk w.

(** The database answers every call. *)
Definition healthy (w : World) : Prop := faults w = [].

(** The live files of a user, and what they weigh. *)
Definition files_of (userId : ObjectId) (fs : list File.t) : list File.t :=
  filter (fun f => File.owner f =? userId) fs.

Definition sum_sizes (fs : list File.t) : Z :=
  fold_right (fun f acc => File.size f + acc) 0 fs.

(** The ledger of every user agrees with the catalog. *)
Definition ledger_consistent (w : World) : Prop :=
  forall u, In u (users w) ->
    User.storageUsed u = sum_sizes (files_of (User._id u) (files w)).

(** Read access as the sharing rules word it: owner, or public, or named in
    [sharedWith] with whatever permission. *)
Definition canRead (requester : ObjectId) (f : File.t) : Prop :=
  File.owner f = requester \/
  File.isPublic f = true \/
  exists p, In (File.mkShare requester p) (File.sharedWith f).


(** The entries of [sharedWith] that name a user. *)
Definition shares_of (target : ObjectId) (f : File.t) : list File.share :=
  filter (fun sh => File.user sh =? target) (File.sharedWith f).

(** [_id] is a unique key of the files collection. *)
Definition unique_ids (w : World) : Prop := NoDup (map File._id (files w)).


(** The ledger entry of a user: [storageUsed] of the document with that id. *)
Definition ledger (userId : ObjectId) (w : World) : option Z :=
  option_map User.storageUsed (find (fun u => User._id u =? userId) (users w)).

(** The files a folder directly holds, whoever owns them. *)
Definition files_in (folderId : ObjectId) (w : World) : list File.t :=
  filter (q_in_folder folderId) (files w).

(** The ledger call of a cascade: issued only for a positive total. *)
Definition ledger_events (userId : ObjectId) (total : Z) : list Event :=
  if 0 <? total then [UserInc userId (- total)] else [].

(** The calls of a cascade in the order of [delete_folder]: lookup of the
    folder, enumeration, unlinks, the ledger, the records, the folder. *)
Definition cascade_order (folderId userId : ObjectId) (total : Z)
           (unlinks : list Event) : list Event :=
  [FolderFindOne folderId; FileFind folderId] ++ unlinks ++
  ledger_events userId total ++
  [FileDeleteMany folderId; FolderDeleteOne folderId].

(** The order in which the cascade is described with the ledger last:
    enumeration, unlinks, the records, the folder, and only then the ledger. *)
Definition cascade_order_ledger_last (folderId userId : ObjectId) (total : Z)
           (unlinks : list Event) : list Event :=
  [FolderFindOne folderId; FileFind folderId] ++ unlinks ++
  [FileDeleteMany folderId; FolderDeleteOne folderId; UserInc userId (- total)].

(** An unlink of the blob of one of the given files. *)
Definition unlink_of (fs : list File.t) (e : Event) : Prop :=
  exists f, In f fs /\ e = FsUnlink (File.path f).

(** The calls a run has added to the log. *)
Definition issued (w : World) (m : M Response) : list Event :=
  skipn (List.length (log w)) (log (snd (m w))).

(** [Number.isSafeInteger]: an integer that a double holds exactly, as do
    its neighbours. *)
Definition safe_integer (z : Z) : Prop := - (2 ^ 53 - 1) <= z <= 2 ^ 53 - 1.

(** What the transport guarantees of an upload: a body of the declared
    length carries the file and the multipart framing around it, so the file
    is shorter than declared; a chunked body declares no length. *)
Definition fits_declared (content_length : jsnum) (rf : Multer.file) : Prop :=
  match content_length with
  | Num n => Multer.size rf < n
  | NaN => True
  end.

(** [p] is the path, not empty, of one of the given files. *)
Definition blob_of (fs : list File.t) (p : string) : bool :=
  existsb (fun f => truthy (File.path f) && String.eqb (File.path f) p) fs.

(** The unlinks of the loop over the enumerated files, in its order: one for
    each file whose path is not empty and is on disk when its turn comes. *)
Fixpoint unlinks_of (fs : list File.t) (dk : list string) : list Event :=
  match fs with
  | [] => []
  | f :: r =>
      if truthy (File.path f) && existsb (String.eqb (File.path f)) dk
      then FsUnlink (File.path f) ::
           unlinks_of r (filter (fun x => negb (String.eqb (File.path f) x)) dk)
      else unlinks_of r dk
  end.

(** What multer hands over passes the [required] validators of the schema. *)
Definition valid_upload (rf : Multer.file) : Prop :=
  trim (Multer.filename rf) <> "" /\ trim (Multer.originalname rf) <> "" /\
  Multer.mimetype rf <> "" /\ Multer.path rf <> "".

(** No file has this [_id] yet. *)
Definition fresh_file_id (oid : ObjectId) (w : World) : Prop :=
  forall f, In f (files w) -> File._id f <> oid.

(** The caller owns a folder of this id. *)
Definition owns_folder (userId folderId : ObjectId) (w : World) : Prop :=
  exists d, In d (folders w) /\ Folder._id d = folderId /\ Folder.owner d = userId.

(** What a grant does to [sharedWith]: the first entry of the target gets
    the permission, or, when there is none, a new entry is pushed. *)
Definition grant_shares (target : ObjectId) (p : string) (l : list File.share)
  : list File.share :=
  if existsb (fun share => File.user share =? target) l
  then update_first (fun sh => File.user sh =? target)
         (fun sh => File.mkShare (File.user sh) p) l
  else l ++ [File.mkShare target p].

Definition grant_file (target : ObjectId) (p : string) (f : File.t) : File.t :=
  File.with_sharedWith (grant_shares target p (File.sharedWith f)) f.

(** A permission as a request may carry it: absent, or a word of the enum. *)
Definition valid_permission (p : option string) : Prop :=
  File.permission_enum (or_default p "read") = true.

(** The user an email resolves to: the one stored under the email as the
    schema casts it. *)
Definition resolves (email : string) (w : World) : option User.t :=
  find (fun u => String.eqb (User.email u) (User.email_setters email)) (users w).

(** The stored file of an id. *)
Definition stored (fileId : ObjectId) (w : World) : option File.t :=
  find (has_id fileId) (files w).

(** The status a run answers with, when it answers. *)
Definition status_of_run (r : (Exn + Response) * World) : option Z :=
  match fst r with
  | inr resp => Some (status_of resp)
  | inl _ => None
  end.

(** A size that is a non-negative integer. *)
Definition nonneg_integer (v : option jsnum) : Prop :=
  exists z, v = Some (Num z) /\ 0 <= z.



(** Two permissions between which no validator draws a line: the same
    string, or two words of the enum. *)
Definition permission_alike (p q : string) : Prop :=
  p = q \/ (File.permission_enum p = true /\ File.permission_enum q = true).

Definition share_alike (s t : File.share) : Prop :=
  File.user s = File.user t /\
  permission_alike (File.permission s) (File.permission t).

(** Two file documents that differ at most in the permissions of their
    shares. *)
Definition file_alike (f g : File.t) : Prop :=
  File._id f = File._id g /\ File.filename f = File.filename g /\
  File.originalName f = File.originalName g /\
  File.mimetype f = File.mimetype g /\ File.size f = File.size g /\
  File.path f = File.path g /\ File.owner f = File.owner g /\
  File.folder f = File.folder g /\ File.isPublic f = File.isPublic g /\
  Forall2 share_alike (File.sharedWith f) (File.sharedWith g).

(** Two worlds that differ at most in the permissions of shares. *)
Definition world_alike (w v : World) : Prop :=
  users w = users v /\ Forall2 file_alike (files w) (files v) /\
  folders w = folders v /\ disk w = disk v /\ log w = log v /\
  faults w = faults v.



(** ** A small installation, for the examples *)

Module Demo.
Definition alice : User.t := User.mk 1 "Alice" "alice@example.com" 0 1000.
Definition bob : User.t := User.mk 2 "Bob" "bob@example.com" 0 1000.

(** Two users, nothing stored. *)
Definition empty : World := mkWorld [alice; bob] [] [] [] [] [].

(** What multer hands over for a 100-byte upload of Bob. *)
Definition notes : Multer.file :=
  Multer.mk "1700000000000-42.txt" "notes.txt" "text/plain" 100
            "uploads/2/1700000000000-42.txt".

Definition run (m : M Response) (w : World) : World := snd (m w).

(** Alice creates folder 10; Bob uploads [notes] into it; Alice deletes
    the folder. *)
Definition after_folder : World := run (create_folder 1 (Some "X") None 10) empty.
Definition after_upload : World :=
  run (upload_route bob (Num 150) (Some notes) (Some 10) 20) after_folder.
Definition after_cascade : World := run (delete_folder 1 10) after_upload.

(** A file of Alice in her folder 10, shared with Bob for editing. *)
Definition report : File.t :=
  File.mk 30 "1700000000001-7.pdf" "report.pdf" "application/pdf" 600
          "uploads/1/1700000000001-7.pdf" 1 (Some 10) false
          [File.mkShare 2 "edit"].

Definition shared : World :=
  mkWorld [User.mk 1 "Alice" "alice@example.com" 600 1000; bob]
          [report]
          [Folder.mk 10 "X" 1 None]
          ["uploads/1/1700000000001-7.pdf"] [] [].



(** The same file before any grant. *)
Definition draft : File.t := File.with_sharedWith [] report.

Definition unshared : World :=
  mkWorld [User.mk 1 "Alice" "alice@example.com" 600 1000; bob]
          [draft]
          [Folder.mk 10 "X" 1 None]
          ["uploads/1/1700000000001-7.pdf"] [] [].

(** A third user, and the installation with her. *)
Definition carol : User.t := User.mk 3 "Carol" "carol@example.com" 0 1000.

Definition three_users : World :=
  mkWorld [User.mk 1 "Alice" "alice@example.com" 600 1000; bob; carol]
          [draft]
          [Folder.mk 10 "X" 1 None]
          ["uploads/1/1700000000001-7.pdf"] [] [].

(** Alice shares her draft with Bob for reading, then once more with a
    permission that is no word of the enum. *)
Definition after_regrant : World :=
  run (share_file 1 30 (Some "bob@example.com") (Some "admin"))
      (run (share_file 1 30 (Some "bob@example.com") (Some "read")) three_users).

(** The draft as it is then stored. *)
Definition tainted : File.t := File.with_sharedWith [File.mkShare 2 "admin"] draft.

(** A file record with a negative size. *)
Definition negative : File.raw :=
  File.mkRaw 40 "a.bin" "a.bin" "application/octet-stream" (Some (Num (-5)))
             "uploads/1/a.bin" 1 None.

(** A record without a size. *)
Definition sizeless : File.raw :=
  File.mkRaw 41 "b.bin" "b.bin" "application/octet-stream" None
             "uploads/1/b.bin" 1 None.

(** Bob's blob is written, and the database fails: at the save of the
    record, or at the increment of the ledger. *)
Definition save_fails : World :=
  mkWorld [alice; bob] [] [] ["uploads/2/1700000000000-42.txt"] []
          [Some "connection reset"].
Definition inc_fails : World :=
  mkWorld [alice; bob] [] [] ["uploads/2/1700000000000-42.txt"] []
          [None; Some "connection reset"].
(** Alice with 600 bytes stored, as the ledger has her after the upload of
    a 600-byte file, and that upload. *)
Definition alice_after_600 : User.t :=
  User.mk 1 "Alice" "alice@example.com" 600 1000.
Definition big : Multer.file :=
  Multer.mk "1700000000002-9.bin" "big.bin" "application/octet-stream" 600
            "uploads/1/1700000000002-9.bin".
End Demo.

(** ** Accounts in order *)

(** [_id] is a unique key of the users collection. *)
Definition users_unique (w : World) : Prop := NoDup (map User._id (users w)).

(** Sizes are byte counts. *)
Definition sizes_nonneg (w : World) : Prop :=
  Forall (fun f => 0 <= File.size f) (files w).

(** A world whose ledger can be trusted: the database answers, ids are
    keys, sizes are byte counts, and every ledger agrees with the catalog. *)
Definition accounted (w : World) : Prop :=
  healthy w /\ users_unique w /\ unique_ids w /\ sizes_nonneg w /\
  ledger_consistent w.

(** The requests that create and delete files. *)
Inductive request : Type :=
| Upload (user : User.t) (rf : Multer.file) (folderId : option ObjectId)
         (oid : ObjectId)
| DeleteFile (userId fileId : ObjectId)
| DeleteFolder (userId folderId : ObjectId).

Definition serve (r : request) : M Response :=
  match r with
  | Upload user rf folderId oid => upload user (Some rf) folderId oid
  | DeleteFile userId fileId => delete_file userId fileId
  | DeleteFolder userId folderId => delete_folder userId folderId
  end.

(** Requests served one after the other. *)
Fixpoint serve_all (rs : list request) (w : World) : World :=
  match rs with
  | [] => w
  | r :: rest => serve_all rest (snd (serve r w))
  end.

(** What the ledger needs of a request: an upload is what multer hands
    over, under a new id; a folder that is deleted holds no file of another
    user. *)
Definition well_placed (r : request) (w : World) : Prop :=
  match r with
  | Upload user rf folderId oid =>
      valid_upload rf /\ 0 <= Multer.size rf /\ fresh_file_id oid w
  | DeleteFile _ _ => True
  | DeleteFolder userId folderId =>
      forall f, In f (files_in folderId w) -> File.owner f = userId
  end.

Fixpoint all_well_placed (rs : list request) (w : World) : Prop :=
  match rs with
  | [] => True
  | r :: rest => well_placed r w /\ all_well_placed rest (snd (serve r w))
  end.

(** ** The remaining code: the listing route and the server *)

From Stdlib Require Import Sorted Permutation.

(** Equality of two folder references, [null] included. *)
Definition option_id_eqb (a b : option ObjectId) : bool :=
  match a, b with
  | Some x, Some y => x =? y
  | None, None => true
  | _, _ => false
  end.

(** [{ owner: userId, folder: folderId || null }]. *)
Definition q_listed_file (userId : ObjectId) (folderId : option ObjectId)
           (f : File.t) : bool :=
  (File.owner f =? userId) && option_id_eqb (File.folder f) (or_null folderId).

(** [{ owner: userId, parent: folderId || null }]. *)
Definition q_listed_folder (userId : ObjectId) (folderId : option ObjectId)
           (d : Folder.t) : bool :=
  (Folder.owner d =? userId) && option_id_eqb (Folder.parent d) (or_null folderId).

(** [.sort({ createdAt: -1 })]: newest first. *)
Fixpoint insert_desc {A} (key : A -> Z) (x : A) (l : list A) : list A :=
  match l with
  | [] => [x]
  | y :: r => if key y <? key x then x :: l else y :: insert_desc key x r
  end.

Definition sort_desc {A} (key : A -> Z) (l : list A) : list A :=
  fold_right (insert_desc key) [] l.

(** What [router.get('/')] answers: [res.json({ files, folders })], or an
    error. *)
Inductive Listing : Type :=
| Listed (files : list File.t) (folders : list Folder.t)
| ListFailed (status : Z) (message : string).

(** One of the queries under [Promise.all]: it is started, and its failure,
    if the oracle says so, is collected. The log has no entry for these
    reads. *)
Definition query_started : M (option string) :=
  fun w =>
    match faults w with
    | [] => (inr None, w)
    | o :: r => (inr o, set_faults r w)
    end.

Section ListingRoute.
(** [createdAt] of a document ([default: Date.now]); the records above
    leave the date out, so the route takes it from here. *)
Variable file_createdAt : File.t -> Z.
Variable folder_createdAt : Folder.t -> Z.

(** [router.get('/')]: both queries are started, then awaited together. *)
Definition list_children (userId : ObjectId) (folderId : option ObjectId)
  : M Listing :=
  try_catch
    (e1 <- query_started ;;
     e2 <- query_started ;;
     match e1, e2 with
     | None, None =>
         w <- get_world ;;
         ret (Listed
                (sort_desc file_createdAt
                   (filter (q_listed_file userId folderId) (files w)))
                (sort_desc folder_createdAt
                   (filter (q_listed_folder userId folderId) (folders w))))
     | Some msg, _ => throw (MongoError msg)
     | None, Some msg => throw (MongoError msg)
     end)
    (fun _ => ret (ListFailed 500 "Server error")).
End ListingRoute.

(** Newest first. *)
Definition newest_first {A} (key : A -> Z) (l : list A) : Prop :=
  StronglySorted (fun a b => key b <= key a) l.

(** ** [server.js]: the address the server announces *)

(** An entry of [os.networkInterfaces()]. *)
Module Os.
Record iface : Type := mk {
  address : string;
  family : string;
  internal : bool
}.
End Os.

(** [iface.family === 'IPv4' && !iface.internal]. *)
Definition external_ipv4 (i : Os.iface) : bool :=
  String.eqb (Os.family i) "IPv4" && negb (Os.internal i).

(** The inner loop of [getLocalIpAddress], over the addresses of one
    interface. *)
Fixpoint first_external (l : list Os.iface) : option string :=
  match l with
  | [] => None
  | i :: r => if external_ipv4 i then Some (Os.address i) else first_external r
  end.

(** [getLocalIpAddress], over the interfaces in the order of
    [Object.keys(interfaces)]. *)
Fixpoint getLocalIpAddress (interfaces : list (string * list Os.iface)) : string :=
  match interfaces with
  | [] => "0.0.0.0"
  | (_, l) :: r =>
      match first_external l with
      | Some a => a
      | None => getLocalIpAddress r
      end
  end.

(** ** Every request to the routes that answer with a message *)

Inductive api_request : Type :=
| ReqUpload (user : User.t) (file : option Multer.file)
            (folderId : option ObjectId) (oid : ObjectId)
| ReqDownload (userId fileId : ObjectId)
| ReqCreateFolder (userId : ObjectId) (name : option string)
                  (parentId : option ObjectId) (oid : ObjectId)
| ReqDeleteFile (userId fileId : ObjectId)
| ReqDeleteFolder (userId folderId : ObjectId)
| ReqShare (userId fileId : ObjectId) (email permission : option string)
| ReqSetPublic (userId fileId : ObjectId) (isPublic : option bool).

Definition handle (r : api_request) : M Response :=
  match r with
  | ReqUpload user file folderId oid => upload user file folderId oid
  | ReqDownload userId fileId => download userId fileId
  | ReqCreateFolder userId name parentId oid => create_folder userId name parentId oid
  | ReqDeleteFile userId fileId => delete_file userId fileId
  | ReqDeleteFolder userId folderId => delete_folder userId folderId
  | ReqShare userId fileId email permission => share_file userId fileId email permission
  | ReqSetPublic userId fileId isPublic => set_public userId fileId isPublic
  end.

Definition is_upload (r : api_request) : bool :=
  match r with
  | ReqUpload _ _ _ _ => true
  | _ => false
  end.

(** What identifies a user and bounds the quota: all of a user document
    but [storageUsed]. *)
Definition user_identity (u : User.t) : ObjectId * string * string * Z :=
  (User._id u, User.name u, User.email u, User.storageLimit u).

(** Two file documents that differ at most in [isPublic] and [sharedWith]. *)
Definition same_core (f f' : File.t) : Prop :=
  File._id f' = File._id f /\ File.filename f' = File.filename f /\
  File.originalName f' = File.originalName f /\
  File.mimetype f' = File.mimetype f /\ File.size f' = File.size f /\
  File.path f' = File.path f /\ File.owner f' = File.owner f /\
  File.folder f' = File.folder f.

(** [sharedWith] names no user twice and never the owner. *)
Definition share_ok (f : File.t) : Prop :=
  NoDup (map File.user (File.sharedWith f)) /\
  ~ In (File.owner f) (map File.user (File.sharedWith f)).

(** [_id] is a unique key of the folders collection. *)
Definition folders_unique (w : World) : Prop :=
  NoDup (map Folder._id (folders w)).

(** A relation between the world before and the world after that every run
    of [m] respects, whatever the oracle says. *)
Definition steps (R : World -> World -> Prop) {A} (m : M A) : Prop :=
  forall w, R w (snd (m w)).

(** No folder has this [_id] yet. *)
Definition fresh_folder_id (oid : ObjectId) (w : World) : Prop :=
  forall d, In d (folders w) -> Folder._id d <> oid.

(** The requests that write at most once: a grant, a visibility toggle, a
    folder creation; and the download, which does not write. *)
Definition single_write (r : api_request) : bool :=
  match r with
  | ReqShare _ _ _ _ | ReqSetPublic _ _ _ | ReqCreateFolder _ _ _ _
  | ReqDownload _ _ => true
  | _ => false
  end.

(** The status of a request that went through. *)
Definition success_status (r : api_request) : Z :=
  match r with
  | ReqUpload _ _ _ _ | ReqCreateFolder _ _ _ _ => 201
  | _ => 200
  end.

(** A run either leaves catalog, ledger and blobs as they were, or answers
    with status [s]. *)
Definition all_or_nothing (s : Z) (m : M Response) : Prop :=
  forall w, same_store w (snd (m w)) \/
            exists r, fst (m w) = inr r /\ status_of r = s.

(** A write that, when it throws, has written nothing. *)
Definition atomic_write {A} (m : M A) : Prop :=
  forall w, (exists a, fst (m w) = inr a) \/ same_store w (snd (m w)).

(** ** More of the small installation *)

Module Sample.
(** Alice's folder 10 with a sub-folder 11: her report (shared with Bob for
    editing) directly in 10, her slides in 11. *)
Definition slides : File.t :=
  File.mk 31 "1700000000003-5.ppt" "slides.ppt" "application/vnd.ms-powerpoint" 300
          "uploads/1/1700000000003-5.ppt" 1 (Some 11) false [].

Definition nested : World :=
  mkWorld [User.mk 1 "Alice" "alice@example.com" 900 1000; Demo.bob]
          [Demo.report; slides]
          [Folder.mk 10 "X" 1 None; Folder.mk 11 "Y" 1 (Some 10)]
          ["uploads/1/1700000000001-7.pdf"; "uploads/1/1700000000003-5.ppt"] [] [].

(** The same, with a database that answers two calls and fails the third. *)
Definition third_call_fails : World :=
  set_faults [None; None; Some "connection reset"] nested.

(** The same, with a database that answers one call and fails the second. *)
Definition second_call_fails : World :=
  set_faults [None; Some "connection reset"] nested.

(** Alice as [req.user] has her, with 900 of 1000 bytes used. *)
Definition alice_900 : User.t := User.mk 1 "Alice" "alice@example.com" 900 1000.

(** Interfaces of a host: loopback first, then a card with an IPv6 and an
    IPv4 address. *)
Definition host : list (string * list Os.iface) :=
  [("lo", [Os.mk "127.0.0.1" "IPv4" true; Os.mk "::1" "IPv6" true]);
   ("eth0", [Os.mk "fe80::1" "IPv6" false; Os.mk "192.168.1.20" "IPv4" false])].
End Sample.

(** What a request can write to: the collections and the disk outside this
    footprint are out of its reach. *)
Definition writes_users (r : api_request) : bool :=
  match r with
  | ReqUpload _ _ _ _ | ReqDeleteFile _ _ | ReqDeleteFolder _ _ => true
  | _ => false
  end.

Definition writes_files (r : api_request) : bool :=
  match r with
  | ReqDownload _ _ | ReqCreateFolder _ _ _ _ => false
  | _ => true
  end.

Definition writes_folders (r : api_request) : bool :=
  match r with
  | ReqCreateFolder _ _ _ _ | ReqDeleteFolder _ _ => true
  | _ => false
  end.

Definition writes_disk (r : api_request) : bool :=
  match r with
  | ReqUpload _ _ _ _ | ReqDeleteFile _ _ | ReqDeleteFolder _ _ => true
  | _ => false
  end.

(** The world after is the world before, outside the footprint of [r]. *)
Definition within_footprint (r : api_request) (w w' : World) : Prop :=
  (writes_users r = false -> users w' = users w) /\
  (writes_files r = false -> files w' = files w) /\
  (writes_folders r = false -> folders w' = folders w) /\
  (writes_disk r = false -> disk w' = disk w).
(** ** The monad, step by step *)

Lemma db_healthy (e : Event) (w : World) :
  healthy w -> db e w = (inr tt, set_log (log w ++ [e]) w).
Proof.
  unfold healthy, db, bind, emit, modify, get_world, ret; simpl.
  intros ->; reflexivity.
Qed.

(** Whatever the oracle says, a database round trip touches only the log and
    the oracle. *)
Lemma db_same_store (e : Event) (w : World) :
  same_store w (snd (db e w)).
Proof.
  unfold db, bind, emit, modify, get_world, ret, throw, same_store; simpl.
  destruct (faults w) as [|[msg|] r]; simpl; auto.
Qed.

Lemma db_cases (e : Event) (w : World) :
  exists w', same_store w w' /\ log w' = log w ++ [e] /\
    (db e w = (inr tt, w') \/ exists msg, db e w = (inl (MongoError msg), w')).
Proof.
  unfold db, bind, emit, modify, get_world, ret, throw, same_store; simpl.
  destruct (faults w) as [|[msg|] r]; simpl.
  - eexists; split; [|split; [|left; reflexivity]]; simpl; auto.
  - eexists; split; [|split; [|right; exists msg; reflexivity]]; simpl; auto.
  - eexists; split; [|split; [|left; reflexivity]]; simpl; auto.
Qed.

Lemma bind_ok {A B} (m : M A) (k : A -> M B) (w w' : World) (a : A) :
  m w = (inr a, w') -> bind m k w = k a w'.
Proof. unfold bind; intros ->; reflexivity. Qed.

Lemma try_ok {A} (m : M A) (h : Exn -> M A) (w w' : World) (a : A) :
  m w = (inr a, w') -> try_catch m h w = (inr a, w').
Proof. unfold try_catch; intros ->; reflexivity. Qed.

(** One call of a handler on a database that answers: rewrite with the
    equation of the call. *)
Ltac step L := erewrite bind_ok by (apply L; assumption).

(** ** The quota check *)

Lemma round_double_exact (z : Z) : Z.abs z <= 2 ^ 53 -> round_double z = z.
Proof.
  intros H. unfold round_double.
  destruct (Z.leb_spec (Z.abs z) (2 ^ 53)) as [_|C]; [reflexivity|lia].
Qed.

(** Beyond [2 ^ 53] the rounded magnitude is at least [2 ^ 53]. *)
Lemma round_double_magnitude (a : Z) :
  2 ^ 53 < a ->
  let e := Z.log2 a - 52 in
  let q := a / 2 ^ e in
  2 ^ 53 <= q * 2 ^ e /\ 2 ^ 53 <= (q + 1) * 2 ^ e.
Proof.
  intros Ha e q.
  assert (0 < a) as Hpos by lia.
  pose proof (Z.log2_spec a Hpos) as [Hlo _].
  assert (53 <= Z.log2 a) as Hlog.
  { apply Z.log2_le_pow2; [exact Hpos|lia]. }
  assert (1 <= e) as He by (unfold e; lia).
  assert (0 < 2 ^ e) as Hpe by (apply Z.pow_pos_nonneg; lia).
  assert (2 ^ Z.log2 a = 2 ^ 52 * 2 ^ e) as Hsplit.
  { rewrite <- Z.pow_add_r by lia. f_equal; unfold e; lia. }
  assert (2 ^ 52 <= q) as Hq.
  { unfold q. apply Z.div_le_lower_bound; [exact Hpe|]. rewrite Z.mul_comm, <- Hsplit.
    exact Hlo. }
  assert (2 <= 2 ^ e) as H2.
  { change 2 with (2 ^ 1) at 1. apply Z.pow_le_mono_r; lia. }
  change (2 ^ 53) with (2 ^ 52 * 2). split; nia.
Qed.

Lemma round_double_large (z : Z) : 2 ^ 53 <= z -> 2 ^ 53 <= round_double z.
Proof.
  intros H. unfold round_double.
  destruct (Z.leb_spec (Z.abs z) (2 ^ 53)) as [_|C]; [exact H|].
  assert (Z.abs z = z) as Ha by lia. rewrite Ha in *.
  assert (Z.sgn z = 1) as -> by (apply Z.sgn_pos; lia).
  destruct (round_double_magnitude z C) as [H1 H2].
  destruct ((_ <? _) || _); lia.
Qed.

Lemma round_double_small (z : Z) : z <= - 2 ^ 53 -> round_double z <= - 2 ^ 53.
Proof.
  intros H. unfold round_double.
  destruct (Z.leb_spec (Z.abs z) (2 ^ 53)) as [_|C]; [exact H|].
  assert (Z.abs z = - z) as Ha by lia. rewrite Ha in *.
  assert (Z.sgn z = -1) as -> by (apply Z.sgn_neg; lia).
  destruct (round_double_magnitude (- z) C) as [H1 H2].
  destruct ((_ <? _) || _); lia.
Qed.

(** Rounding does not carry a sum across a safe integer. *)
Lemma round_double_above (z l : Z) :
  safe_integer l -> l < z -> l < round_double z.
Proof.
  unfold safe_integer; intros Hl Hz.
  destruct (Z.le_gt_cases (2 ^ 53) z) as [Hbig|Hsmall].
  - pose proof (round_double_large z Hbig). lia.
  - rewrite round_double_exact; [exact Hz|lia].
Qed.

Lemma round_double_below (z l : Z) :
  safe_integer l -> z <= l -> round_double z <= l.
Proof.
  unfold safe_integer; intros Hl Hz.
  destruct (Z.le_gt_cases z (- 2 ^ 53)) as [Hbig|Hsmall].
  - pose proof (round_double_small z Hbig). lia.
  - rewrite round_double_exact; [exact Hz|lia].
Qed.

Lemma fileFilter_rejects (u : User.t) (n : Z) :
  safe_integer (User.storageLimit u) ->
  (fileFilter u (Num n) = Reject "Storage limit exceeded" <->
   User.storageUsed u + n > User.storageLimit u).
Proof.
  intros Hs. unfold fileFilter; simpl.
  destruct (Z.ltb_spec (User.storageLimit u) (round_double (User.storageUsed u + n)))
    as [H|H]; split; intro H'; try reflexivity; try discriminate.
  - destruct (Z.le_gt_cases (User.storageUsed u + n) (User.storageLimit u)) as [C|C]; [|lia].
    pose proof (round_double_below _ _ Hs C). lia.
  - pose proof (round_double_above (User.storageUsed u + n) _ Hs). lia.
Qed.

Lemma fileFilter_accepts (u : User.t) (n : Z) :
  safe_integer (User.storageLimit u) ->
  (fileFilter u (Num n) = Accept <->
   User.storageUsed u + n <= User.storageLimit u).
Proof.
  intros Hs. pose proof (fileFilter_rejects u n Hs) as Hr.
  unfold fileFilter in *; simpl in *.
  destruct (User.storageLimit u <? round_double (User.storageUsed u + n)).
  - split; [discriminate|]. intros H. exfalso.
    assert (User.storageUsed u + n > User.storageLimit u) by (apply Hr; reflexivity). lia.
  - split; [|reflexivity]. intros _.
    destruct (Z.le_gt_cases (User.storageUsed u + n) (User.storageLimit u)) as [C|C];
      [exact C|].
    assert (Accept = Reject "Storage limit exceeded") as X by (apply Hr; lia).
    discriminate.
Qed.

(** A content-length that is absent or not a number is [NaN] after
    [parseInt]; the comparison is then false and the check lets it through. *)
Lemma fileFilter_NaN (u : User.t) : fileFilter u NaN = Accept.
Proof. reflexivity. Qed.

(** C2. For every user whose [storageLimit] is a safe integer and every
    requested byte count, the quota check made before the upload
    ([fileFilter], the reserve step) rejects exactly when
    [storageUsed + requestedBytes > storageLimit]; otherwise it accepts, and
    in particular it accepts the request that fills the quota exactly
    ([storageUsed + requestedBytes = storageLimit]). *)
Theorem reserve_denies_exactly_above_limit (u : User.t) (n : Z) :
  safe_integer (User.storageLimit u) ->
  (fileFilter u (Num n) = Reject "Storage limit exceeded" <->
   User.storageUsed u + n > User.storageLimit u) /\
  (fileFilter u (Num n) = Accept <->
   User.storageUsed u + n <= User.storageLimit u) /\
  (User.storageUsed u + n = User.storageLimit u -> fileFilter u (Num n) = Accept).
Proof.
  intros Hs. split; [apply fileFilter_rejects; exact Hs|].
  split; [apply fileFilter_accepts; exact Hs|].
  intros E. apply fileFilter_accepts; [exact Hs|lia].
Qed.

(** Where the limit is no safe integer the sum of the check is rounded: at
    [2 ^ 53] bytes used of [2 ^ 53], one byte more is let through. *)
Example quota_check_rounds_beyond_safe_integers :
  fileFilter (User.mk 1 "Alice" "alice@example.com" (2 ^ 53) (2 ^ 53)) (Num 1) = Accept.
Proof. vm_compute; reflexivity. Qed.

(** The quota scenario: with a limit of 1000 and nothing stored, a body of
    800 bytes is accepted and the upload of the 600-byte file it carries
    brings the ledger to 600; 500 more are then rejected (1100 > 1000), 400
    more would fill the quota exactly and are accepted; once the file is
    deleted the ledger is back at 0 and 500 bytes are accepted. *)
Example quota_scenario :
  fileFilter Demo.alice (Num 800) = Accept /\
  ledger 1 (Demo.run (upload_route Demo.alice (Num 800) (Some Demo.big) None 50)
                     Demo.empty) = Some 600 /\
  fileFilter Demo.alice_after_600 (Num 500) = Reject "Storage limit exceeded" /\
  fileFilter Demo.alice_after_600 (Num 400) = Accept /\
  ledger 1 (Demo.run (delete_file 1 50)
              (Demo.run (upload_route Demo.alice (Num 800) (Some Demo.big) None 50)
                        Demo.empty)) = Some 0 /\
  fileFilter Demo.alice (Num 500) = Accept.
Proof. repeat split; vm_compute; reflexivity. Qed.

(** ** Looking documents up *)

Lemma find_none_forall {A} (q : A -> bool) (l : list A) :
  (forall x, In x l -> q x = false) -> find q l = None.
Proof.
  induction l as [|x r IH]; simpl; intros H; [reflexivity|].
  rewrite (H x (or_introl eq_refl)). apply IH; intros; apply H; auto.
Qed.

(** With unique ids, a query on [_id] and a further condition finds the
    document of that id, or nothing. *)
Lemma find_by_id (g : File.t -> bool) (F : File.t) (l : list File.t) :
  NoDup (map File._id l) -> In F l ->
  find (fun f => (File._id f =? File._id F) && g f) l =
  if g F then Some F else None.
Proof.
  induction l as [|x r IH]; simpl; intros ND HIn; [contradiction|].
  inversion ND as [|? ? Hnot ND']; subst.
  destruct HIn as [->|HIn].
  - rewrite Z.eqb_refl; simpl. destruct (g F) eqn:Hg; [reflexivity|].
    apply find_none_forall; intros y Hy.
    destruct (Z.eqb_spec (File._id y) (File._id F)) as [E|]; [|reflexivity].
    exfalso; apply Hnot; rewrite <- E; apply in_map; exact Hy.
  - destruct (Z.eqb_spec (File._id x) (File._id F)) as [E|NE].
    + exfalso; apply Hnot; rewrite E; apply in_map; exact HIn.
    + simpl; apply IH; assumption.
Qed.

(** Collections with a key. *)
Section Keyed.
Variable A : Type.
Variable key : A -> Z.

Lemma filter_key_absent (k : Z) (l : list A) :
  ~ In k (map key l) -> filter (fun x => negb (key x =? k)) l = l.
Proof.
  induction l as [|x r IH]; simpl; intros H; [reflexivity|].
  destruct (Z.eqb_spec (key x) k) as [E|_]; [exfalso; apply H; left; exact E|].
  simpl; rewrite IH; [reflexivity|intro C; apply H; right; exact C].
Qed.

Lemma map_key_absent (k : Z) (g : A -> A) (l : list A) :
  ~ In k (map key l) -> map (fun x => if key x =? k then g x else x) l = l.
Proof.
  induction l as [|x r IH]; simpl; intros H; [reflexivity|].
  destruct (Z.eqb_spec (key x) k) as [E|_]; [exfalso; apply H; left; exact E|].
  rewrite IH; [reflexivity|intro C; apply H; right; exact C].
Qed.

(** On a collection with a unique key, an update of the first document of a
    key is an update of the document of that key. *)
Lemma update_first_keyed (k : Z) (g : A -> A) (l : list A) :
  NoDup (map key l) ->
  update_first (fun x => key x =? k) g l =
  map (fun x => if key x =? k then g x else x) l.
Proof.
  induction l as [|x r IH]; simpl; intros ND; [reflexivity|].
  inversion ND as [|? ? Hnot ND']; subst.
  destruct (Z.eqb_spec (key x) k) as [E|_].
  - rewrite map_key_absent; [reflexivity|rewrite <- E; exact Hnot].
  - rewrite IH by exact ND'; reflexivity.
Qed.

Lemma delete_first_keyed (k : Z) (l : list A) :
  NoDup (map key l) ->
  delete_first (fun x => key x =? k) l = filter (fun x => negb (key x =? k)) l.
Proof.
  induction l as [|x r IH]; simpl; intros ND; [reflexivity|].
  inversion ND as [|? ? Hnot ND']; subst.
  destruct (Z.eqb_spec (key x) k) as [E|_]; simpl.
  - rewrite filter_key_absent; [reflexivity|rewrite <- E; exact Hnot].
  - rewrite IH by exact ND'; reflexivity.
Qed.

Lemma NoDup_map_filter (p : A -> bool) (l : list A) :
  NoDup (map key l) -> NoDup (map key (filter p l)).
Proof.
  induction l as [|x r IH]; simpl; intros ND; [constructor|].
  inversion ND as [|? ? Hnot ND']; subst.
  destruct (p x); simpl; [|apply IH; exact ND'].
  constructor; [|apply IH; exact ND'].
  intros C; apply Hnot. apply in_map_iff in C; destruct C as (y & Hy & HIn).
  apply filter_In in HIn; rewrite <- Hy; apply in_map; tauto.
Qed.
End Keyed.

Lemma q_shared_with_spec (R : ObjectId) (F : File.t) :
  q_shared_with R F = true <->
  exists p, In (File.mkShare R p) (File.sharedWith F).
Proof.
  unfold q_shared_with; rewrite existsb_exists; split.
  - intros [[u p] [HIn E]]; simpl in E; apply Z.eqb_eq in E; subst.
    exists p; exact HIn.
  - intros [p HIn]; exists (File.mkShare R p); split; [exact HIn|].
    simpl; apply Z.eqb_refl.
Qed.

(** The [$or] of the download query is [canRead]. *)
Lemma readable_spec (R : ObjectId) (F : File.t) :
  (File.owner F =? R) || q_shared_with R F || File.isPublic F = true <->
  canRead R F.
Proof.
  unfold canRead. rewrite !orb_true_iff, Z.eqb_eq, q_shared_with_spec. tauto.
Qed.

(** ** Deleting a file *)

Lemma find_owned_none (w : World) (ownerId fileId : ObjectId) :
  (forall f, In f (files w) -> File._id f = fileId -> File.owner f <> ownerId) ->
  find (q_owned fileId ownerId) (files w) = None.
Proof.
  intros H; apply find_none_forall; intros f Hf; unfold q_owned.
  destruct (Z.eqb_spec (File._id f) fileId) as [E|]; [|reflexivity].
  destruct (Z.eqb_spec (File.owner f) ownerId) as [E'|]; [|reflexivity].
  exfalso; exact (H f Hf E E').
Qed.

(** Even with a database that throws, a delete that finds no owned file
    leaves catalog, ledger and blobs as they were. *)
Lemma delete_file_not_owned_same_store (w : World) (ownerId fileId : ObjectId) :
  (forall f, In f (files w) -> File._id f = fileId -> File.owner f <> ownerId) ->
  same_store w (snd (delete_file ownerId fileId w)).
Proof.
  intros H. pose proof (find_owned_none w ownerId fileId H) as Hfind.
  unfold delete_file, try_catch, File_findOne, bind.
  destruct (db_cases (FileFindOne fileId) w) as (w1 & Hs & _ & [E|[msg E]]);
    rewrite E; simpl.
  - unfold get_world, ret; simpl.
    pose proof Hs as (_ & Hf & _); rewrite Hf, Hfind; simpl; exact Hs.
  - exact Hs.
Qed.

(** C8. [deleteFile(ownerId, fileId)] answers 404 (not found) whenever no
    file with that id is owned by [ownerId], whoever else owns it and
    whatever its [sharedWith] or [isPublic] say, and then no catalog record,
    no ledger value and no blob has changed. *)
Theorem delete_file_requires_ownership (w : World) (ownerId fileId : ObjectId) :
  healthy w ->
  (forall f, In f (files w) -> File._id f = fileId -> File.owner f <> ownerId) ->
  fst (delete_file ownerId fileId w) =
    inr (Json 404 "File not found or access denied") /\
  same_store w (snd (delete_file ownerId fileId w)).
Proof.
  intros Hh H; split; [|apply delete_file_not_owned_same_store; exact H].
  unfold delete_file, try_catch, File_findOne, bind.
  rewrite (db_healthy _ _ Hh); unfold get_world, ret; simpl.
  rewrite (find_owned_none w ownerId fileId H); reflexivity.
Qed.

(** ** Downloading *)

Lemma download_run (w : World) (R : ObjectId) (F : File.t) :
  healthy w -> unique_ids w -> In F (files w) ->
  fst (download R (File._id F) w) =
  inr (if (File.owner F =? R) || q_shared_with R F || File.isPublic F
       then Download (File.path F) (File.originalName F)
       else Json 404 "File not found or access denied").
Proof.
  intros Hh Hu HIn.
  unfold download, try_catch, File_findOne, bind.
  rewrite (db_healthy _ _ Hh); unfold get_world, ret; simpl.
  unfold q_readable.
  rewrite (find_by_id (fun f => (File.owner f =? R) || q_shared_with R f || File.isPublic f)
             F (files w) Hu HIn).
  destruct ((File.owner F =? R) || q_shared_with R F || File.isPublic F); reflexivity.
Qed.

(** C5. For every requester [R] and stored file [F], the download route
    grants the read (it sends the blob of [F]) if and only if [R] owns [F],
    or [F] is public, or [R] is named in [sharedWith] with any permission;
    otherwise it answers 404 (not found). *)
Theorem download_grants_read_iff (w : World) (R : ObjectId) (F : File.t) :
  healthy w -> unique_ids w -> In F (files w) ->
  (fst (download R (File._id F) w) =
     inr (Download (File.path F) (File.originalName F)) <-> canRead R F) /\
  (fst (download R (File._id F) w) =
     inr (Json 404 "File not found or access denied") <-> ~ canRead R F).
Proof.
  intros Hh Hu HIn. rewrite (download_run w R F Hh Hu HIn).
  pose proof (readable_spec R F) as Hspec.
  destruct ((File.owner F =? R) || q_shared_with R F || File.isPublic F).
  - split; split; intro H; try reflexivity; try discriminate.
    + apply Hspec; reflexivity.
    + exfalso; apply H, Hspec; reflexivity.
  - split; split; intro H; try reflexivity; try discriminate.
    + apply Hspec in H; discriminate.
    + intro C; apply Hspec in C; discriminate.
Qed.

(** ** A failed upload *)

Lemma unlink_removes (p : string) (w : World) :
  p <> "" ->
  fst (unlink_if_exists p w) = inr tt /\
  ~ In p (disk (snd (unlink_if_exists p w))) /\
  users (snd (unlink_if_exists p w)) = users w /\
  files (snd (unlink_if_exists p w)) = files w /\
  folders (snd (unlink_if_exists p w)) = folders w.
Proof.
  intros Hp. unfold unlink_if_exists, truthy.
  destruct (String.eqb_spec p "") as [E|_]; [contradiction|]; simpl.
  unfold bind, fs_existsSync, get_world, ret; simpl.
  destruct (existsb (String.eqb p) (disk w)) eqn:Hex; simpl.
  - repeat split; auto.
    intro HIn; apply filter_In in HIn; destruct HIn as [_ Hn].
    rewrite String.eqb_refl in Hn; discriminate.
  - repeat split; auto.
    intro HIn. assert (existsb (String.eqb p) (disk w) = true) as C.
    { apply existsb_exists; exists p; split; [exact HIn|apply String.eqb_refl]. }
    congruence.
Qed.

(** The upload handler with a file always answers, with 201 or with 500. *)
Lemma upload_total (w : World) (user : User.t) (rf : Multer.file)
      (folderId : option ObjectId) (oid : ObjectId) :
  Multer.path rf <> "" ->
  exists r, fst (upload user (Some rf) folderId oid w) = inr r /\
    ((exists m, r = Json 500 m) /\
       ~ In (Multer.path rf) (disk (snd (upload user (Some rf) folderId oid w)))
     \/ r = Json 201 "File uploaded successfully").
Proof.
  intros Hp. unfold upload, try_catch.
  match goal with |- context [bind ?a ?k w] => destruct (bind a k w) as [[e|r] w1] eqn:Hbody end.
  - destruct (unlink_removes (Multer.path rf) w1 Hp) as (Hr & Hd & _).
    unfold bind at 1 2. destruct (unlink_if_exists (Multer.path rf) w1) as [[e'|[]] w2];
      simpl in Hr; [discriminate|].
    simpl. eexists; split; [reflexivity|]. left; split; [eexists; reflexivity|exact Hd].
  - exists r; split; [reflexivity|]. right.
    unfold bind in Hbody.
    destruct (createFile _ w) as [[e|f] w2]; [discriminate|].
    destruct (User_findByIdAndUpdate_inc _ _ w2) as [[e|[]] w3]; [discriminate|].
    unfold ret in Hbody; congruence.
Qed.

(** C10. If the upload handler fails after the blob has been written to
    disk (the save of the File record or the ledger increment throws), it
    deletes the blob before it answers the error: after every failed upload
    the blob is not on disk. *)
Theorem failed_upload_leaves_no_blob (w : World) (user : User.t)
        (rf : Multer.file) (folderId : option ObjectId) (oid : ObjectId)
        (r : Response) :
  Multer.path rf <> "" ->
  In (Multer.path rf) (disk w) ->
  fst (upload user (Some rf) folderId oid w) = inr r ->
  r <> Json 201 "File uploaded successfully" ->
  (exists m, r = Json 500 m) /\
  ~ In (Multer.path rf) (disk (snd (upload user (Some rf) folderId oid w))).
Proof.
  intros Hp _ Hr Hfail.
  destruct (upload_total w user rf folderId oid Hp) as (r' & Hr' & [H|H]).
  - rewrite Hr in Hr'; inversion Hr'; subst; exact H.
  - rewrite Hr in Hr'; inversion Hr'; subst; contradiction.
Qed.

(** ** Cascade deletion *)

Lemma total_size_from (fs : list File.t) (a : Z) :
  fold_left (fun total file => total + File.size file) fs a = a + sum_sizes fs.
Proof.
  revert a; induction fs as [|f r IH]; intros a; simpl; [lia|].
  rewrite IH; lia.
Qed.

Lemma total_size_sum (fs : list File.t) : total_size fs = sum_sizes fs.
Proof. unfold total_size; rewrite total_size_from; lia. Qed.

(** The loop over the enumerated files: it only unlinks blobs of those
    files, and afterwards none of their blobs is left. *)
Lemma unlink_loop (fs : list File.t) :
  forall w, exists dk evs,
    for_of fs (fun file => unlink_if_exists (File.path file)) w =
      (inr tt, mkWorld (users w) (files w) (folders w) dk (log w ++ evs) (faults w)) /\
    Forall (unlink_of fs) evs /\
    (forall p, In p dk -> In p (disk w)) /\
    (forall f, In f fs -> File.path f <> "" -> ~ In (File.path f) dk).
Proof.
  induction fs as [|f r IH]; intros w.
  - exists (disk w), []; simpl; unfold ret; rewrite app_nil_r.
    destruct w; simpl; repeat split; auto.
  - simpl. unfold bind at 1.
    assert (exists dk1 ev1,
      unlink_if_exists (File.path f) w =
        (inr tt, mkWorld (users w) (files w) (folders w) dk1 (log w ++ ev1) (faults w)) /\
      Forall (unlink_of (f :: r)) ev1 /\
      (forall p, In p dk1 -> In p (disk w)) /\
      (File.path f <> "" -> ~ In (File.path f) dk1)) as (dk1 & ev1 & E1 & F1 & S1 & N1).
    { unfold unlink_if_exists, truthy.
      destruct (String.eqb_spec (File.path f) "") as [E|NE]; simpl.
      - exists (disk w), []; unfold ret; rewrite app_nil_r; destruct w; simpl.
        repeat split; auto; intros C; contradiction.
      - unfold bind, fs_existsSync, get_world, ret; simpl.
        destruct (existsb (String.eqb (File.path f)) (disk w)) eqn:Hex; simpl.
        + exists (filter (fun x => negb (String.eqb (File.path f) x)) (disk w)),
            [FsUnlink (File.path f)].
          repeat split.
          * repeat constructor. exists f; split; [left; reflexivity|reflexivity].
          * intros p Hp; apply filter_In in Hp; tauto.
          * intros _ Hp; apply filter_In in Hp; destruct Hp as [_ Hp].
            rewrite String.eqb_refl in Hp; discriminate.
        + exists (disk w), []; rewrite app_nil_r; destruct w; simpl in *.
          repeat split; auto. intros _ Hp.
          assert (existsb (String.eqb (File.path f)) disk0 = true) as C.
          { apply existsb_exists; exists (File.path f); split;
              [exact Hp|apply String.eqb_refl]. }
          congruence. }
    rewrite E1.
    destruct (IH (mkWorld (users w) (files w) (folders w) dk1 (log w ++ ev1) (faults w)))
      as (dk & evs & E & F & S & N); simpl in *.
    exists dk, (ev1 ++ evs). rewrite E, app_assoc. repeat split.
    + apply Forall_app; split; [exact F1|].
      eapply Forall_impl; [|exact F]. intros e (g & Hg & ->); exists g; split; [right|]; auto.
    + intros p Hp; auto.
    + intros g [->|Hg] Hne; [intro C; apply (N1 Hne), S, C|apply N; assumption].
Qed.

Lemma Folder_findOne_healthy (folderId userId : ObjectId) (w : World) :
  healthy w ->
  Folder_findOne folderId userId w =
  (inr (find (q_folder_owned folderId userId) (folders w)),
   set_log (log w ++ [FolderFindOne folderId]) w).
Proof.
  intros Hh; unfold Folder_findOne.
  rewrite (bind_ok _ _ _ _ _ (db_healthy _ _ Hh)). reflexivity.
Qed.

Lemma File_findOne_healthy (id : ObjectId) (q : File.t -> bool) (w : World) :
  healthy w ->
  File_findOne id q w =
  (inr (find q (files w)), set_log (log w ++ [FileFindOne id]) w).
Proof.
  intros Hh; unfold File_findOne.
  rewrite (bind_ok _ _ _ _ _ (db_healthy _ _ Hh)). reflexivity.
Qed.

Lemma File_find_healthy (folderId : ObjectId) (w : World) :
  healthy w ->
  File_find folderId w =
  (inr (files_in folderId w), set_log (log w ++ [FileFind folderId]) w).
Proof.
  intros Hh; unfold File_find.
  rewrite (bind_ok _ _ _ _ _ (db_healthy _ _ Hh)). reflexivity.
Qed.

Lemma User_inc_healthy (userId : ObjectId) (delta : Z) (w : World) :
  healthy w ->
  User_findByIdAndUpdate_inc userId delta w =
  (inr tt,
   mkWorld
     (update_first (fun u => User._id u =? userId)
        (fun u => User.with_storageUsed (User.storageUsed u + delta) u) (users w))
     (files w) (folders w) (disk w) (log w ++ [UserInc userId delta]) (faults w)).
Proof.
  intros Hh; unfold User_findByIdAndUpdate_inc.
  rewrite (bind_ok _ _ _ _ _ (db_healthy _ _ Hh)). reflexivity.
Qed.

Lemma File_deleteMany_healthy (folderId : ObjectId) (w : World) :
  healthy w ->
  File_deleteMany folderId w =
  (inr tt,
   mkWorld (users w) (filter (fun f => negb (q_in_folder folderId f)) (files w))
     (folders w) (disk w) (log w ++ [FileDeleteMany folderId]) (faults w)).
Proof.
  intros Hh; unfold File_deleteMany.
  rewrite (bind_ok _ _ _ _ _ (db_healthy _ _ Hh)). reflexivity.
Qed.

Lemma File_deleteOne_healthy (id : ObjectId) (w : World) :
  healthy w ->
  File_deleteOne id w =
  (inr tt,
   mkWorld (users w) (delete_first (has_id id) (files w))
     (folders w) (disk w) (log w ++ [FileDeleteOne id]) (faults w)).
Proof.
  intros Hh; unfold File_deleteOne.
  rewrite (bind_ok _ _ _ _ _ (db_healthy _ _ Hh)). reflexivity.
Qed.

Lemma Folder_deleteOne_healthy (id : ObjectId) (w : World) :
  healthy w ->
  Folder_deleteOne id w =
  (inr tt,
   mkWorld (users w) (files w)
     (delete_first (fun x => Folder._id x =? id) (folders w))
     (disk w) (log w ++ [FolderDeleteOne id]) (faults w)).
Proof.
  intros Hh; unfold Folder_deleteOne.
  rewrite (bind_ok _ _ _ _ _ (db_healthy _ _ Hh)). reflexivity.
Qed.

Lemma delete_folder_run (w : World) (userId folderId : ObjectId) (d : Folder.t) :
  healthy w ->
  find (q_folder_owned folderId userId) (folders w) = Some d ->
  let total := sum_sizes (files_in folderId w) in
  exists dk unlinks,
    delete_folder userId folderId w =
      (inr (Json 200 "Folder and all its contents deleted successfully"),
       mkWorld
         (if 0 <? total
          then update_first (fun u => User._id u =? userId)
                 (fun u => User.with_storageUsed (User.storageUsed u + - total) u)
                 (users w)
          else users w)
         (filter (fun f => negb (q_in_folder folderId f)) (files w))
         (delete_first (fun x => Folder._id x =? folderId) (folders w))
         dk
         (log w ++ cascade_order folderId userId total unlinks)
         (faults w)) /\
    Forall (unlink_of (files_in folderId w)) unlinks /\
    (forall p, In p dk -> In p (disk w)) /\
    (forall f, In f (files_in folderId w) -> File.path f <> "" -> ~ In (File.path f) dk).
Proof.
  intros Hh Hfind total.
  assert (Folder._id d = folderId) as Hid.
  { apply find_some in Hfind; destruct Hfind as [_ Hq]; unfold q_folder_owned in Hq.
    apply andb_true_iff in Hq; destruct Hq as [Hq _]; apply Z.eqb_eq; exact Hq. }
  destruct (unlink_loop (files_in folderId w)
              (mkWorld (users w) (files w) (folders w) (disk w)
                 ((log w ++ [FolderFindOne folderId]) ++ [FileFind folderId])
                 (faults w)))
    as (dk & unlinks & Eloop & Hun & Hsub & Hgone); simpl in Eloop, Hsub.
  exists dk, unlinks; split; [|auto].
  unfold delete_folder. apply try_ok.
  step Folder_findOne_healthy.
  rewrite Hfind; cbv beta iota.
  step File_find_healthy.
  change (files_in folderId (set_log (log w ++ [FolderFindOne folderId]) w))
    with (files_in folderId w).
  erewrite bind_ok by (exact Eloop).
  rewrite total_size_sum, Hid. fold total.
  unfold cascade_order, ledger_events.
  destruct (0 <? total).
  - step User_inc_healthy.
    step File_deleteMany_healthy.
    step Folder_deleteOne_healthy.
    unfold ret; simpl. rewrite <- !app_assoc; reflexivity.
  - erewrite bind_ok by reflexivity.
    step File_deleteMany_healthy.
    step Folder_deleteOne_healthy.
    unfold ret; simpl. rewrite <- !app_assoc; reflexivity.
Qed.

Lemma filter_absent (p : string) (l : list string) :
  ~ In p l -> filter (fun x => negb (String.eqb p x)) l = l.
Proof.
  induction l as [|x r IH]; simpl; intros H; [reflexivity|].
  destruct (String.eqb_spec p x) as [E|_]; [exfalso; apply H; left; auto|].
  simpl; rewrite IH; [reflexivity|intros C; apply H; right; exact C].
Qed.

Lemma filter_filter_and {A} (p q : A -> bool) (l : list A) :
  filter p (filter q l) = filter (fun x => q x && p x) l.
Proof.
  induction l as [|x r IH]; simpl; [reflexivity|].
  destruct (q x); simpl; [destruct (p x); rewrite IH; reflexivity|exact IH].
Qed.

Lemma filter_all {A} (l : list A) : filter (fun _ => true) l = l.
Proof. induction l as [|x r IH]; simpl; [reflexivity|rewrite IH; reflexivity]. Qed.

Lemma on_disk_spec (p : string) (dk : list string) :
  existsb (String.eqb p) dk = true <-> In p dk.
Proof.
  rewrite existsb_exists; split.
  - intros (x & Hx & E); apply String.eqb_eq in E; subst; exact Hx.
  - intros H; exists p; split; [exact H|apply String.eqb_refl].
Qed.

(** One turn of the loop: the unlink is issued when the path is not empty
    and on disk, and the path is then off the disk. *)
Lemma unlink_if_exists_exact (p : string) (w : World) :
  unlink_if_exists p w =
  (inr tt,
   mkWorld (users w) (files w) (folders w)
     (filter (fun x => negb (truthy p && String.eqb p x)) (disk w))
     (log w ++ (if truthy p && existsb (String.eqb p) (disk w)
                then [FsUnlink p] else []))
     (faults w)).
Proof.
  unfold unlink_if_exists. destruct (truthy p); simpl.
  - unfold bind, fs_existsSync, get_world, ret; simpl.
    destruct (existsb (String.eqb p) (disk w)) eqn:Hex; simpl; [reflexivity|].
    rewrite app_nil_r, filter_absent; [destruct w; reflexivity|].
    intros HIn; apply on_disk_spec in HIn; congruence.
  - unfold ret; rewrite app_nil_r, filter_all; destruct w; reflexivity.
Qed.

(** The loop over the enumerated files, exactly: the unlinks it issues and
    the disk it leaves. *)
Lemma unlink_loop_exact (fs : list File.t) :
  forall w,
    for_of fs (fun file => unlink_if_exists (File.path file)) w =
    (inr tt, mkWorld (users w) (files w) (folders w)
               (filter (fun p => negb (blob_of fs p)) (disk w))
               (log w ++ unlinks_of fs (disk w)) (faults w)).
Proof.
  induction fs as [|f r IH]; intros w.
  - simpl. unfold ret. rewrite app_nil_r, filter_all. destruct w; reflexivity.
  - simpl for_of. unfold bind at 1. rewrite unlink_if_exists_exact, IH. simpl.
    f_equal. f_equal.
    + rewrite filter_filter_and. apply filter_ext; intros p.
      unfold blob_of; simpl. rewrite negb_orb; reflexivity.
    + rewrite <- app_assoc. f_equal.
      destruct (truthy (File.path f)) eqn:Ht; simpl.
      * destruct (existsb (String.eqb (File.path f)) (disk w)) eqn:Hex; [reflexivity|].
        simpl. rewrite filter_absent; [reflexivity|].
        intros HIn; apply on_disk_spec in HIn; congruence.
      * rewrite filter_all; reflexivity.
Qed.

(** What the loop unlinks: the blobs of the enumerated files that are on
    disk, each once. *)
Lemma unlinks_of_spec (fs : list File.t) :
  forall dk p, In (FsUnlink p) (unlinks_of fs dk) <-> In p dk /\ blob_of fs p = true.
Proof.
  induction fs as [|f r IH]; intros dk p; simpl.
  - split; [contradiction|intros [_ C]; discriminate].
  - unfold blob_of; simpl. fold (blob_of r p).
    destruct (truthy (File.path f)) eqn:Ht; simpl.
    + destruct (existsb (String.eqb (File.path f)) dk) eqn:Hex; simpl.
      * rewrite IH, filter_In, negb_true_iff. apply on_disk_spec in Hex.
        destruct (String.eqb_spec (File.path f) p) as [E|NE]; simpl.
        -- subst p. split; [intros _; split; [exact Hex|reflexivity]|left; reflexivity].
        -- split.
           ++ intros [C|[[H1 _] H2]]; [inversion C; contradiction|split; assumption].
           ++ intros [H1 H2]; right; repeat split; assumption.
      * rewrite IH. destruct (String.eqb_spec (File.path f) p) as [E|NE]; simpl; [|tauto].
        subst p. split; [tauto|]. intros [H1 _]. apply on_disk_spec in H1; congruence.
    + apply IH.
Qed.

Lemma delete_folder_run_exact (w : World) (userId folderId : ObjectId) (d : Folder.t) :
  healthy w ->
  find (q_folder_owned folderId userId) (folders w) = Some d ->
  delete_folder userId folderId w =
    (inr (Json 200 "Folder and all its contents deleted successfully"),
     mkWorld
       (if 0 <? sum_sizes (files_in folderId w)
        then update_first (fun u => User._id u =? userId)
               (fun u => User.with_storageUsed
                           (User.storageUsed u + - sum_sizes (files_in folderId w)) u)
               (users w)
        else users w)
       (filter (fun f => negb (q_in_folder folderId f)) (files w))
       (delete_first (fun x => Folder._id x =? folderId) (folders w))
       (filter (fun p => negb (blob_of (files_in folderId w) p)) (disk w))
       (log w ++ cascade_order folderId userId (sum_sizes (files_in folderId w))
                   (unlinks_of (files_in folderId w) (disk w)))
       (faults w)).
Proof.
  intros Hh Hfind.
  assert (Folder._id d = folderId) as Hid.
  { apply find_some in Hfind; destruct Hfind as [_ Hq]; unfold q_folder_owned in Hq.
    apply andb_true_iff in Hq; destruct Hq as [Hq _]; apply Z.eqb_eq; exact Hq. }
  pose proof (unlink_loop_exact (files_in folderId w)
                (mkWorld (users w) (files w) (folders w) (disk w)
                   ((log w ++ [FolderFindOne folderId]) ++ [FileFind folderId])
                   (faults w))) as Eloop; simpl in Eloop.
  unfold delete_folder. apply try_ok.
  step Folder_findOne_healthy.
  rewrite Hfind; cbv beta iota.
  step File_find_healthy.
  change (files_in folderId (set_log (log w ++ [FolderFindOne folderId]) w))
    with (files_in folderId w).
  erewrite bind_ok by (exact Eloop).
  rewrite total_size_sum, Hid.
  unfold cascade_order, ledger_events.
  destruct (0 <? sum_sizes (files_in folderId w)).
  - step User_inc_healthy. step File_deleteMany_healthy. step Folder_deleteOne_healthy.
    unfold ret; simpl. rewrite <- !app_assoc; reflexivity.
  - erewrite bind_ok by reflexivity.
    step File_deleteMany_healthy. step Folder_deleteOne_healthy.
    unfold ret; simpl. rewrite <- !app_assoc; reflexivity.
Qed.

Lemma skipn_length_app {A} (l r : list A) : skipn (List.length l) (l ++ r) = r.
Proof. induction l as [|x l IH]; simpl; auto. Qed.

Lemma find_owned_folder (w : World) (userId folderId : ObjectId) :
  owns_folder userId folderId w ->
  exists d, find (q_folder_owned folderId userId) (folders w) = Some d.
Proof.
  intros (d & HIn & Hid & Ho).
  destruct (find (q_folder_owned folderId userId) (folders w)) as [d'|] eqn:E;
    [exists d'; reflexivity|].
  exfalso. apply (find_none _ _ E) in HIn. unfold q_folder_owned in HIn.
  rewrite Hid, Ho, !Z.eqb_refl in HIn; discriminate.
Qed.

(** C3, as the route does it. Cascade deletion of a folder owned by the
    caller issues its calls in this order: lookup of the folder, enumeration
    of the files that directly reference it, one unlink for the blob of each
    enumerated file that is on disk, then - when the summed size is
    positive - one negative delta of that sum on the caller's ledger, then
    the batch delete of the File records, and last the delete of the Folder
    record. The unlinks are those of the blobs of the enumerated files that
    were on disk, and afterwards none of these blobs is on disk while every
    other blob is. *)
Theorem cascade_order_of_delete_folder (w : World) (userId folderId : ObjectId) :
  healthy w ->
  owns_folder userId folderId w ->
  issued w (delete_folder userId folderId) =
    cascade_order folderId userId (sum_sizes (files_in folderId w))
      (unlinks_of (files_in folderId w) (disk w)) /\
  (forall p, In (FsUnlink p) (unlinks_of (files_in folderId w) (disk w)) <->
             In p (disk w) /\ blob_of (files_in folderId w) p = true) /\
  (forall p, In p (disk (snd (delete_folder userId folderId w))) <->
             In p (disk w) /\ blob_of (files_in folderId w) p = false).
Proof.
  intros Hh Ho. destruct (find_owned_folder w userId folderId Ho) as [d Hd].
  rewrite (delete_folder_run_exact w userId folderId d Hh Hd).
  split; [|split].
  - unfold issued. rewrite (delete_folder_run_exact w userId folderId d Hh Hd); simpl.
    apply skipn_length_app.
  - apply unlinks_of_spec.
  - intros p; simpl. rewrite filter_In, negb_true_iff; tauto.
Qed.

(** ** The ledger *)

Lemma ledger_update_same (userId : ObjectId) (delta : Z) (us : list User.t) :
  find (fun u => User._id u =? userId)
       (update_first (fun u => User._id u =? userId)
          (fun u => User.with_storageUsed (User.storageUsed u + delta) u) us) =
  option_map (fun u => User.with_storageUsed (User.storageUsed u + delta) u)
             (find (fun u => User._id u =? userId) us).
Proof.
  induction us as [|u r IH]; simpl; [reflexivity|].
  destruct (User._id u =? userId) eqn:E; simpl; rewrite E; [reflexivity|exact IH].
Qed.

Lemma ledger_update_other (userId v : ObjectId) (delta : Z) (us : list User.t) :
  v <> userId ->
  find (fun u => User._id u =? v)
       (update_first (fun u => User._id u =? userId)
          (fun u => User.with_storageUsed (User.storageUsed u + delta) u) us) =
  find (fun u => User._id u =? v) us.
Proof.
  intros Hv; induction us as [|u r IH]; simpl; [reflexivity|].
  destruct (User._id u =? userId) eqn:E; simpl.
  - apply Z.eqb_eq in E. destruct (Z.eqb_spec (User._id u) v); [congruence|reflexivity].
  - rewrite IH; reflexivity.
Qed.

Lemma q_in_folder_spec (folderId : ObjectId) (f : File.t) :
  q_in_folder folderId f = true <-> File.folder f = Some folderId.
Proof.
  unfold q_in_folder; destruct (File.folder f) as [d|]; [|split; discriminate].
  rewrite Z.eqb_eq; split; [intros ->; reflexivity|intros E; inversion E; reflexivity].
Qed.

(** ** Creating a file *)

Lemma File_insert_healthy (f : File.t) (w : World) :
  healthy w -> File_validate f = None -> fresh_file_id (File._id f) w ->
  File_insert f w =
  (inr tt, mkWorld (users w) (files w ++ [f]) (folders w) (disk w)
             (log w ++ [FileInsert (File._id f)]) (faults w)).
Proof.
  intros Hh Hv Hfresh. unfold File_insert; rewrite Hv.
  step db_healthy.
  unfold bind, get_world; simpl.
  replace (existsb (has_id (File._id f)) (files w)) with false; [reflexivity|].
  symmetry; apply not_true_is_false; intros C; apply existsb_exists in C.
  destruct C as (g & Hg & Hid); apply Z.eqb_eq in Hid; exact (Hfresh g Hg Hid).
Qed.

Lemma upload_run (w : World) (user : User.t) (rf : Multer.file)
      (folderId : option ObjectId) (oid : ObjectId) :
  healthy w -> valid_upload rf -> fresh_file_id oid w ->
  upload user (Some rf) folderId oid w =
  (inr (Json 201 "File uploaded successfully"),
   mkWorld
     (update_first (fun u => User._id u =? User._id user)
        (fun u => User.with_storageUsed (User.storageUsed u + Multer.size rf) u)
        (users w))
     (files w ++
      [File.mk oid (trim (Multer.filename rf)) (trim (Multer.originalname rf))
         (Multer.mimetype rf) (Multer.size rf) (Multer.path rf) (User._id user)
         folderId false []])
     (folders w) (disk w)
     (log w ++ [FileInsert oid; UserInc (User._id user) (Multer.size rf)])
     (faults w)).
Proof.
  intros Hh (Hfn & Hon & Hmt & Hp) Hfresh.
  unfold upload. apply try_ok. unfold createFile, File_new, or_null; simpl.
  erewrite bind_ok.
  2:{ erewrite bind_ok; [reflexivity|].
      apply File_insert_healthy; [exact Hh| |exact Hfresh].
      unfold File_validate, truthy; simpl.
      apply String.eqb_neq in Hfn, Hon, Hmt, Hp. rewrite Hfn, Hon, Hmt, Hp; reflexivity. }
  step User_inc_healthy.
  unfold ret; simpl. rewrite <- app_assoc; reflexivity.
Qed.

(** C9. Cascade deletion of a folder removes every File record whose
    [folder] is the folder's id, whoever owns the file, and deducts the summed
    size of all those files - those of other users included - from the
    [storageUsed] of the caller, who owns the folder, and of nobody else; and
    the upload route puts the new file (with names of plain ASCII that are
    not blank) into whatever [folderId] it is given, without a look at the
    folders collection. *)
Theorem cascade_and_upload_ignore_file_owner :
  (forall (w : World) (userId folderId : ObjectId),
      healthy w ->
      owns_folder userId folderId w ->
      Forall (fun f => 0 <= File.size f) (files_in folderId w) ->
      let w' := snd (delete_folder userId folderId w) in
      (forall f, In f (files w') <->
                 In f (files w) /\ File.folder f <> Some folderId) /\
      ledger userId w' =
        option_map (fun used => used - sum_sizes (files_in folderId w))
                   (ledger userId w) /\
      (forall v, v <> userId -> ledger v w' = ledger v w)) /\
  (forall (w : World) (user : User.t) (rf : Multer.file)
          (folderId oid : ObjectId),
      healthy w -> valid_upload rf ->
      plain_ascii (Multer.filename rf) = true ->
      plain_ascii (Multer.originalname rf) = true ->
      fresh_file_id oid w ->
      fst (upload user (Some rf) (Some folderId) oid w) =
        inr (Json 201 "File uploaded successfully") /\
      files (snd (upload user (Some rf) (Some folderId) oid w)) =
        files w ++
        [File.mk oid (trim (Multer.filename rf)) (trim (Multer.originalname rf))
           (Multer.mimetype rf) (Multer.size rf) (Multer.path rf)
           (User._id user) (Some folderId) false []]).
Proof.
  split.
  - intros w userId folderId Hh Ho Hsz w'.
    destruct (find_owned_folder w userId folderId Ho) as [d Hd].
    destruct (delete_folder_run w userId folderId d Hh Hd) as (dk & unlinks & E & _).
    subst w'; rewrite E; simpl; clear E.
    assert (0 <= sum_sizes (files_in folderId w)) as Hnn.
    { induction (files_in folderId w) as [|f r IH]; simpl; [lia|].
      inversion Hsz; subst. specialize (IH H2). lia. }
    split; [|split].
    + intros f; rewrite filter_In, negb_true_iff.
      rewrite <- q_in_folder_spec.
      destruct (q_in_folder folderId f); intuition congruence.
    + unfold ledger; simpl.
      destruct (Z.ltb_spec 0 (sum_sizes (files_in folderId w))) as [Hpos|Hz].
      * rewrite ledger_update_same.
        destruct (find _ (users w)) as [u|]; simpl; [f_equal; lia|reflexivity].
      * destruct (find _ (users w)) as [u|]; simpl; [f_equal; lia|reflexivity].
    + intros v Hv; unfold ledger; simpl.
      destruct (0 <? sum_sizes (files_in folderId w)); [|reflexivity].
      rewrite ledger_update_other by exact Hv; reflexivity.
  - intros w user rf folderId oid Hh Hv _ _ Hf.
    rewrite (upload_run w user rf (Some folderId) oid Hh Hv Hf); simpl; auto.
Qed.

(** ** Sharing *)

(** With unique ids, an update of the first match of a query that pins the
    [_id] is an update of the one document of that id. *)
Lemma update_first_unique (q : File.t -> bool) (g g' : File.t -> File.t)
      (F : File.t) (l : list File.t) :
  NoDup (map File._id l) -> In F l -> q F = true ->
  (forall x, q x = true -> File._id x = File._id F) ->
  g F = g' F ->
  update_first q g l =
  map (fun x => if File._id x =? File._id F then g' x else x) l.
Proof.
  intros ND HIn HqF Hq Hg. induction l as [|x r IH]; simpl; [contradiction|].
  inversion ND as [|? ? Hnot ND']; subst.
  destruct HIn as [->|HIn].
  - rewrite HqF, Z.eqb_refl, Hg, (map_key_absent File.t File._id) by exact Hnot; reflexivity.
  - destruct (q x) eqn:Hx.
    + exfalso; apply Hnot. rewrite (Hq x Hx). apply in_map; exact HIn.
    + destruct (Z.eqb_spec (File._id x) (File._id F)) as [E|_].
      * exfalso; apply Hnot; rewrite E; apply in_map; exact HIn.
      * rewrite IH by assumption; reflexivity.
Qed.

Lemma map_if_id_ids (fid : ObjectId) (g : File.t -> File.t) (l : list File.t) :
  (forall x, File._id (g x) = File._id x) ->
  map File._id (map (fun x => if File._id x =? fid then g x else x) l) =
  map File._id l.
Proof.
  intros Hg; induction l as [|x r IH]; simpl; [reflexivity|].
  rewrite IH; destruct (File._id x =? fid); [rewrite Hg|]; reflexivity.
Qed.

Lemma in_map_if_id (F : File.t) (g : File.t -> File.t) (l : list File.t) :
  In F l ->
  In (g F) (map (fun x => if File._id x =? File._id F then g x else x) l).
Proof.
  intros HIn. apply in_map_iff. exists F; rewrite Z.eqb_refl; auto.
Qed.

(** After a grant the target has exactly one entry, with the permission just
    given, provided no user was named twice before. *)
Lemma grant_shares_of (target : ObjectId) (p : string) (l : list File.share) :
  NoDup (map File.user l) ->
  filter (fun sh => File.user sh =? target) (grant_shares target p l) =
  [File.mkShare target p].
Proof.
  unfold grant_shares. induction l as [|sh r IH]; simpl; intros ND.
  - rewrite Z.eqb_refl; reflexivity.
  - inversion ND as [|? ? Hnot ND']; subst.
    destruct (Z.eqb_spec (File.user sh) target) as [E|NE]; simpl.
    + rewrite E, Z.eqb_refl. f_equal.
      assert (forall s, In s r -> (File.user s =? target) = false) as Hr.
      { intros s Hs. apply Z.eqb_neq; intros C; apply Hnot.
        rewrite E, <- C. apply in_map; exact Hs. }
      clear -Hr. induction r as [|s r IH]; simpl; [reflexivity|].
      rewrite (Hr s (or_introl eq_refl)); apply IH; intros; apply Hr; right; assumption.
    + specialize (IH ND').
      destruct (existsb (fun share => File.user share =? target) r); simpl;
        apply Z.eqb_neq in NE; rewrite NE; exact IH.
Qed.

Lemma grant_shares_named (target : ObjectId) (p : string) (l : list File.share) :
  existsb (fun share => File.user share =? target) (grant_shares target p l) = true.
Proof.
  unfold grant_shares.
  destruct (existsb (fun share => File.user share =? target) l) eqn:E.
  - induction l as [|sh r IH]; simpl in *; [discriminate|].
    destruct (File.user sh =? target) eqn:Es; simpl; [rewrite Es; reflexivity|].
    rewrite Es; simpl; apply IH; exact E.
  - rewrite existsb_app; simpl. rewrite Z.eqb_refl, orb_true_r; reflexivity.
Qed.

Lemma grant_shares_users (target : ObjectId) (p : string) (l : list File.share) :
  NoDup (map File.user l) -> NoDup (map File.user (grant_shares target p l)).
Proof.
  unfold grant_shares; intros ND.
  destruct (existsb (fun share => File.user share =? target) l) eqn:E.
  - replace (map File.user (update_first _ _ l)) with (map File.user l); [exact ND|].
    clear; induction l as [|sh r IH]; simpl; [reflexivity|].
    destruct (File.user sh =? target); simpl; [reflexivity|rewrite IH; reflexivity].
  - rewrite map_app; simpl.
    apply NoDup_app; [exact ND|repeat constructor; simpl; tauto|].
    intros u Hu [<-|[]]. apply in_map_iff in Hu; destruct Hu as (s & Hs & HIn).
    assert (existsb (fun share => File.user share =? target) l = true) as C.
    { apply existsb_exists; exists s; split; [exact HIn|apply Z.eqb_eq; exact Hs]. }
    congruence.
Qed.

Lemma grant_shares_length (target : ObjectId) (p : string) (l : list File.share) :
  existsb (fun share => File.user share =? target) l = true ->
  List.length (grant_shares target p l) = List.length l.
Proof.
  unfold grant_shares; intros ->.
  induction l as [|sh r IH]; simpl; [reflexivity|].
  destruct (File.user sh =? target); simpl; [reflexivity|rewrite IH; reflexivity].
Qed.

Lemma grant_shares_enum (target : ObjectId) (p : string) (l : list File.share) :
  File.permission_enum p = true ->
  forallb (fun sh => File.permission_enum (File.permission sh)) l = true ->
  forallb (fun sh => File.permission_enum (File.permission sh))
          (grant_shares target p l) = true.
Proof.
  unfold grant_shares; intros Hp Hl.
  destruct (existsb (fun share => File.user share =? target) l).
  - induction l as [|sh r IH]; simpl in *; [reflexivity|].
    apply andb_true_iff in Hl; destruct Hl as [H1 H2].
    destruct (File.user sh =? target); simpl.
    + rewrite Hp, H2; reflexivity.
    + rewrite H1, IH by exact H2; reflexivity.
  - rewrite forallb_app, Hl; simpl; rewrite Hp; reflexivity.
Qed.

Lemma validate_shares (f : File.t) :
  File_validate f = None ->
  forallb (fun sh => File.permission_enum (File.permission sh)) (File.sharedWith f) = true.
Proof.
  unfold File_validate.
  destruct (negb (truthy (File.filename f))); [discriminate|].
  destruct (negb (truthy (File.originalName f))); [discriminate|].
  destruct (negb (truthy (File.mimetype f))); [discriminate|].
  destruct (negb (truthy (File.path f))); [discriminate|].
  destruct (forallb _ _); [reflexivity|discriminate].
Qed.

Lemma validate_with_shares (f : File.t) (l : list File.share) :
  File_validate f = None ->
  forallb (fun sh => File.permission_enum (File.permission sh)) l = true ->
  File_validate (File.with_sharedWith l f) = None.
Proof.
  unfold File_validate; simpl.
  destruct (negb (truthy (File.filename f))); [discriminate|].
  destruct (negb (truthy (File.originalName f))); [discriminate|].
  destruct (negb (truthy (File.mimetype f))); [discriminate|].
  destruct (negb (truthy (File.path f))); [discriminate|].
  intros _ ->; reflexivity.
Qed.

Lemma User_findOne_healthy (email : string) (w : World) :
  healthy w ->
  User_findOne email w =
  (inr (resolves email w), set_log (log w ++ [UserFindOne email]) w).
Proof.
  intros Hh; unfold User_findOne.
  rewrite (bind_ok _ _ _ _ _ (db_healthy _ _ Hh)). reflexivity.
Qed.

Lemma File_updateOne_permission_healthy (fileId target : ObjectId) (p : string) (w : World) :
  healthy w ->
  File_updateOne_permission fileId target p w =
  (inr tt,
   mkWorld (users w)
     (update_first (q_share_of fileId target) (set_permission target p) (files w))
     (folders w) (disk w) (log w ++ [FileUpdateOne fileId]) (faults w)).
Proof.
  intros Hh; unfold File_updateOne_permission.
  rewrite (bind_ok _ _ _ _ _ (db_healthy _ _ Hh)). reflexivity.
Qed.

Lemma File_save_healthy (f : File.t) (w : World) :
  healthy w -> File_validate f = None ->
  File_save f w =
  (inr tt,
   mkWorld (users w)
     (update_first (has_id (File._id f)) (fun _ => f) (files w))
     (folders w) (disk w) (log w ++ [FileSave (File._id f)]) (faults w)).
Proof.
  intros Hh Hv; unfold File_save; rewrite Hv.
  rewrite (bind_ok _ _ _ _ _ (db_healthy _ _ Hh)). reflexivity.
Qed.

(** One grant by the owner, on a healthy database: it goes through when the
    target is already named in [sharedWith] (the permission is then written
    unchecked), or when the stored document and the permission pass the
    validators that [save] runs. *)
Lemma share_file_run (w : World) (O : ObjectId) (F : File.t) (T : User.t)
      (E : string) (p : option string) :
  healthy w -> unique_ids w -> In F (files w) -> File.owner F = O ->
  E <> "" -> resolves E w = Some T -> User._id T <> O ->
  q_shared_with (User._id T) F = true \/
  (File_validate F = None /\ valid_permission p) ->
  exists evs,
    share_file O (File._id F) (Some E) p w =
    (inr (Json 200 (String.append "File shared with "
                      (String.append (User.email T) " successfully"))),
     mkWorld (users w)
       (map (fun x => if File._id x =? File._id F
                      then grant_file (User._id T) (or_default p "read") x
                      else x) (files w))
       (folders w) (disk w) (log w ++ evs) (faults w)).
Proof.
  intros Hh Hu HIn Ho HE HT HTO Hcase.
  assert (or_default (Some E) "" = E) as HEd.
  { unfold or_default, truthy. apply String.eqb_neq in HE; rewrite HE; reflexivity. }
  assert (find (q_owned (File._id F) O) (files w) = Some F) as Hfind.
  { unfold q_owned. rewrite (find_by_id (fun f => File.owner f =? O) F (files w) Hu HIn).
    rewrite Ho, Z.eqb_refl; reflexivity. }
  unfold share_file. rewrite HEd.
  assert (negb (truthy E) = false) as ->.
  { unfold truthy; apply String.eqb_neq in HE; rewrite HE; reflexivity. }
  destruct (existsb (fun share => File.user share =? User._id T) (File.sharedWith F)) eqn:Hsh.
  - exists [UserFindOne E; FileFindOne (File._id F); FileUpdateOne (File._id F)].
    apply try_ok.
    step User_findOne_healthy.
    rewrite HT; cbv beta iota.
    apply Z.eqb_neq in HTO; rewrite HTO.
    step File_findOne_healthy.
    cbn [files set_log]; rewrite Hfind; cbv beta iota zeta. rewrite Hsh.
    step File_updateOne_permission_healthy.
    unfold ret; simpl. rewrite <- !app_assoc; simpl.
    rewrite (update_first_unique (q_share_of (File._id F) (User._id T))
               (set_permission (User._id T) (or_default p "read"))
               (grant_file (User._id T) (or_default p "read")) F (files w) Hu HIn).
    + reflexivity.
    + unfold q_share_of, q_shared_with; rewrite Z.eqb_refl, Hsh; reflexivity.
    + intros x Hx; unfold q_share_of in Hx; apply andb_true_iff in Hx.
      apply Z.eqb_eq; tauto.
    + unfold set_permission, grant_file, grant_shares; rewrite Hsh; reflexivity.
  - destruct Hcase as [C|[Hv Hp]];
      [unfold q_shared_with in C; rewrite Hsh in C; discriminate|].
    exists [UserFindOne E; FileFindOne (File._id F); FileSave (File._id F)].
    apply try_ok.
    step User_findOne_healthy.
    rewrite HT; cbv beta iota.
    apply Z.eqb_neq in HTO; rewrite HTO.
    step File_findOne_healthy.
    cbn [files set_log]; rewrite Hfind; cbv beta iota zeta. rewrite Hsh.
    erewrite bind_ok.
    2:{ apply File_save_healthy; [exact Hh|].
        apply validate_with_shares; [exact Hv|].
        rewrite forallb_app, (validate_shares F Hv); simpl.
        unfold valid_permission in Hp; rewrite Hp; reflexivity. }
    unfold ret; simpl. rewrite <- !app_assoc; simpl.
    rewrite (update_first_unique (has_id (File._id F))
               (fun _ => File.with_sharedWith
                           (File.sharedWith F ++
                            [File.mkShare (User._id T) (or_default p "read")]) F)
               (grant_file (User._id T) (or_default p "read")) F (files w) Hu HIn).
    + reflexivity.
    + unfold has_id; apply Z.eqb_refl.
    + intros x Hx; apply Z.eqb_eq; exact Hx.
    + unfold grant_file, grant_shares; rewrite Hsh; reflexivity.
Qed.

Lemma stored_unique (F : File.t) (w : World) :
  unique_ids w -> In F (files w) -> stored (File._id F) w = Some F.
Proof.
  unfold unique_ids, stored, has_id. intros Hu HIn.
  pose proof (find_by_id (fun _ => true) F (files w) Hu HIn) as H; simpl in H.
  rewrite <- H. clear. induction (files w) as [|x r IH]; simpl; [reflexivity|].
  rewrite andb_true_r, IH; reflexivity.
Qed.

(** C4, as the route does it. For every stored file [F] owned by [O] in
    which no user is named twice, and every email [E] (of plain ASCII) that
    resolves to a user other than [O]: when that user is already named in
    [sharedWith], or else the stored document and [p1] pass the validators of
    the schema, two grants in a row, with permissions [p1] then [p2], both
    succeed and leave [sharedWith] with exactly one entry for that user, which
    carries the permission of the second call, whatever string it is; the
    second call overwrites the entry and appends nothing. *)
Theorem grant_twice_overwrites (w : World) (O : ObjectId) (F : File.t)
        (T : User.t) (E : string) (p1 p2 : option string) :
  healthy w -> unique_ids w ->
  In F (files w) -> File.owner F = O ->
  NoDup (map File.user (File.sharedWith F)) ->
  plain_ascii E = true -> E <> "" ->
  resolves E w = Some T -> User._id T <> O ->
  q_shared_with (User._id T) F = true \/
  (File_validate F = None /\ valid_permission p1) ->
  let w1 := snd (share_file O (File._id F) (Some E) p1 w) in
  let w2 := snd (share_file O (File._id F) (Some E) p2 w1) in
  status_of_run (share_file O (File._id F) (Some E) p1 w) = Some 200 /\
  status_of_run (share_file O (File._id F) (Some E) p2 w1) = Some 200 /\
  exists F1 F2,
    stored (File._id F) w1 = Some F1 /\
    stored (File._id F) w2 = Some F2 /\
    shares_of (User._id T) F2 =
      [File.mkShare (User._id T) (or_default p2 "read")] /\
    List.length (File.sharedWith F2) = List.length (File.sharedWith F1).
Proof.
  intros Hh Hu HIn Ho Hnd _ HE HT HTO Hcase w1 w2.
  destruct (share_file_run w O F T E p1 Hh Hu HIn Ho HE HT HTO Hcase) as [ev1 E1].
  set (F1 := grant_file (User._id T) (or_default p1 "read") F).
  assert (File._id F1 = File._id F) as Hid1 by reflexivity.
  assert (healthy w1 /\ unique_ids w1 /\ In F1 (files w1) /\ resolves E w1 = Some T) as (Hh1 & Hu1 & HIn1 & HT1).
  { subst w1; rewrite E1; simpl. repeat split.
    - exact Hh.
    - unfold unique_ids; simpl. rewrite map_if_id_ids; [exact Hu|reflexivity].
    - apply (in_map_if_id F (grant_file (User._id T) (or_default p1 "read"))); exact HIn.
    - exact HT. }
  assert (q_shared_with (User._id T) F1 = true) as Hnamed
    by (unfold q_shared_with, F1, grant_file; simpl; apply grant_shares_named).
  assert (File.owner F1 = O) as Ho1 by exact Ho.
  destruct (share_file_run w1 O F1 T E p2 Hh1 Hu1 HIn1 Ho1 HE HT1 HTO (or_introl Hnamed))
    as [ev2 E2].
  rewrite Hid1 in E2.
  set (F2 := grant_file (User._id T) (or_default p2 "read") F1).
  assert (unique_ids w2 /\ In F2 (files w2)) as (Hu2 & HIn2).
  { subst w2; rewrite E2; simpl. split.
    - unfold unique_ids; simpl. rewrite map_if_id_ids; [exact Hu1|reflexivity].
    - rewrite <- Hid1.
      apply (in_map_if_id F1 (grant_file (User._id T) (or_default p2 "read"))); exact HIn1. }
  split; [unfold status_of_run; rewrite E1; reflexivity|].
  split; [unfold status_of_run; fold w1; rewrite E2; reflexivity|].
  exists F1, F2. split; [|split; [|split]].
  - rewrite <- Hid1; apply stored_unique; assumption.
  - change (File._id F) with (File._id F2); apply stored_unique; assumption.
  - unfold shares_of, F2, grant_file; simpl.
    apply grant_shares_of, grant_shares_users; exact Hnd.
  - unfold F2, grant_file; simpl.
    apply grant_shares_length; unfold F1, grant_file; simpl; apply grant_shares_named.
Qed.

(** ** The size of a new file *)

(** C7, as the schema does it. [createFile] fails with a ValidationError
    whenever the supplied size is missing or is [NaN], and then nothing is
    sent and no File record is created; an integer size, of either sign,
    passes, and the record (with names of plain ASCII that are not blank) is
    stored with it. *)
Theorem createFile_size_validation :
  (forall (r : File.raw) (w : World),
      File.raw_size r = None \/ File.raw_size r = Some NaN ->
      (exists msg, fst (createFile r w) = inl (ValidationError msg)) /\
      snd (createFile r w) = w) /\
  (forall (r : File.raw) (w : World) (z : Z),
      File.raw_size r = Some (Num z) ->
      healthy w -> fresh_file_id (File.raw_id r) w ->
      plain_ascii (File.raw_filename r) = true ->
      plain_ascii (File.raw_originalName r) = true ->
      trim (File.raw_filename r) <> "" -> trim (File.raw_originalName r) <> "" ->
      File.raw_mimetype r <> "" -> File.raw_path r <> "" ->
      exists f, fst (createFile r w) = inr f /\ File.size f = z /\
                files (snd (createFile r w)) = files w ++ [f]).
Proof.
  split.
  - intros r w [H|H]; unfold createFile, File_new; rewrite H; simpl;
      split; [eexists; reflexivity|reflexivity| eexists; reflexivity|reflexivity].
  - intros r w z Hz Hh Hfresh _ _ Hfn Hon Hmt Hp.
    unfold createFile, File_new; rewrite Hz.
    erewrite bind_ok.
    2:{ apply File_insert_healthy; [exact Hh| |exact Hfresh].
        unfold File_validate, truthy; simpl.
        apply String.eqb_neq in Hfn, Hon, Hmt, Hp. rewrite Hfn, Hon, Hmt, Hp; reflexivity. }
    eexists; split; [reflexivity|split; reflexivity].
Qed.

(** ** What a permission confers *)


Lemma Forall2_same {A} (R : A -> A -> Prop) (l : list A) :
  (forall x, R x x) -> Forall2 R l l.
Proof. intros H; induction l; constructor; auto. Qed.

Lemma share_alike_refl (s : File.share) : share_alike s s.
Proof. split; [reflexivity|left; reflexivity]. Qed.

Lemma file_alike_refl (f : File.t) : file_alike f f.
Proof.
  unfold file_alike; repeat split. apply Forall2_same, share_alike_refl.
Qed.

Lemma world_alike_refl (w : World) : world_alike w w.
Proof.
  unfold world_alike; repeat split. apply Forall2_same, file_alike_refl.
Qed.

Section Pairwise.
Variable A : Type.
Variable R : A -> A -> Prop.
Variable p : A -> bool.
Variable q : A -> bool.
Hypothesis pq : forall x y, R x y -> p x = q y.






End Pairwise.




















































Lemma same_store_log (w : World) (l : list Event) (fl : list (option string)) :
  same_store w (mkWorld (users w) (files w) (folders w) (disk w) l fl).
Proof. repeat split. Qed.


Lemma find_owned_by_owner (w : World) (F : File.t) :
  unique_ids w -> In F (files w) ->
  find (q_owned (File._id F) (File.owner F)) (files w) = Some F.
Proof.
  intros Hu HIn. unfold q_owned.
  rewrite (find_by_id (fun f => File.owner f =? File.owner F) F (files w) Hu HIn).
  rewrite Z.eqb_refl; reflexivity.
Qed.





(** ** Where the ledger does agree with the catalog *)

Lemma sum_sizes_app (l r : list File.t) :
  sum_sizes (l ++ r) = sum_sizes l + sum_sizes r.
Proof. induction l as [|x l IH]; simpl; [reflexivity|rewrite IH; lia]. Qed.

Lemma files_of_app (v : ObjectId) (l r : list File.t) :
  files_of v (l ++ r) = files_of v l ++ files_of v r.
Proof. apply filter_app. Qed.

(** What the files of a user weigh once the documents that satisfy [p] are
    gone. *)
Lemma sum_sizes_without (v : ObjectId) (p : File.t -> bool) (l : list File.t) :
  sum_sizes (files_of v (filter (fun f => negb (p f)) l)) =
  sum_sizes (files_of v l) - sum_sizes (files_of v (filter p l)).
Proof.
  unfold files_of; induction l as [|x r IH]; simpl; [reflexivity|].
  destruct (p x); simpl; destruct (File.owner x =? v); simpl; lia.
Qed.

Lemma files_of_all (v : ObjectId) (l : list File.t) :
  (forall f, In f l -> File.owner f = v) -> files_of v l = l.
Proof.
  unfold files_of; induction l as [|x r IH]; simpl; intros H; [reflexivity|].
  rewrite (H x (or_introl eq_refl)), Z.eqb_refl, IH; [reflexivity|].
  intros; apply H; right; assumption.
Qed.

Lemma files_of_none (v u : ObjectId) (l : list File.t) :
  v <> u -> (forall f, In f l -> File.owner f = u) -> files_of v l = [].
Proof.
  unfold files_of; induction l as [|x r IH]; simpl; intros Hv H; [reflexivity|].
  rewrite (H x (or_introl eq_refl)).
  destruct (Z.eqb_spec u v) as [E|_]; [congruence|].
  apply IH; [exact Hv|intros; apply H; right; assumption].
Qed.

Lemma sum_sizes_nonneg (l : list File.t) :
  Forall (fun f => 0 <= File.size f) l -> 0 <= sum_sizes l.
Proof.
  induction 1 as [|x r Hx _ IH]; simpl; lia.
Qed.

(** The one document of an id, among the files of a user. *)
Lemma files_of_with_id (v : ObjectId) (F : File.t) (l : list File.t) :
  NoDup (map File._id l) -> In F l ->
  sum_sizes (files_of v (filter (has_id (File._id F)) l)) =
  if File.owner F =? v then File.size F else 0.
Proof.
  unfold files_of, has_id.
  induction l as [|x r IH]; simpl; intros ND HIn; [contradiction|].
  inversion ND as [|? ? Hnot ND']; subst.
  destruct HIn as [->|HIn].
  - rewrite Z.eqb_refl; simpl.
    assert (filter (fun f => File._id f =? File._id F) r = []) as ->.
    { clear -Hnot. induction r as [|y r IH]; simpl; [reflexivity|].
      destruct (Z.eqb_spec (File._id y) (File._id F)) as [E|_].
      - exfalso; apply Hnot; left; exact E.
      - apply IH; intros C; apply Hnot; right; exact C. }
    destruct (File.owner F =? v); simpl; lia.
  - destruct (Z.eqb_spec (File._id x) (File._id F)) as [E|_].
    + exfalso; apply Hnot; rewrite E; apply in_map; exact HIn.
    + apply IH; assumption.
Qed.

(** An unlink touches the disk and the log, nothing else. *)
Lemma unlink_if_exists_frame (p : string) (w : World) :
  exists dk evs,
    unlink_if_exists p w =
    (inr tt, mkWorld (users w) (files w) (folders w) dk (log w ++ evs) (faults w)).
Proof.
  unfold unlink_if_exists. destruct (truthy p).
  - unfold bind, fs_existsSync, get_world, ret; simpl.
    destruct (existsb (String.eqb p) (disk w)); simpl.
    + eexists _, [FsUnlink p]; reflexivity.
    + exists (disk w), []; rewrite app_nil_r; destruct w; reflexivity.
  - exists (disk w), []; unfold ret; rewrite app_nil_r; destruct w; reflexivity.
Qed.

(** [accounted] reads the users, the files and the oracle only. *)
Lemma accounted_frame (w w' : World) :
  users w' = users w -> files w' = files w -> faults w' = faults w ->
  accounted w -> accounted w'.
Proof.
  unfold accounted, healthy, users_unique, unique_ids, sizes_nonneg, ledger_consistent.
  intros -> -> ->; tauto.
Qed.

Lemma upload_keeps_accounts (w : World) (user : User.t) (rf : Multer.file)
      (folderId : option ObjectId) (oid : ObjectId) :
  accounted w -> valid_upload rf -> 0 <= Multer.size rf -> fresh_file_id oid w ->
  accounted (snd (upload user (Some rf) folderId oid w)).
Proof.
  intros (Hh & Hus & Hfs & Hsz & Hled) Hv Hnn Hfresh.
  rewrite (upload_run w user rf folderId oid Hh Hv Hfresh); simpl.
  unfold accounted, healthy, users_unique, unique_ids, sizes_nonneg, ledger_consistent;
    simpl.
  rewrite (update_first_keyed User.t User._id) by exact Hus.
  split; [exact Hh|]. split; [|split; [|split]].
  - rewrite map_map.
    replace (map _ (users w)) with (map User._id (users w)); [exact Hus|].
    apply map_ext; intros u; destruct (User._id u =? User._id user); reflexivity.
  - rewrite map_app; simpl. apply NoDup_app; [exact Hfs|repeat constructor; simpl; tauto|].
    intros k Hk [<-|[]]. apply in_map_iff in Hk; destruct Hk as (f & Hf & HIn).
    exact (Hfresh f HIn Hf).
  - apply Forall_app; split; [exact Hsz|repeat constructor; exact Hnn].
  - intros u' Hu'. apply in_map_iff in Hu'; destruct Hu' as (u & <- & Hu).
    specialize (Hled u Hu). rewrite files_of_app, sum_sizes_app.
    destruct (Z.eqb_spec (User._id u) (User._id user)) as [E|NE]; simpl.
    + rewrite <- E, Z.eqb_refl; simpl. lia.
    + destruct (Z.eqb_spec (User._id user) (User._id u)) as [E|_]; [congruence|].
      simpl; lia.
Qed.

Lemma delete_file_keeps_accounts (w : World) (userId fileId : ObjectId) :
  accounted w -> accounted (snd (delete_file userId fileId w)).
Proof.
  intros Hacc. pose proof Hacc as (Hh & Hus & Hfs & Hsz & Hled).
  unfold delete_file.
  destruct (find (q_owned fileId userId) (files w)) as [F|] eqn:Hfind.
  - pose proof (find_some _ _ Hfind) as [HIn Hq].
    unfold q_owned in Hq; apply andb_true_iff in Hq; destruct Hq as [Hid Ho].
    apply Z.eqb_eq in Hid, Ho.
    destruct (unlink_if_exists_frame (File.path F)
                (set_log (log w ++ [FileFindOne fileId]) w)) as (dk & evs & Eun).
    erewrite try_ok.
    2:{ step File_findOne_healthy.
        rewrite Hfind; cbv beta iota.
        erewrite bind_ok by exact Eun.
        step User_inc_healthy.
        step File_deleteOne_healthy.
        reflexivity. }
    simpl. unfold accounted, healthy, users_unique, unique_ids, sizes_nonneg,
      ledger_consistent; simpl.
    unfold has_id. rewrite (update_first_keyed User.t User._id) by exact Hus.
    rewrite (delete_first_keyed File.t File._id) by exact Hfs.
    split; [exact Hh|]. split; [|split; [|split]].
    + rewrite map_map.
      replace (map _ (users w)) with (map User._id (users w)); [exact Hus|].
      apply map_ext; intros u; destruct (User._id u =? userId); reflexivity.
    + apply NoDup_map_filter; exact Hfs.
    + apply Forall_forall; intros f Hf; apply filter_In in Hf.
      exact (proj1 (Forall_forall _ _) Hsz f (proj1 Hf)).
    + intros u' Hu'. apply in_map_iff in Hu'; destruct Hu' as (u & <- & Hu).
      specialize (Hled u Hu).
      pose proof (sum_sizes_without (User._id u) (has_id (File._id F)) (files w)) as Hw.
      rewrite (files_of_with_id (User._id u) F (files w) Hfs HIn) in Hw.
      unfold has_id in Hw. rewrite Ho in Hw.
      destruct (Z.eqb_spec (User._id u) userId) as [E|NE]; simpl; rewrite Hw.
      * rewrite <- E, Z.eqb_refl. lia.
      * destruct (Z.eqb_spec userId (User._id u)) as [E|_]; [congruence|]. lia.
  - erewrite try_ok.
    2:{ step File_findOne_healthy.
        rewrite Hfind; reflexivity. }
    simpl. apply (accounted_frame w); auto.
Qed.

Lemma delete_folder_keeps_accounts (w : World) (userId folderId : ObjectId) :
  accounted w ->
  (forall f, In f (files_in folderId w) -> File.owner f = userId) ->
  accounted (snd (delete_folder userId folderId w)).
Proof.
  intros Hacc Hown. pose proof Hacc as (Hh & Hus & Hfs & Hsz & Hled).
  destruct (find (q_folder_owned folderId userId) (folders w)) as [d|] eqn:Hfind.
  - destruct (delete_folder_run w userId folderId d Hh Hfind) as (dk & unlinks & E & _).
    rewrite E; simpl; clear E.
    assert (0 <= sum_sizes (files_in folderId w)) as Hnn.
    { apply sum_sizes_nonneg, Forall_forall; intros f Hf.
      apply filter_In in Hf. exact (proj1 (Forall_forall _ _) Hsz f (proj1 Hf)). }
    unfold accounted, healthy, users_unique, unique_ids, sizes_nonneg,
      ledger_consistent; simpl.
    split; [exact Hh|]. split; [|split; [|split]].
    + destruct (0 <? sum_sizes (files_in folderId w)); [|exact Hus].
      rewrite (update_first_keyed User.t User._id) by exact Hus.
      rewrite map_map.
      replace (map _ (users w)) with (map User._id (users w)); [exact Hus|].
      apply map_ext; intros u; destruct (User._id u =? userId); reflexivity.
    + apply NoDup_map_filter; exact Hfs.
    + apply Forall_forall; intros f Hf; apply filter_In in Hf.
      exact (proj1 (Forall_forall _ _) Hsz f (proj1 Hf)).
    + assert (forall u, In u (users w) ->
                User.storageUsed u -
                (if User._id u =? userId then sum_sizes (files_in folderId w) else 0) =
                sum_sizes (files_of (User._id u)
                             (filter (fun f => negb (q_in_folder folderId f)) (files w))))
        as Hafter.
      { intros u Hu. rewrite sum_sizes_without, (Hled u Hu).
        fold (files_in folderId w).
        destruct (Z.eqb_spec (User._id u) userId) as [Eu|NEu].
        - rewrite Eu, (files_of_all userId _ Hown); reflexivity.
        - rewrite (files_of_none (User._id u) userId _ NEu Hown); reflexivity. }
      destruct (Z.ltb_spec 0 (sum_sizes (files_in folderId w))) as [Hpos|Hz].
      * rewrite (update_first_keyed User.t User._id) by exact Hus.
        intros u' Hu'. apply in_map_iff in Hu'; destruct Hu' as (u & <- & Hu).
        specialize (Hafter u Hu).
        destruct (User._id u =? userId); simpl; rewrite <- Hafter; lia.
      * intros u Hu. rewrite <- (Hafter u Hu).
        destruct (User._id u =? userId); lia.
  - unfold delete_folder. erewrite try_ok.
    2:{ step Folder_findOne_healthy.
        rewrite Hfind; reflexivity. }
    simpl. apply (accounted_frame w); auto.
Qed.

Lemma serve_keeps_accounts (r : request) (w : World) :
  accounted w -> well_placed r w -> accounted (snd (serve r w)).
Proof.
  destruct r as [user rf folderId oid|userId fileId|userId folderId]; simpl.
  - intros Hacc (Hv & Hnn & Hfresh); apply upload_keeps_accounts; assumption.
  - intros Hacc _; apply delete_file_keeps_accounts; assumption.
  - intros Hacc Hown; apply delete_folder_keeps_accounts; assumption.
Qed.

(** The ledger does agree with the catalog after any sequence of uploads,
    file deletes and folder deletes served one after the other, as long as no
    folder that is deleted holds a file of another user. *)
Lemma ledger_consistent_when_folders_hold_own_files (rs : list request) :
  forall w, accounted w -> all_well_placed rs w ->
            ledger_consistent (serve_all rs w).
Proof.
  induction rs as [|r rest IH]; simpl; intros w Hacc Hwp.
  - destruct Hacc as (_ & _ & _ & _ & Hled); exact Hled.
  - destruct Hwp as [Hr Hrest]. apply IH; [|exact Hrest].
    apply serve_keeps_accounts; assumption.
Qed.

(** ** The ledger against the catalog *)

(** C1, at a failing run. Two users with nothing stored and consistent
    ledgers. Alice creates a folder, Bob uploads 100 bytes into it, Alice
    deletes the folder: the cascade removes Bob's file and takes its size from
    Alice's ledger. Bob is left with 100 bytes used and no live file, Alice
    with -100: [storageUsed] is not the summed size of the live files. *)
Theorem ledger_diverges_after_cross_owner_cascade :
  ledger_consistent Demo.empty /\
  files Demo.after_cascade = [] /\
  ledger 2 Demo.after_cascade = Some 100 /\
  ledger 1 Demo.after_cascade = Some (-100) /\
  ~ ledger_consistent Demo.after_cascade.
Proof.
  split; [|split; [|split; [|split]]]; try (vm_compute; reflexivity).
  - intros u [<-|[<-|[]]]; reflexivity.
  - intros H.
    assert (In (User.mk 2 "Bob" "bob@example.com" 100 1000) (users Demo.after_cascade)) as HIn
      by (vm_compute; right; left; reflexivity).
    apply H in HIn. vm_compute in HIn. discriminate.
Qed.

(** ** The properties at work on the small installation *)

Lemma demo_shared_unique : unique_ids Demo.shared.
Proof. unfold unique_ids; simpl. repeat constructor; simpl; tauto. Qed.

Lemma demo_unshared_unique : unique_ids Demo.unshared.
Proof. unfold unique_ids; simpl. repeat constructor; simpl; tauto. Qed.

Lemma demo_shared_folder : owns_folder 1 10 Demo.shared.
Proof. exists (Folder.mk 10 "X" 1 None); simpl; auto. Qed.

(** Alice deletes her folder 10, which holds her 600-byte report: the ledger
    call comes before the two deletes, so the calls are in no order that
    ends with the ledger. *)
Lemma cascade_ledger_is_not_last :
  issued Demo.shared (delete_folder 1 10) =
    [FolderFindOne 10; FileFind 10; FsUnlink "uploads/1/1700000000001-7.pdf";
     UserInc 1 (-600); FileDeleteMany 10; FolderDeleteOne 10] /\
  ~ (exists total unlinks,
        issued Demo.shared (delete_folder 1 10) =
        cascade_order_ledger_last 10 1 total unlinks).
Proof.
  assert (issued Demo.shared (delete_folder 1 10) =
    [FolderFindOne 10; FileFind 10; FsUnlink "uploads/1/1700000000001-7.pdf";
     UserInc 1 (-600); FileDeleteMany 10; FolderDeleteOne 10]) as E
    by (vm_compute; reflexivity).
  split; [exact E|]. rewrite E. intros (total & unlinks & C).
  apply (f_equal (@rev Event)) in C. unfold cascade_order_ledger_last in C.
  rewrite !rev_app_distr in C. simpl in C. discriminate.
Qed.

Lemma reserve_witness :
  safe_integer (User.storageLimit Demo.alice_after_600) /\
  (fileFilter Demo.alice_after_600 (Num 400) = Reject "Storage limit exceeded" <->
   User.storageUsed Demo.alice_after_600 + 400 > User.storageLimit Demo.alice_after_600) /\
  (fileFilter Demo.alice_after_600 (Num 400) = Accept <->
   User.storageUsed Demo.alice_after_600 + 400 <= User.storageLimit Demo.alice_after_600) /\
  (User.storageUsed Demo.alice_after_600 + 400 = User.storageLimit Demo.alice_after_600 ->
   fileFilter Demo.alice_after_600 (Num 400) = Accept).
Proof.
  split; [unfold safe_integer; simpl; lia|].
  apply (reserve_denies_exactly_above_limit Demo.alice_after_600 400).
  unfold safe_integer; simpl; lia.
Defined.

Lemma cascade_order_witness :
  healthy Demo.shared /\ owns_folder 1 10 Demo.shared /\
  issued Demo.shared (delete_folder 1 10) =
    cascade_order 10 1 (sum_sizes (files_in 10 Demo.shared))
      (unlinks_of (files_in 10 Demo.shared) (disk Demo.shared)) /\
  (forall p, In (FsUnlink p) (unlinks_of (files_in 10 Demo.shared) (disk Demo.shared)) <->
             In p (disk Demo.shared) /\ blob_of (files_in 10 Demo.shared) p = true) /\
  (forall p, In p (disk (snd (delete_folder 1 10 Demo.shared))) <->
             In p (disk Demo.shared) /\ blob_of (files_in 10 Demo.shared) p = false).
Proof.
  split; [reflexivity|]. split; [exact demo_shared_folder|].
  apply (cascade_order_of_delete_folder Demo.shared 1 10);
    [reflexivity|exact demo_shared_folder].
Defined.

(** The blob of the report is unlinked by the cascade, and is then off the
    disk. *)
Example cascade_unlinks_the_report :
  unlinks_of (files_in 10 Demo.shared) (disk Demo.shared) =
    [FsUnlink "uploads/1/1700000000001-7.pdf"] /\
  disk (snd (delete_folder 1 10 Demo.shared)) = [].
Proof. split; vm_compute; reflexivity. Qed.

Lemma grant_twice_witness :
  resolves "Bob@Example.com " Demo.unshared = Some Demo.bob /\
  let w1 := snd (share_file 1 30 (Some "Bob@Example.com ") (Some "read") Demo.unshared) in
  let w2 := snd (share_file 1 30 (Some "Bob@Example.com ") (Some "edit") w1) in
  status_of_run (share_file 1 30 (Some "Bob@Example.com ") (Some "read") Demo.unshared) = Some 200 /\
  status_of_run (share_file 1 30 (Some "Bob@Example.com ") (Some "edit") w1) = Some 200 /\
  exists F1 F2,
    stored 30 w1 = Some F1 /\
    stored 30 w2 = Some F2 /\
    shares_of 2 F2 = [File.mkShare 2 "edit"] /\
    List.length (File.sharedWith F2) = List.length (File.sharedWith F1).
Proof.
  split; [reflexivity|].
  apply (grant_twice_overwrites Demo.unshared 1 Demo.draft Demo.bob
           "Bob@Example.com " (Some "read") (Some "edit")).
  - reflexivity.
  - exact demo_unshared_unique.
  - left; reflexivity.
  - reflexivity.
  - constructor.
  - reflexivity.
  - discriminate.
  - reflexivity.
  - discriminate.
  - right; split; reflexivity.
Defined.

(** Two grants that leave no entry. On Alice's draft, which names nobody,
    two grants to Bob with a permission that is no word of the enum are both
    refused by the validators of [save]. And once a repeated grant has
    written [admin] over Bob's permission, the stored document no longer
    passes these validators: the two grants to Carol, whose email resolves and
    who is not the owner, are both answered 500 and leave no entry for her. *)
Lemma grant_twice_can_leave_no_entry :
  (In Demo.draft (files Demo.unshared) /\ File.owner Demo.draft = 1 /\
   resolves "bob@example.com" Demo.unshared = Some Demo.bob /\
   User._id Demo.bob <> 1 /\
   status_of_run (share_file 1 30 (Some "bob@example.com") (Some "admin")
                    Demo.unshared) = Some 500 /\
   status_of_run (share_file 1 30 (Some "bob@example.com") (Some "admin")
                    (snd (share_file 1 30 (Some "bob@example.com") (Some "admin")
                            Demo.unshared))) = Some 500 /\
   option_map (shares_of 2)
     (stored 30
        (snd (share_file 1 30 (Some "bob@example.com") (Some "admin")
                (snd (share_file 1 30 (Some "bob@example.com") (Some "admin")
                        Demo.unshared))))) = Some []) /\
  (In Demo.tainted (files Demo.after_regrant) /\
   File.owner Demo.tainted = 1 /\
   resolves "carol@example.com" Demo.after_regrant = Some Demo.carol /\
   User._id Demo.carol <> 1 /\
   status_of_run (share_file 1 30 (Some "carol@example.com") (Some "read")
                    Demo.after_regrant) = Some 500 /\
   status_of_run (share_file 1 30 (Some "carol@example.com") (Some "edit")
                    (snd (share_file 1 30 (Some "carol@example.com") (Some "read")
                            Demo.after_regrant))) = Some 500 /\
   option_map (shares_of 3)
     (stored 30
        (snd (share_file 1 30 (Some "carol@example.com") (Some "edit")
                (snd (share_file 1 30 (Some "carol@example.com") (Some "read")
                        Demo.after_regrant))))) = Some []).
Proof.
  split.
  - split; [left; reflexivity|]. split; [reflexivity|]. split; [reflexivity|].
    split; [discriminate|]. repeat split; vm_compute; reflexivity.
  - split; [vm_compute; left; reflexivity|].
    split; [reflexivity|]. split; [reflexivity|]. split; [discriminate|].
    repeat split; vm_compute; reflexivity.
Qed.

Lemma download_witness :
  canRead 2 Demo.report /\
  (fst (download 2 30 Demo.shared) =
     inr (Download "uploads/1/1700000000001-7.pdf" "report.pdf") <->
   canRead 2 Demo.report) /\
  (fst (download 2 30 Demo.shared) =
     inr (Json 404 "File not found or access denied") <->
   ~ canRead 2 Demo.report).
Proof.
  split.
  - right; right; exists "edit"; left; reflexivity.
  - apply (download_grants_read_iff Demo.shared 2 Demo.report);
      [reflexivity|exact demo_shared_unique|left; reflexivity].
Defined.




(** A size of -5 is no non-negative integer, and the record is created. *)
Lemma negative_size_is_stored :
  ~ nonneg_integer (File.raw_size Demo.negative) /\
  exists f, fst (createFile Demo.negative Demo.empty) = inr f /\
            File.size f = -5 /\
            files (snd (createFile Demo.negative Demo.empty)) = [f].
Proof.
  split.
  - intros (z & E & Hz); simpl in E; inversion E; subst; lia.
  - eexists; split; [vm_compute; reflexivity|split; reflexivity].
Qed.

Lemma createFile_size_witness :
  ((exists msg, fst (createFile Demo.sizeless Demo.empty) = inl (ValidationError msg)) /\
   snd (createFile Demo.sizeless Demo.empty) = Demo.empty) /\
  (exists f, fst (createFile Demo.negative Demo.empty) = inr f /\
             File.size f = -5 /\
             files (snd (createFile Demo.negative Demo.empty)) = files Demo.empty ++ [f]).
Proof.
  split.
  - apply (proj1 createFile_size_validation Demo.sizeless Demo.empty).
    left; reflexivity.
  - apply (proj2 createFile_size_validation Demo.negative Demo.empty (-5));
      try reflexivity; try discriminate.
    intros f [].
Defined.

Lemma delete_file_witness :
  q_shared_with 2 Demo.report = true /\
  fst (delete_file 2 30 Demo.shared) =
    inr (Json 404 "File not found or access denied") /\
  same_store Demo.shared (snd (delete_file 2 30 Demo.shared)).
Proof.
  split; [reflexivity|].
  apply (delete_file_requires_ownership Demo.shared 2 30); [reflexivity|].
  intros f [<-|[]] _; discriminate.
Defined.

Lemma cascade_and_upload_witness :
  (let w' := snd (delete_folder 1 10 Demo.after_upload) in
   (forall f, In f (files w') <->
              In f (files Demo.after_upload) /\ File.folder f <> Some 10) /\
   ledger 1 w' =
     option_map (fun used => used - sum_sizes (files_in 10 Demo.after_upload))
                (ledger 1 Demo.after_upload) /\
   (forall v, v <> 1 -> ledger v w' = ledger v Demo.after_upload)) /\
  (fst (upload Demo.bob (Some Demo.notes) (Some 999) 20 Demo.empty) =
     inr (Json 201 "File uploaded successfully") /\
   files (snd (upload Demo.bob (Some Demo.notes) (Some 999) 20 Demo.empty)) =
     files Demo.empty ++
     [File.mk 20 (trim (Multer.filename Demo.notes))
        (trim (Multer.originalname Demo.notes)) (Multer.mimetype Demo.notes)
        (Multer.size Demo.notes) (Multer.path Demo.notes)
        (User._id Demo.bob) (Some 999) false []]).
Proof.
  split.
  - apply (proj1 cascade_and_upload_ignore_file_owner Demo.after_upload 1 10).
    + reflexivity.
    + exists (Folder.mk 10 "X" 1 None); simpl; auto.
    + repeat constructor; simpl; lia.
  - apply (proj2 cascade_and_upload_ignore_file_owner Demo.empty Demo.bob
             Demo.notes 999 20).
    + reflexivity.
    + repeat split; discriminate.
    + reflexivity.
    + reflexivity.
    + intros f [].
Defined.

Lemma failed_upload_witness :
  (fst (upload Demo.bob (Some Demo.notes) None 20 Demo.save_fails) =
     inr (Json 500 "connection reset") /\
   ((exists m, Json 500 "connection reset" = Json 500 m) /\
    ~ In (Multer.path Demo.notes)
         (disk (snd (upload Demo.bob (Some Demo.notes) None 20 Demo.save_fails))))) /\
  (fst (upload Demo.bob (Some Demo.notes) None 20 Demo.inc_fails) =
     inr (Json 500 "connection reset") /\
   ((exists m, Json 500 "connection reset" = Json 500 m) /\
    ~ In (Multer.path Demo.notes)
         (disk (snd (upload Demo.bob (Some Demo.notes) None 20 Demo.inc_fails))))).
Proof.
  split; (split; [reflexivity|]).
  - apply (failed_upload_leaves_no_blob Demo.save_fails Demo.bob Demo.notes None 20);
      [discriminate|left; reflexivity|reflexivity|discriminate].
  - apply (failed_upload_leaves_no_blob Demo.inc_fails Demo.bob Demo.notes None 20);
      [discriminate|left; reflexivity|reflexivity|discriminate].
Defined.

(** ** What every request respects, whatever fails *)

Section Steps.
Variable R : World -> World -> Prop.
Hypothesis R_store : forall w w', same_store w w' -> R w w'.
Hypothesis R_trans : forall a b c, R a b -> R b c -> R a c.

Lemma R_refl (w : World) : R w w.
Proof. apply R_store; repeat split. Qed.

Lemma steps_ret {A} (a : A) : steps R (ret a).
Proof. intros w; apply R_refl. Qed.

Lemma steps_throw {A} (e : Exn) : steps R (@throw A e).
Proof. intros w; apply R_refl. Qed.

Lemma steps_bind {A B} (m : M A) (k : A -> M B) :
  steps R m -> (forall a, steps R (k a)) -> steps R (bind m k).
Proof.
  intros Hm Hk w. unfold bind. specialize (Hm w).
  destruct (m w) as [[e|a] w1]; simpl in *; [exact Hm|].
  eapply R_trans; [exact Hm|apply Hk].
Qed.

Lemma steps_try {A} (m : M A) (h : Exn -> M A) :
  steps R m -> (forall e, steps R (h e)) -> steps R (try_catch m h).
Proof.
  intros Hm Hh w. unfold try_catch. specialize (Hm w).
  destruct (m w) as [[e|a] w1]; simpl in *; [|exact Hm].
  eapply R_trans; [exact Hm|apply Hh].
Qed.

Lemma steps_read {A} (k : World -> M A) :
  (forall w, R w (snd (k w w))) -> steps R (bind get_world k).
Proof. intros H w; exact (H w). Qed.

Lemma steps_modify (f : World -> World) :
  (forall w, R w (f w)) -> steps R (modify f).
Proof. intros H w; exact (H w). Qed.

Lemma steps_db (e : Event) : steps R (db e).
Proof. intros w; apply R_store, db_same_store. Qed.

Lemma steps_emit (e : Event) : steps R (emit e).
Proof. intros w; apply R_store; repeat split. Qed.

Lemma steps_for_of {A} (l : list A) (body : A -> M unit) :
  (forall x, steps R (body x)) -> steps R (for_of l body).
Proof.
  intros Hb; induction l as [|x r IH]; simpl; [apply steps_ret|].
  apply steps_bind; [apply Hb|intros _; exact IH].
Qed.

(** The reads. *)
Lemma steps_File_findOne (id : ObjectId) (q : File.t -> bool) :
  steps R (File_findOne id q).
Proof.
  apply steps_bind; [apply steps_db|intros _].
  apply steps_read; intros w; apply R_refl.
Qed.

Lemma steps_File_find (folderId : ObjectId) : steps R (File_find folderId).
Proof.
  apply steps_bind; [apply steps_db|intros _].
  apply steps_read; intros w; apply R_refl.
Qed.

Lemma steps_Folder_findOne (folderId userId : ObjectId) :
  steps R (Folder_findOne folderId userId).
Proof.
  apply steps_bind; [apply steps_db|intros _].
  apply steps_read; intros w; apply R_refl.
Qed.

Lemma steps_User_findOne (email : string) : steps R (User_findOne email).
Proof.
  apply steps_bind; [apply steps_db|intros _].
  apply steps_read; intros w; apply R_refl.
Qed.

Lemma steps_download (userId fileId : ObjectId) : steps R (download userId fileId).
Proof.
  apply steps_try; [|intros _; apply steps_ret].
  apply steps_bind; [apply steps_File_findOne|].
  intros [f|]; apply steps_ret.
Qed.

(** The writes, each under what [R] grants for it. *)
Hypothesis R_unlink : forall w p,
  R w (set_disk (filter (fun x => negb (String.eqb p x)) (disk w)) w).
Hypothesis R_inc : forall w userId delta,
  R w (set_users
         (update_first (fun u => User._id u =? userId)
            (fun u => User.with_storageUsed (User.storageUsed u + delta) u)
            (users w)) w).
Hypothesis R_delete_one : forall w id,
  R w (set_files (delete_first (has_id id) (files w)) w).
Hypothesis R_delete_many : forall w folderId,
  R w (set_files (filter (fun f => negb (q_in_folder folderId f)) (files w)) w).
Hypothesis R_permission : forall w fileId target p,
  R w (set_files (update_first (q_share_of fileId target)
                    (set_permission target p) (files w)) w).
Hypothesis R_public : forall w fileId userId b,
  R w (set_files (update_first (q_owned fileId userId)
                    (File.with_isPublic b) (files w)) w).
Hypothesis R_push : forall w F target p,
  In F (files w) -> target <> File.owner F ->
  existsb (fun share => File.user share =? target) (File.sharedWith F) = false ->
  R w (set_files
         (update_first (has_id (File._id F))
            (fun _ => File.with_sharedWith
                        (File.sharedWith F ++ [File.mkShare target p]) F)
            (files w)) w).
Hypothesis R_mkdir : forall w d,
  existsb (fun x => Folder._id x =? Folder._id d) (folders w) = false ->
  R w (set_folders (folders w ++ [d]) w).
Hypothesis R_rmdir : forall w id,
  R w (set_folders (delete_first (fun x => Folder._id x =? id) (folders w)) w).

Lemma steps_unlink_if_exists (p : string) : steps R (unlink_if_exists p).
Proof.
  unfold unlink_if_exists. destruct (truthy p); [|apply steps_ret].
  apply steps_read; intros w; simpl.
  destruct (existsb (String.eqb p) (disk w)); [|apply R_refl].
  unfold fs_unlinkSync.
  apply (steps_bind (emit (FsUnlink p))); [apply steps_emit|intros _].
  apply steps_modify; intros w'; apply R_unlink.
Qed.

Lemma steps_User_inc (userId : ObjectId) (delta : Z) :
  steps R (User_findByIdAndUpdate_inc userId delta).
Proof.
  apply steps_bind; [apply steps_db|intros _].
  apply steps_modify; intros w; apply R_inc.
Qed.

Lemma steps_File_deleteOne (id : ObjectId) : steps R (File_deleteOne id).
Proof.
  apply steps_bind; [apply steps_db|intros _].
  apply steps_modify; intros w; apply R_delete_one.
Qed.

Lemma steps_File_deleteMany (folderId : ObjectId) : steps R (File_deleteMany folderId).
Proof.
  apply steps_bind; [apply steps_db|intros _].
  apply steps_modify; intros w; apply R_delete_many.
Qed.

Lemma steps_File_updateOne_permission (fileId target : ObjectId) (p : string) :
  steps R (File_updateOne_permission fileId target p).
Proof.
  apply steps_bind; [apply steps_db|intros _].
  apply steps_modify; intros w; apply R_permission.
Qed.

Lemma steps_File_findOneAndUpdate_isPublic (fileId userId : ObjectId) (b : bool) :
  steps R (File_findOneAndUpdate_isPublic fileId userId b).
Proof.
  apply steps_bind; [apply steps_db|intros _].
  apply steps_read; intros w.
  destruct (find (q_owned fileId userId) (files w)); [|apply R_refl].
  simpl. apply R_public.
Qed.

Lemma steps_Folder_insert (d : Folder.t) : steps R (Folder_insert d).
Proof.
  unfold Folder_insert. destruct (negb (truthy (Folder.name d))); [apply steps_throw|].
  apply steps_bind; [apply steps_db|intros _].
  apply steps_read; intros w.
  destruct (existsb (fun x => Folder._id x =? Folder._id d) (folders w)) eqn:E;
    [apply R_refl|].
  simpl. apply R_mkdir; exact E.
Qed.

Lemma steps_Folder_deleteOne (id : ObjectId) : steps R (Folder_deleteOne id).
Proof.
  apply steps_bind; [apply steps_db|intros _].
  apply steps_modify; intros w; apply R_rmdir.
Qed.

Lemma steps_create_folder (userId : ObjectId) (name : option string)
      (parentId : option ObjectId) (oid : ObjectId) :
  steps R (create_folder userId name parentId oid).
Proof.
  apply steps_try; [|intros _; apply steps_ret].
  destruct (negb (truthy (or_default name ""))); [apply steps_ret|].
  apply steps_bind; [apply steps_Folder_insert|intros _; apply steps_ret].
Qed.

Lemma steps_delete_file (userId fileId : ObjectId) : steps R (delete_file userId fileId).
Proof.
  apply steps_try; [|intros _; apply steps_ret].
  apply steps_bind; [apply steps_File_findOne|].
  intros [f|]; [|apply steps_ret].
  apply steps_bind; [apply steps_unlink_if_exists|intros _].
  apply steps_bind; [apply steps_User_inc|intros _].
  apply steps_bind; [apply steps_File_deleteOne|intros _; apply steps_ret].
Qed.

Lemma steps_delete_folder (userId folderId : ObjectId) :
  steps R (delete_folder userId folderId).
Proof.
  apply steps_try; [|intros _; apply steps_ret].
  apply steps_bind; [apply steps_Folder_findOne|].
  intros [d|]; [|apply steps_ret].
  apply steps_bind; [apply steps_File_find|intros fs].
  apply steps_bind;
    [apply steps_for_of; intros f; apply steps_unlink_if_exists|intros _].
  apply steps_bind.
  - destruct (0 <? total_size fs); [apply steps_User_inc|apply steps_ret].
  - intros _. apply steps_bind; [apply steps_File_deleteMany|intros _].
    apply steps_bind; [apply steps_Folder_deleteOne|intros _; apply steps_ret].
Qed.

Lemma steps_set_public (userId fileId : ObjectId) (isPublic : option bool) :
  steps R (set_public userId fileId isPublic).
Proof.
  apply steps_try; [|intros _; apply steps_ret].
  destruct isPublic as [b|]; [|apply steps_ret].
  apply steps_bind; [apply steps_File_findOneAndUpdate_isPublic|].
  intros [f|]; apply steps_ret.
Qed.

Lemma File_save_push_step (F : File.t) (target : ObjectId) (p : string) (w : World) :
  In F (files w) -> target <> File.owner F ->
  existsb (fun share => File.user share =? target) (File.sharedWith F) = false ->
  R w (snd (File_save
              (File.with_sharedWith
                 (File.sharedWith F ++ [File.mkShare target p]) F) w)).
Proof.
  intros HIn Hne Hex. unfold File_save.
  destruct (File_validate _); [apply R_refl|].
  unfold bind.
  destruct (db_cases (FileSave (File._id F)) w) as (w1 & Hs & _ & [E|[msg E]]);
    simpl File._id; rewrite E; simpl.
  - apply (R_trans _ w1); [apply R_store; exact Hs|].
    apply R_push; [|exact Hne|exact Hex].
    destruct Hs as (_ & Hf & _); rewrite Hf; exact HIn.
  - apply R_store; exact Hs.
Qed.

Lemma File_findOne_found (id : ObjectId) (q : File.t -> bool) (w w1 : World)
      (F : File.t) :
  File_findOne id q w = (inr (Some F), w1) ->
  same_store w w1 /\ In F (files w1) /\ q F = true.
Proof.
  unfold File_findOne, bind.
  destruct (db_cases (FileFindOne id) w) as (w0 & Hs & _ & [E|[msg E]]);
    rewrite E; simpl; [|discriminate].
  unfold get_world, ret; simpl. intros H; injection H as Hf Hw; subst w1.
  split; [exact Hs|]. apply find_some in Hf. exact Hf.
Qed.

Lemma steps_share_file (userId fileId : ObjectId) (email permission : option string) :
  steps R (share_file userId fileId email permission).
Proof.
  apply steps_try; [|intros _; apply steps_ret].
  destruct (negb (truthy (or_default email ""))); [apply steps_ret|].
  apply steps_bind; [apply steps_User_findOne|].
  intros [T|]; [|apply steps_ret].
  destruct (Z.eqb_spec (User._id T) userId) as [|HT]; [apply steps_ret|].
  intros w. unfold bind at 1.
  destruct (File_findOne fileId (q_owned fileId userId) w) as [[e|[F|]] w1] eqn:E;
    simpl.
  - pose proof (steps_File_findOne fileId (q_owned fileId userId) w) as H.
    rewrite E in H; exact H.
  - apply File_findOne_found in E; destruct E as (Hs & HIn & Hq).
    unfold q_owned in Hq; apply andb_true_iff in Hq; destruct Hq as [_ Ho].
    apply Z.eqb_eq in Ho.
    apply (R_trans _ w1); [apply R_store; exact Hs|].
    destruct (existsb (fun share => File.user share =? User._id T) (File.sharedWith F))
      eqn:Hex.
    + apply (steps_bind (File_updateOne_permission fileId (User._id T)
                           (or_default permission "read")));
        [apply steps_File_updateOne_permission|intros _; apply steps_ret].
    + unfold bind.
      pose proof (File_save_push_step F (User._id T) (or_default permission "read") w1 HIn)
        as Hsave.
      destruct (File_save _ w1) as [[e|[]] w2]; simpl in *;
        apply Hsave; try exact Hex; congruence.
  - pose proof (steps_File_findOne fileId (q_owned fileId userId) w) as H.
    rewrite E in H; exact H.
Qed.

(** Every request but an upload. *)
Lemma steps_handle_no_upload (r : api_request) :
  is_upload r = false -> steps R (handle r).
Proof.
  destruct r; simpl; intros H; try discriminate.
  - apply steps_download.
  - apply steps_create_folder.
  - apply steps_delete_file.
  - apply steps_delete_folder.
  - apply steps_share_file.
  - apply steps_set_public.
Qed.

Hypothesis R_insert : forall w f,
  existsb (has_id (File._id f)) (files w) = false ->
  File.sharedWith f = [] -> File.isPublic f = false ->
  R w (set_files (files w ++ [f]) w).

Lemma steps_upload (user : User.t) (file : option Multer.file)
      (folderId : option ObjectId) (oid : ObjectId) :
  steps R (upload user file folderId oid).
Proof.
  apply steps_try.
  - destruct file as [rf|]; [|apply steps_ret].
    apply steps_bind; [|intros _; apply steps_bind;
                        [apply steps_User_inc|intros _; apply steps_ret]].
    unfold createFile, File_new; simpl.
    apply steps_bind; [|intros _; apply steps_ret].
    unfold File_insert. destruct (File_validate _); [apply steps_throw|].
    apply steps_bind; [apply steps_db|intros _].
    apply steps_read; intros w; simpl.
    destruct (existsb (has_id oid) (files w)) eqn:E; [apply R_refl|].
    simpl. apply R_insert; [exact E|reflexivity|reflexivity].
  - intros e. apply steps_bind; [|intros _; apply steps_ret].
    destruct file as [rf|]; [apply steps_unlink_if_exists|apply steps_ret].
Qed.

Lemma steps_handle (r : api_request) : steps R (handle r).
Proof.
  destruct r; simpl.
  - apply steps_upload.
  - apply steps_download.
  - apply steps_create_folder.
  - apply steps_delete_file.
  - apply steps_delete_folder.
  - apply steps_share_file.
  - apply steps_set_public.
Qed.
End Steps.

(** Single-document updates and deletes, on lists. *)
Section FirstMatch.
Variable A : Type.
Variable q : A -> bool.

Lemma in_update_first (g : A -> A) (l : list A) (y : A) :
  In y (update_first q g l) ->
  In y l \/ exists x, In x l /\ q x = true /\ y = g x.
Proof.
  induction l as [|x r IH]; simpl; [tauto|].
  destruct (q x) eqn:E; simpl.
  - intros [<-|H]; [right; exists x; auto|left; right; exact H].
  - intros [<-|H]; [left; left; reflexivity|].
    destruct (IH H) as [H'|(x' & Hx' & Hq & ->)]; [left; right; exact H'|].
    right; exists x'; auto.
Qed.

Lemma in_delete_first (l : list A) (y : A) :
  In y (delete_first q l) -> In y l.
Proof.
  induction l as [|x r IH]; simpl; [tauto|].
  destruct (q x); simpl; [tauto|]. intros [<-|H]; auto.
Qed.

Lemma map_update_first {B} (key : A -> B) (g : A -> A) (l : list A) :
  (forall x, key (g x) = key x) ->
  map key (update_first q g l) = map key l.
Proof.
  intros Hg; induction l as [|x r IH]; simpl; [reflexivity|].
  destruct (q x); simpl; [rewrite Hg|rewrite IH]; reflexivity.
Qed.

Lemma NoDup_map_delete_first {B} (key : A -> B) (l : list A) :
  NoDup (map key l) -> NoDup (map key (delete_first q l)).
Proof.
  induction l as [|x r IH]; simpl; intros ND; [constructor|].
  inversion ND as [|? ? Hnot ND']; subst.
  destruct (q x); simpl; [exact ND'|].
  constructor; [|apply IH; exact ND'].
  intros C; apply Hnot. apply in_map_iff in C; destruct C as (y & Hy & HIn).
  rewrite <- Hy; apply in_map, in_delete_first; exact HIn.
Qed.
End FirstMatch.

(** *** Users *)

(** X1. Whatever the request and whatever fails in the database, no user is
    added, removed or moved, and no user's id, name, email or storage limit
    changes: the routes write [storageUsed] and nothing else of a user. *)
Theorem requests_keep_user_identities (r : api_request) (w : World) :
  map user_identity (users (snd (handle r w))) = map user_identity (users w).
Proof.
  apply (steps_handle
           (fun w w' => map user_identity (users w') = map user_identity (users w)));
    try (intros; reflexivity).
  - intros a b (Hu & _); rewrite Hu; reflexivity.
  - intros a b c H1 H2; rewrite H2; exact H1.
  - intros w0 userId delta; simpl. apply map_update_first. intros u; reflexivity.
Qed.

(** *** Blobs *)

(** X2. After the middleware, no handler writes a blob: whatever the
    request and whatever fails, every path on disk afterwards was on disk
    before. *)
Theorem handlers_write_no_blob (r : api_request) (w : World) (p : string) :
  In p (disk (snd (handle r w))) -> In p (disk w).
Proof.
  revert p.
  apply (steps_handle (fun w w' => forall p, In p (disk w') -> In p (disk w)));
    try (intros; assumption).
  - intros a b (_ & _ & _ & Hd) p; rewrite Hd; tauto.
  - intros a b c H1 H2 p Hp; auto.
  - intros w0 p0 p; simpl. intros Hp; apply filter_In in Hp; tauto.
Qed.

(** *** The catalog *)

Lemma same_core_refl (f : File.t) : same_core f f.
Proof. repeat split. Qed.

Lemma same_core_trans (f g h : File.t) :
  same_core f g -> same_core g h -> same_core f h.
Proof.
  unfold same_core; intros (a1 & a2 & a3 & a4 & a5 & a6 & a7 & a8)
                           (b1 & b2 & b3 & b4 & b5 & b6 & b7 & b8).
  repeat split; congruence.
Qed.

(** An update of one document that keeps its core keeps every document's
    core. *)
Lemma update_first_same_core (q : File.t -> bool) (g : File.t -> File.t)
      (l : list File.t) (f' : File.t) :
  (forall x, In x l -> q x = true -> same_core x (g x)) ->
  In f' (update_first q g l) -> exists f, In f l /\ same_core f f'.
Proof.
  intros Hg HIn. apply in_update_first in HIn.
  destruct HIn as [H|(x & Hx & Hq & ->)].
  - exists f'; split; [exact H|apply same_core_refl].
  - exists x; split; [exact Hx|apply Hg; assumption].
Qed.

(** X3. No request other than an upload creates a file record, and none
    changes the id, the names, the mimetype, the size, the path, the owner or
    the folder of a record: whatever fails, every file afterwards is a file
    from before that differs at most in [isPublic] and [sharedWith]. *)
Theorem only_upload_creates_files (r : api_request) (w : World) (f' : File.t) :
  is_upload r = false ->
  In f' (files (snd (handle r w))) ->
  exists f, In f (files w) /\ same_core f f'.
Proof.
  intros Hr. revert f'.
  apply (steps_handle_no_upload
           (fun w w' => forall f', In f' (files w') ->
                                   exists f, In f (files w) /\ same_core f f'));
    try exact Hr.
  - intros a b (_ & Hf & _) f'; rewrite Hf. intros H; exists f'; split;
      [exact H|apply same_core_refl].
  - intros a b c H1 H2 f' Hf'. destruct (H2 f' Hf') as (g & Hg & Hgf).
    destruct (H1 g Hg) as (f & Hf & Hfg). exists f; split; [exact Hf|].
    eapply same_core_trans; eassumption.
  - intros w0 p f' H; exists f'; split; [exact H|apply same_core_refl].
  - intros w0 u d f' H; exists f'; split; [exact H|apply same_core_refl].
  - intros w0 id f'; simpl; intros H. apply in_delete_first in H.
    exists f'; split; [exact H|apply same_core_refl].
  - intros w0 fid f'; simpl; intros H. apply filter_In in H.
    exists f'; split; [tauto|apply same_core_refl].
  - intros w0 fid t p f'; simpl. apply update_first_same_core.
    intros x _ _; repeat split.
  - intros w0 fid u b f'; simpl. apply update_first_same_core.
    intros x _ _; repeat split.
  - intros w0 F t p HIn _ _ f'; simpl. intros H.
    apply in_update_first in H. destruct H as [H|(x & Hx & Hq & ->)].
    + exists f'; split; [exact H|apply same_core_refl].
    + exists F; split; [exact HIn|repeat split].
  - intros w0 d _ f' H; exists f'; split; [exact H|apply same_core_refl].
  - intros w0 id f' H; exists f'; split; [exact H|apply same_core_refl].
Qed.

(** X4. Ids stay keys: if no two files, no two folders and no two users
    share an [_id] before a request, the same holds after it, whatever the
    request and whatever fails. *)
Theorem requests_keep_ids_unique (r : api_request) (w : World) :
  unique_ids w /\ folders_unique w /\ users_unique w ->
  unique_ids (snd (handle r w)) /\ folders_unique (snd (handle r w)) /\
  users_unique (snd (handle r w)).
Proof.
  apply (steps_handle
           (fun w w' => unique_ids w /\ folders_unique w /\ users_unique w ->
                        unique_ids w' /\ folders_unique w' /\ users_unique w'));
    unfold unique_ids, folders_unique, users_unique; simpl.
  - intros a b (Hu & Hf & Hd & _); rewrite Hu, Hf, Hd; tauto.
  - intros a b c H1 H2 H; auto.
  - tauto.
  - intros w0 u d (H1 & H2 & H3); repeat split; try assumption.
    rewrite map_update_first; [exact H3|intros x; reflexivity].
  - intros w0 id (H1 & H2 & H3); repeat split; try assumption.
    apply NoDup_map_delete_first; exact H1.
  - intros w0 fid (H1 & H2 & H3); repeat split; try assumption.
    apply NoDup_map_filter; exact H1.
  - intros w0 fid t p (H1 & H2 & H3); repeat split; try assumption.
    rewrite map_update_first; [exact H1|intros x; reflexivity].
  - intros w0 fid u b (H1 & H2 & H3); repeat split; try assumption.
    rewrite map_update_first; [exact H1|intros x; reflexivity].
  - intros w0 F t p HIn _ _ (H1 & H2 & H3); repeat split; try assumption.
    replace (map File._id (update_first _ _ (files w0))) with (map File._id (files w0));
      [exact H1|].
    clear -HIn. induction (files w0) as [|x l IH]; simpl; [reflexivity|].
    unfold has_id at 1. destruct (Z.eqb_spec (File._id x) (File._id F)) as [E|NE]; simpl.
    + rewrite E; reflexivity.
    + f_equal. destruct HIn as [->|HIn]; [congruence|]. apply IH; exact HIn.
  - intros w0 d Hex (H1 & H2 & H3); repeat split; try assumption.
    rewrite map_app; simpl. apply NoDup_app; [exact H2|repeat constructor; simpl; tauto|].
    intros k Hk [<-|[]]. apply in_map_iff in Hk; destruct Hk as (x & Hx & HIn).
    assert (existsb (fun x => Folder._id x =? Folder._id d) (folders w0) = true) as C.
    { apply existsb_exists; exists x; split; [exact HIn|apply Z.eqb_eq; exact Hx]. }
    congruence.
  - intros w0 id (H1 & H2 & H3); repeat split; try assumption.
    apply NoDup_map_delete_first; exact H2.
  - intros w0 f Hex _ _ (H1 & H2 & H3); repeat split; try assumption.
    rewrite map_app; simpl. apply NoDup_app; [exact H1|repeat constructor; simpl; tauto|].
    intros k Hk [<-|[]]. apply in_map_iff in Hk; destruct Hk as (x & Hx & HIn).
    assert (existsb (has_id (File._id f)) (files w0) = true) as C.
    { apply existsb_exists; exists x; split; [exact HIn|apply Z.eqb_eq; exact Hx]. }
    congruence.
Qed.

(** *** Sharing *)

Lemma Forall_update_first {A} (P : A -> Prop) (q : A -> bool) (g : A -> A)
      (l : list A) :
  (forall x, In x l -> P x -> q x = true -> P (g x)) ->
  Forall P l -> Forall P (update_first q g l).
Proof.
  intros Hg HP. apply Forall_forall; intros y Hy.
  pose proof (proj1 (Forall_forall P l) HP) as Hall.
  apply in_update_first in Hy. destruct Hy as [H|(x & Hx & Hq & ->)]; auto.
Qed.

Lemma set_permission_users (target : ObjectId) (p : string) (l : list File.share) :
  map File.user
      (update_first (fun sh => File.user sh =? target)
         (fun sh => File.mkShare (File.user sh) p) l) =
  map File.user l.
Proof. apply map_update_first; intros sh; reflexivity. Qed.

Lemma not_named (target : ObjectId) (l : list File.share) :
  existsb (fun share => File.user share =? target) l = false ->
  ~ In target (map File.user l).
Proof.
  intros Hex HIn. apply in_map_iff in HIn; destruct HIn as (sh & Hsh & HIn).
  assert (existsb (fun share => File.user share =? target) l = true) as C.
  { apply existsb_exists; exists sh; split; [exact HIn|apply Z.eqb_eq; exact Hsh]. }
  congruence.
Qed.

(** X5. [sharedWith] stays well-formed: if before a request no file names a
    user twice in [sharedWith] and none names its owner, the same holds after
    it, whatever the request and whatever fails. *)
Theorem requests_keep_shares_ok (r : api_request) (w : World) :
  Forall share_ok (files w) -> Forall share_ok (files (snd (handle r w))).
Proof.
  apply (steps_handle
           (fun w w' => Forall share_ok (files w) -> Forall share_ok (files w')));
    simpl; try (intros; assumption).
  - intros a b (_ & Hf & _); rewrite Hf; tauto.
  - intros a b c H1 H2 H; auto.
  - intros w0 id H. apply Forall_forall; intros f Hf.
    apply in_delete_first in Hf. exact (proj1 (Forall_forall _ _) H f Hf).
  - intros w0 fid H. apply Forall_forall; intros f Hf.
    apply filter_In in Hf. exact (proj1 (Forall_forall _ _) H f (proj1 Hf)).
  - intros w0 fid t p. apply Forall_update_first.
    intros x _ [Hnd Hown] _; unfold share_ok, set_permission; simpl.
    rewrite set_permission_users; split; assumption.
  - intros w0 fid u b. apply Forall_update_first.
    intros x _ Hx _; exact Hx.
  - intros w0 F t p HIn Hne Hex H.
    pose proof (proj1 (Forall_forall _ _) H F HIn) as [Hnd Hown].
    apply Forall_update_first; [|exact H].
    intros x _ _ _; unfold share_ok; simpl. rewrite map_app; simpl.
    pose proof (not_named t _ Hex) as Hnot. split.
    + apply NoDup_app; [exact Hnd|repeat constructor; simpl; tauto|].
      intros k Hk [<-|[]]; exact (Hnot Hk).
    + intros C; apply in_app_or in C; destruct C as [C|[C|[]]];
        [exact (Hown C)|exact (Hne C)].
  - intros w0 f _ Hsh _ H. apply Forall_app; split; [exact H|].
    repeat constructor; unfold share_ok; rewrite Hsh; simpl; [constructor|tauto].
Qed.

(** ** Creating a folder *)

(** X6. A folder name that is empty or made of white space never creates
    a folder, whatever the oracle: an absent or empty name is answered 400, a
    name of white space - which passes the check of the route and fails the
    [required] validator once trimmed - is answered 500, and in both cases
    nothing is sent to the database and the world is as before. *)
Theorem create_folder_refuses_blank_names (userId : ObjectId) (name : option string)
        (parentId : option ObjectId) (oid : ObjectId) (w : World) :
  trim (or_default name "") = "" ->
  create_folder userId name parentId oid w =
  (inr (if truthy (or_default name "")
        then Json 500 "Server error"
        else Json 400 "Folder name is required"), w).
Proof.
  intros Hblank. unfold create_folder, try_catch.
  destruct (truthy (or_default name "")) eqn:Ht; simpl; [|reflexivity].
  unfold bind, Folder_insert; simpl. rewrite Hblank; reflexivity.
Qed.

Lemma Folder_insert_healthy (d : Folder.t) (w : World) :
  healthy w -> Folder.name d <> "" -> fresh_folder_id (Folder._id d) w ->
  Folder_insert d w =
  (inr tt, mkWorld (users w) (files w) (folders w ++ [d]) (disk w)
             (log w ++ [FolderInsert (Folder._id d)]) (faults w)).
Proof.
  intros Hh Hn Hfresh. unfold Folder_insert, truthy.
  apply String.eqb_neq in Hn; rewrite Hn; simpl.
  erewrite bind_ok by (apply db_healthy; exact Hh).
  unfold bind, get_world; simpl.
  replace (existsb (fun x => Folder._id x =? Folder._id d) (folders w)) with false;
    [reflexivity|].
  symmetry; apply not_true_is_false; intros C; apply existsb_exists in C.
  destruct C as (g & Hg & Hid); apply Z.eqb_eq in Hid; exact (Hfresh g Hg Hid).
Qed.

Lemma trim_nonempty_truthy (s : string) : trim s <> "" -> truthy s = true.
Proof.
  intros H. unfold truthy. destruct s; [exfalso; apply H; reflexivity|reflexivity].
Qed.

(** X7. A folder is created under whatever parent the request names: with
    a name that is not blank and a new id, the route answers 201 and appends
    the folder, owned by the caller, with the trimmed name and the given
    [parentId] - no lookup checks that the parent exists or belongs to the
    caller - and changes nothing else. *)
Theorem create_folder_accepts_any_parent (userId : ObjectId) (name : string)
        (parentId : option ObjectId) (oid : ObjectId) (w : World) :
  healthy w -> plain_ascii name = true -> trim name <> "" ->
  fresh_folder_id oid w ->
  fst (create_folder userId (Some name) parentId oid w) =
    inr (Json 201 "Folder created successfully") /\
  folders (snd (create_folder userId (Some name) parentId oid w)) =
    folders w ++ [Folder.mk oid (trim name) userId parentId] /\
  users (snd (create_folder userId (Some name) parentId oid w)) = users w /\
  files (snd (create_folder userId (Some name) parentId oid w)) = files w /\
  disk (snd (create_folder userId (Some name) parentId oid w)) = disk w.
Proof.
  intros Hh _ Hn Hfresh.
  pose proof (trim_nonempty_truthy name Hn) as Ht.
  assert (or_default (Some name) "" = name) as Hd
    by (unfold or_default; rewrite Ht; reflexivity).
  unfold create_folder. rewrite Hd, Ht; simpl negb; cbv iota.
  erewrite try_ok.
  2:{ erewrite bind_ok; [reflexivity|].
      apply Folder_insert_healthy; [exact Hh|exact Hn|exact Hfresh]. }
  simpl; repeat split.
Qed.

(** ** Visibility *)

Lemma set_public_run (w : World) (F : File.t) (b : bool) :
  healthy w -> unique_ids w -> In F (files w) ->
  set_public (File.owner F) (File._id F) (Some b) w =
  (inr (Json 200 (if b then "File is now public" else "File is now private")),
   mkWorld (users w)
     (map (fun x => if File._id x =? File._id F then File.with_isPublic b x else x)
          (files w))
     (folders w) (disk w)
     (log w ++ [FileFindOneAndUpdate (File._id F)]) (faults w)).
Proof.
  intros Hh Hu HIn. pose proof (find_owned_by_owner w F Hu HIn) as Hfind.
  unfold set_public. apply try_ok.
  unfold File_findOneAndUpdate_isPublic.
  erewrite bind_ok.
  2:{ erewrite bind_ok by (apply db_healthy; exact Hh).
      erewrite bind_ok by reflexivity. cbn [files set_log]. rewrite Hfind.
      erewrite bind_ok by reflexivity. reflexivity. }
  unfold ret; simpl.
  rewrite (update_first_unique (q_owned (File._id F) (File.owner F))
             (File.with_isPublic b) (File.with_isPublic b) F (files w) Hu HIn).
  - reflexivity.
  - unfold q_owned; rewrite !Z.eqb_refl; reflexivity.
  - intros x Hx; unfold q_owned in Hx; apply andb_true_iff in Hx.
    apply Z.eqb_eq; tauto.
  - reflexivity.
Qed.

(** X8. When the owner sets the visibility of a file, the route answers
    200, the [isPublic] of that file becomes the value sent, and nothing else
    changes: no other file, no other field of the file, no user, no folder, no
    blob. *)
Theorem set_public_changes_one_flag (w : World) (F : File.t) (b : bool) :
  healthy w -> unique_ids w -> In F (files w) ->
  let w' := snd (set_public (File.owner F) (File._id F) (Some b) w) in
  status_of_run (set_public (File.owner F) (File._id F) (Some b) w) = Some 200 /\
  stored (File._id F) w' = Some (File.with_isPublic b F) /\
  files w' =
    map (fun x => if File._id x =? File._id F then File.with_isPublic b x else x)
        (files w) /\
  users w' = users w /\ folders w' = folders w /\ disk w' = disk w.
Proof.
  intros Hh Hu HIn w'. subst w'. unfold status_of_run.
  rewrite (set_public_run w F b Hh Hu HIn); simpl.
  split; [reflexivity|]. split; [|repeat split].
  change (File._id F) with (File._id (File.with_isPublic b F)) at 1.
  apply stored_unique.
  - unfold unique_ids; simpl. rewrite map_if_id_ids; [exact Hu|reflexivity].
  - simpl. apply (in_map_if_id F (File.with_isPublic b)); exact HIn.
Qed.

(** X9. Visibility governs the download: once the owner has set
    [isPublic] to [b], a download of the file by any requester [R] succeeds
    exactly when [b] is true, or [R] is the owner, or [R] is named in
    [sharedWith]; the entries of [sharedWith] survive the toggle. *)
Theorem visibility_toggle_governs_download (w : World) (F : File.t) (b : bool)
        (R : ObjectId) :
  healthy w -> unique_ids w -> In F (files w) ->
  fst (download R (File._id F)
         (snd (set_public (File.owner F) (File._id F) (Some b) w))) =
  inr (if b || (File.owner F =? R) || q_shared_with R F
       then Download (File.path F) (File.originalName F)
       else Json 404 "File not found or access denied").
Proof.
  intros Hh Hu HIn. rewrite (set_public_run w F b Hh Hu HIn); simpl.
  match goal with |- fst (download R _ ?w1) = _ =>
    pose proof (download_run w1 R (File.with_isPublic b F)) as Hd end.
  simpl in Hd. rewrite Hd.
  - unfold q_shared_with; simpl.
    destruct b, (File.owner F =? R),
      (existsb (fun sh => File.user sh =? R) (File.sharedWith F)); reflexivity.
  - exact Hh.
  - unfold unique_ids; simpl. rewrite map_if_id_ids; [exact Hu|reflexivity].
  - simpl. apply (in_map_if_id F (File.with_isPublic b)); exact HIn.
Qed.

(** ** Grants *)

Lemma bind_throw {A B} (m : M A) (k : A -> M B) (w w' : World) (e : Exn) :
  m w = (inl e, w') -> bind m k w = (inl e, w').
Proof. unfold bind; intros ->; reflexivity. Qed.

Lemma try_throw {A} (m : M A) (h : Exn -> M A) (w w' : World) (e : Exn) :
  m w = (inl e, w') -> try_catch m h w = h e w'.
Proof. unfold try_catch; intros ->; reflexivity. Qed.

Lemma existsb_update_first_user (R target : ObjectId) (p : string)
      (l : list File.share) :
  existsb (fun sh => File.user sh =? R)
          (update_first (fun sh => File.user sh =? target)
             (fun sh => File.mkShare (File.user sh) p) l) =
  existsb (fun sh => File.user sh =? R) l.
Proof.
  induction l as [|sh r IH]; simpl; [reflexivity|].
  destruct (File.user sh =? target); simpl; [reflexivity|rewrite IH; reflexivity].
Qed.

(** Whom a file names after a grant: the target, and whoever it named. *)
Lemma q_shared_with_grant (R target : ObjectId) (p : string) (f : File.t) :
  q_shared_with R (grant_file target p f) = (R =? target) || q_shared_with R f.
Proof.
  unfold q_shared_with, grant_file, grant_shares; simpl.
  destruct (existsb (fun share => File.user share =? target) (File.sharedWith f)) eqn:E.
  - rewrite existsb_update_first_user.
    destruct (Z.eqb_spec R target) as [->|_]; [rewrite E|]; reflexivity.
  - rewrite existsb_app; simpl. rewrite orb_false_r, (Z.eqb_sym target R).
    apply orb_comm.
Qed.

(** X10. A grant opens the file to its target and to nobody else: after
    the owner has shared a file with the user an email (of plain ASCII)
    resolves to once trimmed and lowercased, a download of that file by a
    requester [R] succeeds exactly when [R] is the owner, or the target, or
    was named in [sharedWith] before, or the file is public. *)
Theorem grant_opens_file_to_target_only (w : World) (F : File.t) (T : User.t)
        (E : string) (p : option string) (R : ObjectId) :
  healthy w -> unique_ids w -> In F (files w) ->
  plain_ascii E = true -> E <> "" ->
  resolves E w = Some T -> User._id T <> File.owner F ->
  File_validate F = None -> valid_permission p ->
  status_of_run (share_file (File.owner F) (File._id F) (Some E) p w) = Some 200 /\
  fst (download R (File._id F)
         (snd (share_file (File.owner F) (File._id F) (Some E) p w))) =
  inr (if (File.owner F =? R) || (R =? User._id T) || q_shared_with R F
          || File.isPublic F
       then Download (File.path F) (File.originalName F)
       else Json 404 "File not found or access denied").
Proof.
  intros Hh Hu HIn _ HE HT HTO Hv Hp.
  destruct (share_file_run w (File.owner F) F T E p Hh Hu HIn eq_refl HE HT HTO
              (or_intror (conj Hv Hp))) as [evs Erun].
  unfold status_of_run; rewrite Erun; simpl. split; [reflexivity|].
  match goal with |- fst (download R _ ?w1) = _ =>
    pose proof (download_run w1 R (grant_file (User._id T) (or_default p "read") F))
      as Hd end.
  simpl in Hd. rewrite Hd.
  - rewrite q_shared_with_grant.
    destruct (File.owner F =? R), (R =? User._id T), (q_shared_with R F),
      (File.isPublic F); reflexivity.
  - exact Hh.
  - unfold unique_ids; simpl. rewrite map_if_id_ids; [exact Hu|reflexivity].
  - simpl. apply (in_map_if_id F (grant_file (User._id T) (or_default p "read")));
      exact HIn.
Qed.

Lemma share_file_lookup (w : World) (F : File.t) (T : User.t) (E : string)
      (p : option string) :
  healthy w -> unique_ids w -> In F (files w) ->
  E <> "" -> resolves E w = Some T -> User._id T <> File.owner F ->
  or_default (Some E) "" = E /\ negb (truthy E) = false /\
  (User._id T =? File.owner F) = false /\
  find (q_owned (File._id F) (File.owner F)) (files w) = Some F.
Proof.
  intros Hh Hu HIn HE HT HTO.
  apply String.eqb_neq in HE. unfold or_default, truthy; rewrite HE; simpl.
  repeat split; [apply Z.eqb_neq; exact HTO|apply find_owned_by_owner; assumption].
Qed.

(** X11. The enum of permissions is enforced on a first grant and not on a
    repeated one. For an email of plain ASCII that resolves, once trimmed and
    lowercased, to a user other than the owner: a first grant whose
    permission is outside [read]/[edit] is answered 500 and stores nothing; a
    grant to a user the file already names is answered 200 and writes the
    permission as sent, whatever string it is. *)
Theorem permission_enum_checked_on_first_grant_only :
  (forall (w : World) (F : File.t) (T : User.t) (E : string) (p : option string),
      healthy w -> unique_ids w -> In F (files w) ->
      plain_ascii E = true -> E <> "" ->
      resolves E w = Some T -> User._id T <> File.owner F ->
      q_shared_with (User._id T) F = false ->
      File.permission_enum (or_default p "read") = false ->
      fst (share_file (File.owner F) (File._id F) (Some E) p w) =
        inr (Json 500 "Server error") /\
      same_store w (snd (share_file (File.owner F) (File._id F) (Some E) p w))) /\
  (forall (w : World) (F : File.t) (T : User.t) (E : string) (p : option string),
      healthy w -> unique_ids w -> In F (files w) ->
      plain_ascii E = true -> E <> "" ->
      resolves E w = Some T -> User._id T <> File.owner F ->
      q_shared_with (User._id T) F = true ->
      status_of_run (share_file (File.owner F) (File._id F) (Some E) p w) = Some 200 /\
      exists F',
        stored (File._id F) (snd (share_file (File.owner F) (File._id F) (Some E) p w)) =
          Some F' /\
        In (File.mkShare (User._id T) (or_default p "read")) (File.sharedWith F')).
Proof.
  split.
  - intros w F T E p Hh Hu HIn _ HE HT HTO Hsh Hp.
    destruct (share_file_lookup w F T E p Hh Hu HIn HE HT HTO)
      as (Hd & Ht & Hne & Hfind).
    unfold q_shared_with in Hsh.
    assert (share_file (File.owner F) (File._id F) (Some E) p w =
            (inr (Json 500 "Server error"),
             set_log (log (set_log (log w ++ [UserFindOne E]) w) ++
                      [FileFindOne (File._id F)])
                     (set_log (log w ++ [UserFindOne E]) w))) as Erun.
    { assert (exists msg,
                File_validate
                  (File.with_sharedWith
                     (File.sharedWith F ++
                      [File.mkShare (User._id T) (or_default p "read")]) F) = Some msg)
        as [msg Hmsg].
      { unfold File_validate; simpl File.sharedWith.
        rewrite forallb_app; simpl forallb at 2. rewrite Hp, andb_false_r.
        destruct (negb (truthy (File.filename _))); [eexists; reflexivity|].
        destruct (negb (truthy (File.originalName _))); [eexists; reflexivity|].
        destruct (negb (truthy (File.mimetype _))); [eexists; reflexivity|].
        destruct (negb (truthy (File.path _))); eexists; reflexivity. }
      unfold share_file. rewrite Hd, Ht.
      erewrite try_throw.
      2:{ step User_findOne_healthy. rewrite HT; cbv beta iota. rewrite Hne.
          step File_findOne_healthy. cbn [files set_log].
          rewrite Hfind; cbv beta iota zeta. rewrite Hsh.
          erewrite bind_throw; [reflexivity|].
          unfold File_save; rewrite Hmsg; reflexivity. }
      reflexivity. }
    rewrite Erun; simpl; repeat split.
  - intros w F T E p Hh Hu HIn _ HE HT HTO Hsh.
    destruct (share_file_lookup w F T E p Hh Hu HIn HE HT HTO)
      as (Hd & Ht & Hne & Hfind).
    assert (exists msg evs,
      share_file (File.owner F) (File._id F) (Some E) p w =
      (inr (Json 200 msg),
       mkWorld (users w)
         (map (fun x => if File._id x =? File._id F
                        then set_permission (User._id T) (or_default p "read") x
                        else x) (files w))
         (folders w) (disk w) (log w ++ evs) (faults w))) as (msg & evs & Erun).
    { eexists _, [UserFindOne E; FileFindOne (File._id F); FileUpdateOne (File._id F)].
      unfold share_file. rewrite Hd, Ht. apply try_ok.
      step User_findOne_healthy. rewrite HT; cbv beta iota. rewrite Hne.
      step File_findOne_healthy. cbn [files set_log]. rewrite Hfind; cbv beta iota zeta.
      unfold q_shared_with in Hsh; rewrite Hsh.
      step File_updateOne_permission_healthy.
      unfold ret; simpl. rewrite <- !app_assoc; simpl.
      rewrite (update_first_unique (q_share_of (File._id F) (User._id T))
                 (set_permission (User._id T) (or_default p "read"))
                 (set_permission (User._id T) (or_default p "read")) F (files w) Hu HIn).
      - reflexivity.
      - unfold q_share_of, q_shared_with; rewrite Z.eqb_refl, Hsh; reflexivity.
      - intros x Hx; unfold q_share_of in Hx; apply andb_true_iff in Hx.
        apply Z.eqb_eq; tauto.
      - reflexivity. }
    unfold status_of_run; rewrite Erun; simpl. split; [reflexivity|].
    exists (set_permission (User._id T) (or_default p "read") F). split.
    + change (File._id F)
        with (File._id (set_permission (User._id T) (or_default p "read") F)) at 1.
      apply stored_unique.
      * unfold unique_ids; simpl. rewrite map_if_id_ids; [exact Hu|reflexivity].
      * simpl. apply (in_map_if_id F (set_permission (User._id T) (or_default p "read")));
          exact HIn.
    + unfold set_permission; simpl. unfold q_shared_with in Hsh.
      clear -Hsh. induction (File.sharedWith F) as [|sh r IH]; simpl in *; [discriminate|].
      destruct (Z.eqb_spec (File.user sh) (User._id T)) as [Eu|_]; simpl.
      * left; rewrite Eu; reflexivity.
      * right; apply IH; exact Hsh.
Qed.

(** ** All or nothing *)

Lemma same_store_refl (w : World) : same_store w w.
Proof. repeat split. Qed.

Lemma same_store_trans (a b c : World) :
  same_store a b -> same_store b c -> same_store a c.
Proof.
  unfold same_store; intros (a1 & a2 & a3 & a4) (b1 & b2 & b3 & b4).
  repeat split; congruence.
Qed.

Lemma quiet_of_R : forall w w', same_store w w' -> same_store w w'.
Proof. auto. Qed.

Lemma aon_ret (s : Z) (r : Response) : all_or_nothing s (ret r).
Proof. intros w; left; apply same_store_refl. Qed.

Lemma aon_bind_quiet {A} (s : Z) (m : M A) (k : A -> M Response) :
  steps same_store m -> (forall a, all_or_nothing s (k a)) -> all_or_nothing s (bind m k).
Proof.
  intros Hm Hk w. unfold bind. specialize (Hm w).
  destruct (m w) as [[e|a] w1]; simpl in *; [left; exact Hm|].
  destruct (Hk a w1) as [H|H]; [left; eapply same_store_trans; eassumption|right; exact H].
Qed.

Lemma aon_write {A} (s : Z) (m : M A) (r : Response) :
  atomic_write m -> status_of r = s -> all_or_nothing s (bind m (fun _ => ret r)).
Proof.
  intros Hm Hs w. unfold bind. specialize (Hm w).
  destruct (m w) as [[e|a] w1]; simpl in *.
  - destruct Hm as [[a Ha]|Hm]; [discriminate|left; exact Hm].
  - right; exists r; auto.
Qed.

Lemma aon_try (s : Z) (body : M Response) (msg : string) (w : World) :
  all_or_nothing s body ->
  status_of_run (try_catch body (fun _ => ret (Json 500 msg)) w) <> Some s ->
  same_store w (snd (try_catch body (fun _ => ret (Json 500 msg)) w)).
Proof.
  intros Hb. unfold status_of_run, try_catch. specialize (Hb w).
  destruct (body w) as [[e|r] w1]; simpl in *.
  - intros _. destruct Hb as [H|(r & Hr & _)]; [exact H|discriminate].
  - intros Hs. destruct Hb as [H|(r' & Hr & Hst)]; [exact H|].
    inversion Hr; subst. congruence.
Qed.

Lemma atomic_after_db {A} (e : Event) (m : M A) :
  (forall w, exists a, fst (m w) = inr a) -> atomic_write (bind (db e) (fun _ => m)).
Proof.
  intros Hm w. unfold bind.
  destruct (db_cases e w) as (w1 & Hs & _ & [E|[msg E]]); rewrite E; simpl.
  - left; apply Hm.
  - right; exact Hs.
Qed.

Lemma atomic_File_updateOne_permission (fileId target : ObjectId) (p : string) :
  atomic_write (File_updateOne_permission fileId target p).
Proof. apply atomic_after_db; intros w; eexists; reflexivity. Qed.

Lemma atomic_File_save (f : File.t) : atomic_write (File_save f).
Proof.
  unfold File_save. destruct (File_validate f).
  - intros w; right; apply same_store_refl.
  - apply atomic_after_db; intros w; eexists; reflexivity.
Qed.

Lemma atomic_Folder_insert (d : Folder.t) : atomic_write (Folder_insert d).
Proof.
  unfold Folder_insert. destruct (negb (truthy (Folder.name d))).
  - intros w; right; apply same_store_refl.
  - intros w. unfold bind.
    destruct (db_cases (FolderInsert (Folder._id d)) w) as (w1 & Hs & _ & [E|[msg E]]);
      rewrite E; simpl; [|right; exact Hs].
    unfold get_world; simpl.
    destruct (existsb _ (folders w1)); simpl; [right; exact Hs|left; eexists; reflexivity].
Qed.

(** The body of the grant route, inside its [try]. *)
Lemma aon_share_file (userId fileId : ObjectId) (email permission : option string) :
  exists body,
    share_file userId fileId email permission =
      try_catch body (fun _ => ret (Json 500 "Server error")) /\
    all_or_nothing 200 body.
Proof.
  eexists; split; [unfold share_file; reflexivity|].
  destruct (negb (truthy (or_default email ""))); [apply aon_ret|].
  apply aon_bind_quiet;
    [apply steps_User_findOne; [exact quiet_of_R|exact same_store_trans]|].
  intros [T|]; [|apply aon_ret].
  destruct (User._id T =? userId); [apply aon_ret|].
  apply aon_bind_quiet;
    [apply steps_File_findOne; [exact quiet_of_R|exact same_store_trans]|].
  intros [F|]; [|apply aon_ret].
  apply aon_write; [|reflexivity].
  destruct (existsb _ _); [apply atomic_File_updateOne_permission|apply atomic_File_save].
Qed.

Lemma File_findOneAndUpdate_isPublic_cases (fileId userId : ObjectId) (b : bool)
      (w : World) :
  (same_store w (snd (File_findOneAndUpdate_isPublic fileId userId b w)) /\
   forall f, fst (File_findOneAndUpdate_isPublic fileId userId b w) <> inr (Some f)) \/
  exists f, fst (File_findOneAndUpdate_isPublic fileId userId b w) = inr (Some f).
Proof.
  unfold File_findOneAndUpdate_isPublic, bind.
  destruct (db_cases (FileFindOneAndUpdate fileId) w) as (w1 & Hs & _ & [E|[msg E]]);
    rewrite E; simpl.
  - unfold get_world; simpl.
    destruct (find (q_owned fileId userId) (files w1)); simpl.
    + right; eexists; reflexivity.
    + left; split; [exact Hs|discriminate].
  - left; split; [exact Hs|discriminate].
Qed.

Lemma aon_set_public (userId fileId : ObjectId) (b : bool) :
  all_or_nothing 200
    (bind (File_findOneAndUpdate_isPublic fileId userId b)
       (fun file =>
          match file with
          | None => ret (Json 404 "File not found or access denied")
          | Some _ =>
              ret (Json 200 (if b then "File is now public" else "File is now private"))
          end)).
Proof.
  intros w. unfold bind.
  destruct (File_findOneAndUpdate_isPublic_cases fileId userId b w) as [[Hs Hn]|[f Hf]];
    destruct (File_findOneAndUpdate_isPublic fileId userId b w) as [[e|[f'|]] w1];
    simpl in *.
  - left; exact Hs.
  - exfalso; exact (Hn f' eq_refl).
  - left; exact Hs.
  - discriminate.
  - right; eexists; split; reflexivity.
  - discriminate.
Qed.

(** X12. A grant, a visibility toggle, a folder creation and a download are
    all or nothing: whenever such a request is not answered with its success
    status, catalog, ledger and blobs are exactly as before, whatever failed
    in the database. *)
Theorem single_write_requests_all_or_nothing (r : api_request) (w : World) :
  single_write r = true ->
  status_of_run (handle r w) <> Some (success_status r) ->
  same_store w (snd (handle r w)).
Proof.
  destruct r as [| userId fileId | userId name parentId oid | | |
                 userId fileId email permission | userId fileId isPublic];
    simpl; intros Hr; try discriminate.
  - intros _. apply steps_download; [exact quiet_of_R|exact same_store_trans].
  - apply aon_try.
    destruct (negb (truthy (or_default name ""))); [apply aon_ret|].
    apply aon_write; [apply atomic_Folder_insert|reflexivity].
  - destruct (aon_share_file userId fileId email permission) as (body & E & Hb).
    rewrite E. apply aon_try; exact Hb.
  - apply aon_try. destruct isPublic as [b|]; [apply aon_set_public|apply aon_ret].
Qed.

(** ** Uploads *)

Lemma find_app_fresh (q : File.t -> bool) (l : list File.t) (f : File.t) :
  (forall x, In x l -> q x = false) -> q f = true ->
  find q (l ++ [f]) = Some f.
Proof.
  intros Hl Hf. induction l as [|x r IH]; simpl.
  - rewrite Hf; reflexivity.
  - rewrite (Hl x (or_introl eq_refl)). apply IH; intros; apply Hl; right; assumption.
Qed.

Lemma fresh_not_q (oid : ObjectId) (w : World) (g : File.t -> bool) :
  fresh_file_id oid w ->
  forall x, In x (files w) -> (File._id x =? oid) && g x = false.
Proof.
  intros Hfresh x Hx. pose proof (Hfresh x Hx) as Hne.
  apply Z.eqb_neq in Hne. rewrite Hne; reflexivity.
Qed.

(** X13. What is uploaded can be downloaded: after a successful upload the
    uploader's [storageUsed] has grown by the size of the file and by nothing
    else, no other ledger has moved, and a download of the new id by the
    uploader sends the blob under the trimmed original name. *)
Theorem upload_then_owner_downloads (w : World) (user : User.t) (rf : Multer.file)
        (folderId : option ObjectId) (oid : ObjectId) :
  healthy w -> valid_upload rf ->
  plain_ascii (Multer.originalname rf) = true ->
  fresh_file_id oid w ->
  let w' := snd (upload user (Some rf) folderId oid w) in
  ledger (User._id user) w' =
    option_map (fun used => used + Multer.size rf) (ledger (User._id user) w) /\
  (forall v, v <> User._id user -> ledger v w' = ledger v w) /\
  fst (download (User._id user) oid w') =
    inr (Download (Multer.path rf) (trim (Multer.originalname rf))).
Proof.
  intros Hh Hv _ Hfresh w'. subst w'.
  rewrite (upload_run w user rf folderId oid Hh Hv Hfresh); simpl.
  split; [|split].
  - unfold ledger; simpl. rewrite ledger_update_same.
    destruct (find _ (users w)); reflexivity.
  - intros v Hne. unfold ledger; simpl.
    rewrite ledger_update_other by exact Hne; reflexivity.
  - unfold download. erewrite try_ok; [reflexivity|].
    erewrite bind_ok by (apply File_findOne_healthy; exact Hh).
    cbn [files set_log]. unfold q_readable.
    rewrite find_app_fresh; [reflexivity| |].
    + apply fresh_not_q; exact Hfresh.
    + simpl. rewrite !Z.eqb_refl; reflexivity.
Qed.

Lemma upload_route_run (w : World) (user : User.t) (cl : jsnum) (rf : Multer.file)
      (folderId : option ObjectId) (oid : ObjectId) :
  healthy w -> fileFilter user cl = Accept ->
  Multer.size rf < Multer.fileSize_limit ->
  valid_upload rf -> fresh_file_id oid w ->
  upload_route user cl (Some rf) folderId oid w =
  (inr (Json 201 "File uploaded successfully"),
   mkWorld
     (update_first (fun u => User._id u =? User._id user)
        (fun u => User.with_storageUsed (User.storageUsed u + Multer.size rf) u)
        (users w))
     (files w ++
      [File.mk oid (trim (Multer.filename rf)) (trim (Multer.originalname rf))
         (Multer.mimetype rf) (Multer.size rf) (Multer.path rf) (User._id user)
         folderId false []])
     (folders w) (Multer.path rf :: disk w)
     (log w ++ [FileInsert oid; UserInc (User._id user) (Multer.size rf)])
     (faults w)).
Proof.
  intros Hh Hf Hsz Hv Hfresh. unfold upload_route, upload_single. rewrite Hf.
  apply Z.leb_gt in Hsz; rewrite Hsz.
  erewrite bind_ok by (erewrite bind_ok by reflexivity; reflexivity).
  cbv beta iota.
  rewrite upload_run; [reflexivity|exact Hh|exact Hv|exact Hfresh].
Qed.

(** X14. The quota check reads the declared content length and never the
    file. When the request declares no length (a chunked body) the check lets
    it through whatever the ledger says: a file below 100 MiB (with names of
    plain ASCII that are not blank) is stored and its size is added to
    [storageUsed], with no comparison against [storageLimit]. When the
    request declares a length that passes the check, the file - which the
    body carries, so that it is shorter than declared - is stored, its own
    size (not the declared length) is added, and [storageUsed] of the
    request's user plus that size stays below the limit. *)
Theorem upload_adds_actual_size_unchecked :
  (forall (w : World) (user : User.t) (rf : Multer.file)
          (folderId : option ObjectId) (oid : ObjectId),
      healthy w ->
      Multer.size rf < Multer.fileSize_limit ->
      valid_upload rf ->
      plain_ascii (Multer.filename rf) = true ->
      plain_ascii (Multer.originalname rf) = true ->
      fresh_file_id oid w ->
      let w' := snd (upload_route user NaN (Some rf) folderId oid w) in
      status_of_run (upload_route user NaN (Some rf) folderId oid w) = Some 201 /\
      ledger (User._id user) w' =
        option_map (fun used => used + Multer.size rf) (ledger (User._id user) w) /\
      In (Multer.path rf) (disk w')) /\
  (forall (w : World) (user : User.t) (n : Z) (rf : Multer.file)
          (folderId : option ObjectId) (oid : ObjectId),
      healthy w ->
      safe_integer (User.storageLimit user) ->
      fits_declared (Num n) rf ->
      fileFilter user (Num n) = Accept ->
      Multer.size rf < Multer.fileSize_limit ->
      valid_upload rf ->
      plain_ascii (Multer.filename rf) = true ->
      plain_ascii (Multer.originalname rf) = true ->
      fresh_file_id oid w ->
      let w' := snd (upload_route user (Num n) (Some rf) folderId oid w) in
      status_of_run (upload_route user (Num n) (Some rf) folderId oid w) = Some 201 /\
      ledger (User._id user) w' =
        option_map (fun used => used + Multer.size rf) (ledger (User._id user) w) /\
      In (Multer.path rf) (disk w') /\
      User.storageUsed user + Multer.size rf < User.storageLimit user).
Proof.
  split.
  - intros w user rf folderId oid Hh Hsz Hv _ _ Hfresh w'. subst w'.
    unfold status_of_run.
    rewrite (upload_route_run w user NaN rf folderId oid Hh (fileFilter_NaN user)
               Hsz Hv Hfresh); simpl.
    split; [reflexivity|]. split; [|left; reflexivity].
    unfold ledger; simpl. rewrite ledger_update_same.
    destruct (find _ (users w)); reflexivity.
  - intros w user n rf folderId oid Hh Hsafe Hfit Hf Hsz Hv _ _ Hfresh w'. subst w'.
    unfold status_of_run.
    rewrite (upload_route_run w user (Num n) rf folderId oid Hh Hf Hsz Hv Hfresh); simpl.
    split; [reflexivity|]. split; [|split; [left; reflexivity|]].
    + unfold ledger; simpl. rewrite ledger_update_same.
      destruct (find _ (users w)); reflexivity.
    + apply (fileFilter_accepts user n Hsafe) in Hf. simpl in Hfit. lia.
Qed.

(** ** Deleting a file, step by step *)

(** What the guarded unlink does to the disk. *)
Lemma unlink_if_exists_run (p : string) (w : World) :
  p <> "" ->
  exists evs,
    unlink_if_exists p w =
    (inr tt, mkWorld (users w) (files w) (folders w)
               (filter (fun x => negb (String.eqb p x)) (disk w))
               (log w ++ evs) (faults w)).
Proof.
  intros Hp. unfold unlink_if_exists, truthy.
  apply String.eqb_neq in Hp; rewrite Hp; simpl.
  unfold bind, fs_existsSync, get_world, ret; simpl.
  destruct (existsb (String.eqb p) (disk w)) eqn:Hex; simpl.
  - exists [FsUnlink p]; reflexivity.
  - exists []; rewrite app_nil_r, filter_absent; [destruct w; reflexivity|].
    intros HIn. assert (existsb (String.eqb p) (disk w) = true) as C.
    { apply existsb_exists; exists p; split; [exact HIn|apply String.eqb_refl]. }
    congruence.
Qed.

Lemma delete_file_run (w : World) (F : File.t) :
  healthy w -> unique_ids w -> In F (files w) -> File.path F <> "" ->
  exists evs,
    delete_file (File.owner F) (File._id F) w =
    (inr (Json 200 "File deleted successfully"),
     mkWorld
       (update_first (fun u => User._id u =? File.owner F)
          (fun u => User.with_storageUsed (User.storageUsed u + - File.size F) u)
          (users w))
       (filter (fun f => negb (File._id f =? File._id F)) (files w))
       (folders w)
       (filter (fun x => negb (String.eqb (File.path F) x)) (disk w))
       (log w ++ evs) (faults w)).
Proof.
  intros Hh Hu HIn Hp.
  pose proof (find_owned_by_owner w F Hu HIn) as Hfind.
  destruct (unlink_if_exists_run (File.path F)
              (set_log (log w ++ [FileFindOne (File._id F)]) w) Hp) as [ev Eun].
  exists ([FileFindOne (File._id F)] ++ ev ++
          [UserInc (File.owner F) (- File.size F); FileDeleteOne (File._id F)]).
  unfold delete_file. apply try_ok.
  step File_findOne_healthy. rewrite Hfind; cbv beta iota.
  erewrite bind_ok by exact Eun.
  step User_inc_healthy. step File_deleteOne_healthy.
  unfold ret; simpl. unfold has_id.
  rewrite (delete_first_keyed File.t File._id) by exact Hu.
  rewrite <- !app_assoc; reflexivity.
Qed.

Lemma update_first_undo (userId : ObjectId) (delta : Z) (l : list User.t) :
  update_first (fun u => User._id u =? userId)
    (fun u => User.with_storageUsed (User.storageUsed u + - delta) u)
    (update_first (fun u => User._id u =? userId)
       (fun u => User.with_storageUsed (User.storageUsed u + delta) u) l) = l.
Proof.
  induction l as [|u r IH]; simpl; [reflexivity|].
  destruct (User._id u =? userId) eqn:E; simpl; rewrite E.
  - f_equal. destruct u; unfold User.with_storageUsed; simpl. f_equal; lia.
  - rewrite IH; reflexivity.
Qed.

Lemma delete_first_last_fresh (oid : ObjectId) (l : list File.t) (f : File.t) :
  (forall x, In x l -> File._id x <> oid) -> File._id f = oid ->
  delete_first (has_id oid) (l ++ [f]) = l.
Proof.
  intros Hl Hf. induction l as [|x r IH]; simpl.
  - unfold has_id; rewrite Hf, Z.eqb_refl; reflexivity.
  - unfold has_id at 1. pose proof (Hl x (or_introl eq_refl)) as Hx.
    apply Z.eqb_neq in Hx; rewrite Hx. rewrite IH; [reflexivity|].
    intros; apply Hl; right; assumption.
Qed.

(** X15. An upload that goes through (the body carries the file, the quota
    check passes, the file is below 100 MiB, its names are of plain ASCII and
    not blank) followed by the delete of the uploaded file by its owner
    restores the store: the users with their ledgers, the files, the folders
    and the blobs are exactly what they were before the upload. *)
Theorem upload_then_delete_restores_store (w : World) (user : User.t) (cl : jsnum)
        (rf : Multer.file) (folderId : option ObjectId) (oid : ObjectId) :
  healthy w -> fits_declared cl rf -> fileFilter user cl = Accept ->
  Multer.size rf < Multer.fileSize_limit ->
  valid_upload rf ->
  plain_ascii (Multer.filename rf) = true ->
  plain_ascii (Multer.originalname rf) = true ->
  fresh_file_id oid w ->
  ~ In (Multer.path rf) (disk w) ->
  let w1 := snd (upload_route user cl (Some rf) folderId oid w) in
  status_of_run (delete_file (User._id user) oid w1) = Some 200 /\
  same_store w (snd (delete_file (User._id user) oid w1)).
Proof.
  intros Hh _ Hf Hsz Hv _ _ Hfresh Hnew w1. subst w1.
  rewrite (upload_route_run w user cl rf folderId oid Hh Hf Hsz Hv Hfresh); simpl.
  set (nf := File.mk oid (trim (Multer.filename rf)) (trim (Multer.originalname rf))
               (Multer.mimetype rf) (Multer.size rf) (Multer.path rf) (User._id user)
               folderId false []).
  match goal with |- context [delete_file _ _ ?x] => set (w1 := x) end.
  assert (Multer.path rf <> "") as Hp by (destruct Hv as (_ & _ & _ & Hp); exact Hp).
  destruct (unlink_if_exists_run (Multer.path rf)
              (set_log (log w1 ++ [FileFindOne oid]) w1) Hp) as [ev Eun].
  assert (exists evs, delete_file (User._id user) oid w1 =
            (inr (Json 200 "File deleted successfully"),
             mkWorld (users w) (files w) (folders w) (disk w) evs (faults w)))
    as [evs Erun].
  { eexists. unfold delete_file. apply try_ok.
    erewrite bind_ok by (apply File_findOne_healthy; exact Hh).
    unfold w1 at 1; cbn [files]. unfold q_owned.
    rewrite (find_app_fresh _ (files w) nf);
      [|apply fresh_not_q; exact Hfresh|simpl; rewrite !Z.eqb_refl; reflexivity].
    cbv beta iota. simpl File.path. erewrite bind_ok by exact Eun.
    erewrite bind_ok by (apply User_inc_healthy; exact Hh).
    erewrite bind_ok by (apply File_deleteOne_healthy; exact Hh).
    unfold ret; simpl.
    rewrite update_first_undo, String.eqb_refl; simpl.
    rewrite (filter_absent _ _ Hnew).
    rewrite (delete_first_last_fresh oid (files w) nf Hfresh eq_refl).
    reflexivity. }
  unfold status_of_run; rewrite Erun; simpl. split; [reflexivity|repeat split].
Qed.

(** X16. A delete by the owner removes exactly that file: the route answers
    200, the record of the file is gone and every other record stays, the
    owner's [storageUsed] drops by the size of the file and no other ledger
    moves, the blob of the file is unlinked and every other blob stays, and
    the folders are untouched. *)
Theorem delete_file_removes_exactly_one (w : World) (F : File.t) :
  healthy w -> unique_ids w -> In F (files w) -> File.path F <> "" ->
  let w' := snd (delete_file (File.owner F) (File._id F) w) in
  status_of_run (delete_file (File.owner F) (File._id F) w) = Some 200 /\
  (forall f, In f (files w') <-> In f (files w) /\ File._id f <> File._id F) /\
  ledger (File.owner F) w' =
    option_map (fun used => used - File.size F) (ledger (File.owner F) w) /\
  (forall v, v <> File.owner F -> ledger v w' = ledger v w) /\
  (forall p, In p (disk w') <-> In p (disk w) /\ p <> File.path F) /\
  folders w' = folders w.
Proof.
  intros Hh Hu HIn Hp w'. subst w'.
  destruct (delete_file_run w F Hh Hu HIn Hp) as [evs E].
  unfold status_of_run; rewrite E; simpl.
  split; [reflexivity|]. split; [|split; [|split; [|split; [|reflexivity]]]].
  - intros f. rewrite filter_In, negb_true_iff, Z.eqb_neq; tauto.
  - unfold ledger; simpl. rewrite ledger_update_same.
    destruct (find _ (users w)); simpl; [f_equal; lia|reflexivity].
  - intros v Hv. unfold ledger; simpl.
    rewrite ledger_update_other by exact Hv; reflexivity.
  - intros p. rewrite filter_In, negb_true_iff. split.
    + intros [H1 H2]; split; [exact H1|]. intros ->.
      rewrite String.eqb_refl in H2; discriminate.
    + intros [H1 H2]; split; [exact H1|]. apply String.eqb_neq.
      intros C; apply H2; symmetry; exact C.
Qed.

(** X17. A deleted file is gone for everyone: after the owner's delete,
    a download of its id is answered 404 whoever asks, and so is a second
    delete. *)
Theorem deleted_file_is_gone (w : World) (F : File.t) (R : ObjectId) :
  healthy w -> unique_ids w -> In F (files w) -> File.path F <> "" ->
  let w' := snd (delete_file (File.owner F) (File._id F) w) in
  fst (download R (File._id F) w') =
    inr (Json 404 "File not found or access denied") /\
  fst (delete_file R (File._id F) w') =
    inr (Json 404 "File not found or access denied").
Proof.
  intros Hh Hu HIn Hp w'. subst w'.
  destruct (delete_file_run w F Hh Hu HIn Hp) as [evs E]. rewrite E; simpl.
  match goal with |- context [download R _ ?x] => set (w1 := x) end.
  assert (forall g, find (fun f => (File._id f =? File._id F) && g f) (files w1) = None)
    as Hnone.
  { intros g. apply find_none_forall; intros f Hf.
    unfold w1 in Hf; simpl in Hf. apply filter_In in Hf; destruct Hf as [_ Hf].
    apply negb_true_iff in Hf; rewrite Hf; reflexivity. }
  split.
  - unfold download. erewrite try_ok; [reflexivity|].
    erewrite bind_ok by (apply File_findOne_healthy; exact Hh).
    unfold q_readable; rewrite Hnone; reflexivity.
  - unfold delete_file. erewrite try_ok; [reflexivity|].
    erewrite bind_ok by (apply File_findOne_healthy; exact Hh).
    unfold q_owned; rewrite Hnone; reflexivity.
Qed.

(** ** When the database fails half way *)

Lemma db_answers (e : Event) (w : World) (r : list (option string)) :
  faults w = None :: r ->
  db e w = (inr tt, set_faults r (set_log (log w ++ [e]) w)).
Proof.
  unfold db, bind, emit, modify, get_world, ret; simpl. intros ->; reflexivity.
Qed.

Lemma db_throws (e : Event) (w : World) (msg : string) (r : list (option string)) :
  faults w = Some msg :: r ->
  db e w = (inl (MongoError msg), set_faults r (set_log (log w ++ [e]) w)).
Proof.
  unfold db, bind, emit, modify, get_world, ret, throw; simpl. intros ->; reflexivity.
Qed.

(** X18. A file delete is not atomic. If the lookup answers and the ledger
    update throws, the route answers 500 with the blob already unlinked, while
    the File record and every ledger are as before: the record is left
    pointing at a blob that no longer exists. *)
Theorem delete_file_ledger_failure_loses_blob (w : World) (userId fileId : ObjectId)
        (F : File.t) (msg : string) (rest : list (option string)) :
  faults w = None :: Some msg :: rest ->
  find (q_owned fileId userId) (files w) = Some F ->
  File.path F <> "" ->
  let w' := snd (delete_file userId fileId w) in
  fst (delete_file userId fileId w) = inr (Json 500 "Server error") /\
  files w' = files w /\ users w' = users w /\ folders w' = folders w /\
  ~ In (File.path F) (disk w').
Proof.
  intros Hf Hfind Hp w'. subst w'.
  set (w1 := set_faults (Some msg :: rest) (set_log (log w ++ [FileFindOne fileId]) w)).
  destruct (unlink_if_exists_run (File.path F) w1 Hp) as [ev Eun].
  assert (exists evs,
    delete_file userId fileId w =
    (inr (Json 500 "Server error"),
     mkWorld (users w) (files w) (folders w)
       (filter (fun x => negb (String.eqb (File.path F) x)) (disk w)) evs rest))
    as [evs E].
  { eexists. unfold delete_file. erewrite try_throw; [reflexivity|].
    erewrite bind_ok.
    2:{ unfold File_findOne. erewrite bind_ok by (apply db_answers; exact Hf).
        erewrite bind_ok by reflexivity. reflexivity. }
    cbn [files set_log set_faults]. rewrite Hfind; cbv beta iota.
    erewrite bind_ok by exact Eun.
    erewrite bind_throw; [reflexivity|].
    unfold User_findByIdAndUpdate_inc.
    erewrite bind_throw; [reflexivity|]. apply db_throws. reflexivity. }
  rewrite E; simpl. repeat split.
  intros HIn; apply filter_In in HIn; destruct HIn as [_ HIn].
  rewrite String.eqb_refl in HIn; discriminate.
Qed.

(** X19. An upload is not atomic either. If the save of the record (with
    names of plain ASCII that are not blank) answers and the ledger increment
    throws, the route answers 500 with the message of the error and unlinks
    the blob, but the File record stays stored and no ledger counts it. *)
Theorem upload_ledger_failure_keeps_record (w : World) (user : User.t)
        (rf : Multer.file) (folderId : option ObjectId) (oid : ObjectId)
        (msg : string) (rest : list (option string)) :
  faults w = None :: Some msg :: rest ->
  valid_upload rf ->
  plain_ascii (Multer.filename rf) = true ->
  plain_ascii (Multer.originalname rf) = true ->
  fresh_file_id oid w ->
  let w' := snd (upload user (Some rf) folderId oid w) in
  fst (upload user (Some rf) folderId oid w) =
    inr (Json 500 (or_default (Some msg) "Server error")) /\
  files w' =
    files w ++
    [File.mk oid (trim (Multer.filename rf)) (trim (Multer.originalname rf))
       (Multer.mimetype rf) (Multer.size rf) (Multer.path rf) (User._id user)
       folderId false []] /\
  users w' = users w /\
  ~ In (Multer.path rf) (disk w').
Proof.
  intros Hf (Hfn & Hon & Hmt & Hp) _ _ Hfresh w'. subst w'.
  set (nf := File.mk oid (trim (Multer.filename rf)) (trim (Multer.originalname rf))
               (Multer.mimetype rf) (Multer.size rf) (Multer.path rf) (User._id user)
               folderId false []).
  set (w2 := mkWorld (users w) (files w ++ [nf]) (folders w) (disk w)
               ((log w ++ [FileInsert oid]) ++
                [UserInc (User._id user) (Multer.size rf)]) rest).
  destruct (unlink_if_exists_run (Multer.path rf) w2 Hp) as [ev Eun].
  assert (exists evs,
    upload user (Some rf) folderId oid w =
    (inr (Json 500 (or_default (Some msg) "Server error")),
     mkWorld (users w) (files w ++ [nf]) (folders w)
       (filter (fun x => negb (String.eqb (Multer.path rf) x)) (disk w)) evs rest))
    as [evs E].
  { eexists. unfold upload. erewrite try_throw.
    2:{ erewrite bind_ok.
        2:{ unfold createFile, File_new, or_null; simpl.
            erewrite bind_ok; [reflexivity|].
            unfold File_insert, File_validate, truthy; simpl.
            apply String.eqb_neq in Hfn, Hon, Hmt, Hp.
            rewrite Hfn, Hon, Hmt, Hp; simpl.
            erewrite bind_ok by (apply db_answers; exact Hf).
            erewrite bind_ok by reflexivity. cbn [files set_log set_faults].
            replace (existsb (has_id oid) (files w)) with false; [reflexivity|].
            symmetry; apply not_true_is_false; intros C; apply existsb_exists in C.
            destruct C as (g & Hg & Hid); apply Z.eqb_eq in Hid; exact (Hfresh g Hg Hid). }
        unfold User_findByIdAndUpdate_inc.
        erewrite bind_throw; [reflexivity|].
        erewrite bind_throw; [reflexivity|]. apply db_throws. reflexivity. }
    simpl. erewrite bind_ok by exact Eun. reflexivity. }
  rewrite E; simpl. repeat split.
  intros HIn; apply filter_In in HIn; destruct HIn as [_ HIn].
  rewrite String.eqb_refl in HIn; discriminate.
Qed.

(** ** Deleting a folder *)

Lemma find_folder_not_owned (w : World) (userId folderId : ObjectId) :
  ~ owns_folder userId folderId w ->
  find (q_folder_owned folderId userId) (folders w) = None.
Proof.
  intros Hno. apply find_none_forall; intros d Hd. unfold q_folder_owned.
  destruct (Z.eqb_spec (Folder._id d) folderId) as [E|]; [|reflexivity].
  destruct (Z.eqb_spec (Folder.owner d) userId) as [E'|]; [|reflexivity].
  exfalso; apply Hno; exists d; auto.
Qed.

(** X20. Only the owner deletes a folder: when the caller owns no folder
    of that id - the folder is absent, or belongs to someone else, whatever
    files of the caller it holds - the route answers 404 and catalog, ledger
    and blobs are as before. *)
Theorem delete_folder_requires_ownership (w : World) (userId folderId : ObjectId) :
  healthy w -> ~ owns_folder userId folderId w ->
  fst (delete_folder userId folderId w) =
    inr (Json 404 "Folder not found or access denied") /\
  same_store w (snd (delete_folder userId folderId w)).
Proof.
  intros Hh Hno. pose proof (find_folder_not_owned w userId folderId Hno) as Hnone.
  unfold delete_folder. erewrite try_ok.
  2:{ step Folder_findOne_healthy. rewrite Hnone; reflexivity. }
  simpl; repeat split.
Qed.

(** X21. The cascade goes one level deep and no further. After the owner's
    delete of a folder, the folder itself is the only folder that is gone:
    every sub-folder stays, under a parent that no longer exists, and so does
    every file of a sub-folder; and the blobs that are unlinked are exactly
    those of the files the folder held directly. *)
Theorem cascade_is_one_level (w : World) (userId folderId : ObjectId) :
  healthy w -> folders_unique w -> owns_folder userId folderId w ->
  let w' := snd (delete_folder userId folderId w) in
  status_of_run (delete_folder userId folderId w) = Some 200 /\
  (forall d, In d (folders w') <-> In d (folders w) /\ Folder._id d <> folderId) /\
  (forall d f, In d (folders w) -> Folder.parent d = Some folderId ->
               Folder._id d <> folderId ->
               In f (files w) -> File.folder f = Some (Folder._id d) ->
               In d (folders w') /\ In f (files w')) /\
  (forall p, In p (disk w') <->
             In p (disk w) /\ blob_of (files_in folderId w) p = false).
Proof.
  intros Hh Hfu Ho w'. subst w'.
  destruct (find_owned_folder w userId folderId Ho) as [d0 Hd0].
  pose proof (delete_folder_run_exact w userId folderId d0 Hh Hd0) as E.
  unfold status_of_run; rewrite E; simpl. clear E.
  rewrite (delete_first_keyed Folder.t Folder._id) by exact Hfu.
  assert (forall d, In d (filter (fun x => negb (Folder._id x =? folderId)) (folders w)) <->
                    In d (folders w) /\ Folder._id d <> folderId) as Hfold.
  { intros d. rewrite filter_In, negb_true_iff, Z.eqb_neq; tauto. }
  split; [reflexivity|]. split; [exact Hfold|]. split.
  - intros d f Hd Hpar Hne Hf Hff. split; [apply Hfold; auto|].
    apply filter_In; split; [exact Hf|]. apply negb_true_iff.
    unfold q_in_folder; rewrite Hff. apply Z.eqb_neq; exact Hne.
  - intros p. rewrite filter_In, negb_true_iff; tauto.
Qed.

(** ** Listing *)

Lemma insert_desc_perm {A} (key : A -> Z) (x : A) (l : list A) :
  Permutation (x :: l) (insert_desc key x l).
Proof.
  induction l as [|y r IH]; simpl; [apply Permutation_refl|].
  destruct (key y <? key x); [apply Permutation_refl|].
  eapply Permutation_trans; [apply perm_swap|]. apply perm_skip; exact IH.
Qed.

Lemma sort_desc_perm {A} (key : A -> Z) (l : list A) :
  Permutation l (sort_desc key l).
Proof.
  induction l as [|x r IH]; simpl; [constructor|].
  eapply Permutation_trans; [apply perm_skip; exact IH|apply insert_desc_perm].
Qed.

Lemma insert_desc_sorted {A} (key : A -> Z) (x : A) (l : list A) :
  newest_first key l -> newest_first key (insert_desc key x l).
Proof.
  unfold newest_first. induction l as [|y r IH]; simpl; intros Hs.
  - repeat constructor.
  - inversion Hs as [|? ? Hr Hy]; subst.
    destruct (Z.ltb_spec (key y) (key x)) as [Hlt|Hge].
    + constructor; [exact Hs|]. constructor; [lia|].
      eapply Forall_impl; [|exact Hy]. intros a Ha; simpl in Ha; lia.
    + constructor; [apply IH; exact Hr|].
      eapply Permutation_Forall; [apply insert_desc_perm|].
      constructor; [lia|exact Hy].
Qed.

Lemma sort_desc_sorted {A} (key : A -> Z) (l : list A) :
  newest_first key (sort_desc key l).
Proof.
  induction l as [|x r IH]; simpl; [constructor|].
  apply insert_desc_sorted; exact IH.
Qed.

Lemma option_id_eqb_spec (a b : option ObjectId) :
  option_id_eqb a b = true <-> a = b.
Proof.
  destruct a as [x|], b as [y|]; simpl; try (split; [discriminate|discriminate]);
    try (split; reflexivity).
  rewrite Z.eqb_eq; split; [intros ->; reflexivity|intros E; inversion E; reflexivity].
Qed.

Lemma query_started_same_store (w : World) :
  same_store w (snd (query_started w)).
Proof.
  unfold query_started. destruct (faults w); simpl; repeat split.
Qed.

(** X22. The listing shows the caller's own children of the folder asked
    for, and nothing else. It never changes catalog, ledger or blobs; and
    when the database answers, the files listed are exactly the caller's
    files whose folder is the one asked for (the root when none is given),
    the folders listed exactly the caller's folders with that parent, each
    once and newest first. Files of others - shared with the caller or
    public - are not listed. *)
Theorem listing_shows_own_children (file_createdAt : File.t -> Z)
        (folder_createdAt : Folder.t -> Z) (userId : ObjectId)
        (folderId : option ObjectId) (w : World) :
  same_store w (snd (list_children file_createdAt folder_createdAt userId folderId w)) /\
  (healthy w ->
   exists fs ds,
     fst (list_children file_createdAt folder_createdAt userId folderId w) =
       inr (Listed fs ds) /\
     Permutation (filter (q_listed_file userId folderId) (files w)) fs /\
     Permutation (filter (q_listed_folder userId folderId) (folders w)) ds /\
     (forall f, In f fs <->
                In f (files w) /\ File.owner f = userId /\ File.folder f = folderId) /\
     (forall d, In d ds <->
                In d (folders w) /\ Folder.owner d = userId /\
                Folder.parent d = folderId) /\
     newest_first file_createdAt fs /\ newest_first folder_createdAt ds).
Proof.
  split.
  - unfold list_children, try_catch, bind.
    pose proof (query_started_same_store w) as H1.
    destruct (query_started w) as [[e|e1] w1]; simpl in *; [exact H1|].
    pose proof (query_started_same_store w1) as H2.
    destruct (query_started w1) as [[e|e2] w2]; simpl in *;
      [eapply same_store_trans; eassumption|].
    destruct e1, e2; simpl; eapply same_store_trans; eassumption.
  - intros Hh.
    exists (sort_desc file_createdAt (filter (q_listed_file userId folderId) (files w))),
           (sort_desc folder_createdAt (filter (q_listed_folder userId folderId) (folders w))).
    split; [|split; [|split; [|split; [|split; [|split]]]]].
    + assert (query_started w = (inr None, w)) as Hq
        by (unfold query_started; rewrite Hh; reflexivity).
      unfold list_children. erewrite try_ok; [reflexivity|].
      erewrite bind_ok by exact Hq. erewrite bind_ok by exact Hq. reflexivity.
    + apply sort_desc_perm.
    + apply sort_desc_perm.
    + intros f. split.
      * intros Hf. apply (Permutation_in _ (Permutation_sym (sort_desc_perm _ _))) in Hf.
        apply filter_In in Hf. destruct Hf as [Hf Hq]. unfold q_listed_file in Hq.
        apply andb_true_iff in Hq. rewrite Z.eqb_eq, option_id_eqb_spec in Hq. tauto.
      * intros (Hf & Ho & Hfo). apply (Permutation_in _ (sort_desc_perm _ _)).
        apply filter_In; split; [exact Hf|]. unfold q_listed_file.
        apply andb_true_iff. rewrite Z.eqb_eq, option_id_eqb_spec. tauto.
    + intros d. split.
      * intros Hd. apply (Permutation_in _ (Permutation_sym (sort_desc_perm _ _))) in Hd.
        apply filter_In in Hd. destruct Hd as [Hd Hq]. unfold q_listed_folder in Hq.
        apply andb_true_iff in Hq. rewrite Z.eqb_eq, option_id_eqb_spec in Hq. tauto.
      * intros (Hd & Ho & Hfo). apply (Permutation_in _ (sort_desc_perm _ _)).
        apply filter_In; split; [exact Hd|]. unfold q_listed_folder.
        apply andb_true_iff. rewrite Z.eqb_eq, option_id_eqb_spec. tauto.
    + apply sort_desc_sorted.
    + apply sort_desc_sorted.
Qed.

(** ** The address the server announces *)

(** X23. [getLocalIpAddress] announces the address of the first entry, in
    the order of enumeration over all interfaces, that is IPv4 and not
    internal, and [0.0.0.0] when there is none: an internal or IPv6 address
    is never preferred to an external IPv4 one, whatever interface it is
    on. *)
Theorem getLocalIpAddress_first_external (interfaces : list (string * list Os.iface)) :
  getLocalIpAddress interfaces =
  match find external_ipv4 (flat_map snd interfaces) with
  | Some i => Os.address i
  | None => "0.0.0.0"
  end.
Proof.
  induction interfaces as [|[name l] r IH]; simpl; [reflexivity|].
  induction l as [|i l IHl]; simpl; [exact IH|].
  destruct (external_ipv4 i); [reflexivity|exact IHl].
Qed.

(** ** The further properties at work on the small installation *)

Lemma sample_nested_unique : unique_ids Sample.nested.
Proof. unfold unique_ids; simpl. repeat constructor; simpl; intuition discriminate. Qed.

Lemma sample_nested_folders_unique : folders_unique Sample.nested.
Proof. unfold folders_unique; simpl. repeat constructor; simpl; intuition discriminate. Qed.

Lemma sample_nested_users_unique : users_unique Sample.nested.
Proof. unfold users_unique; simpl. repeat constructor; simpl; intuition discriminate. Qed.

Lemma sample_nested_shares_ok : Forall share_ok (files Sample.nested).
Proof.
  repeat constructor; simpl; try tauto; intuition discriminate.
Qed.

Lemma sample_owns_10 : owns_folder 1 10 Sample.nested.
Proof. exists (Folder.mk 10 "X" 1 None); simpl; auto. Qed.

Lemma handlers_write_no_blob_witness :
  In "uploads/1/1700000000003-5.ppt"
     (disk (snd (handle (ReqDeleteFile 1 30) Sample.nested))) /\
  In "uploads/1/1700000000003-5.ppt" (disk Sample.nested).
Proof.
  assert (In "uploads/1/1700000000003-5.ppt"
             (disk (snd (handle (ReqDeleteFile 1 30) Sample.nested)))) as H
    by (vm_compute; left; reflexivity).
  split; [exact H|].
  exact (handlers_write_no_blob (ReqDeleteFile 1 30) Sample.nested _ H).
Defined.

Lemma only_upload_creates_files_witness :
  exists f, In f (files Sample.nested) /\
            same_core f (File.with_isPublic true Demo.report).
Proof.
  apply (only_upload_creates_files (ReqSetPublic 1 30 (Some true)) Sample.nested
           (File.with_isPublic true Demo.report)).
  - reflexivity.
  - vm_compute; left; reflexivity.
Defined.

Lemma requests_keep_ids_unique_witness :
  unique_ids (snd (handle (ReqDeleteFolder 1 10) Sample.third_call_fails)) /\
  folders_unique (snd (handle (ReqDeleteFolder 1 10) Sample.third_call_fails)) /\
  users_unique (snd (handle (ReqDeleteFolder 1 10) Sample.third_call_fails)).
Proof.
  apply (requests_keep_ids_unique (ReqDeleteFolder 1 10) Sample.third_call_fails).
  split; [exact sample_nested_unique|].
  split; [exact sample_nested_folders_unique|exact sample_nested_users_unique].
Defined.

Lemma requests_keep_shares_ok_witness :
  Forall share_ok
    (files (snd (handle (ReqShare 1 31 (Some "bob@example.com") (Some "read"))
                        Sample.nested))).
Proof.
  apply (requests_keep_shares_ok
           (ReqShare 1 31 (Some "bob@example.com") (Some "read")) Sample.nested).
  exact sample_nested_shares_ok.
Defined.

Lemma create_folder_refuses_blank_names_witness :
  create_folder 1 (Some "   ") None 12 Sample.nested =
    (inr (Json 500 "Server error"), Sample.nested) /\
  create_folder 1 None None 12 Sample.nested =
    (inr (Json 400 "Folder name is required"), Sample.nested).
Proof.
  split.
  - apply (create_folder_refuses_blank_names 1 (Some "   ") None 12 Sample.nested).
    reflexivity.
  - apply (create_folder_refuses_blank_names 1 None None 12 Sample.nested).
    reflexivity.
Defined.

Lemma create_folder_accepts_any_parent_witness :
  fst (create_folder 2 (Some " Docs ") (Some 999) 12 Sample.nested) =
    inr (Json 201 "Folder created successfully") /\
  folders (snd (create_folder 2 (Some " Docs ") (Some 999) 12 Sample.nested)) =
    folders Sample.nested ++ [Folder.mk 12 "Docs" 2 (Some 999)].
Proof.
  destruct (create_folder_accepts_any_parent 2 " Docs " (Some 999) 12 Sample.nested)
    as (H1 & H2 & _).
  - reflexivity.
  - reflexivity.
  - discriminate.
  - intros d [<-|[<-|[]]]; discriminate.
  - split; [exact H1|exact H2].
Defined.

Lemma set_public_changes_one_flag_witness :
  status_of_run (set_public 1 30 (Some true) Sample.nested) = Some 200 /\
  stored 30 (snd (set_public 1 30 (Some true) Sample.nested)) =
    Some (File.with_isPublic true Demo.report) /\
  files (snd (set_public 1 30 (Some true) Sample.nested)) =
    [File.with_isPublic true Demo.report; Sample.slides].
Proof.
  destruct (set_public_changes_one_flag Sample.nested Demo.report true)
    as (H1 & H2 & H3 & _).
  - reflexivity.
  - exact sample_nested_unique.
  - left; reflexivity.
  - split; [exact H1|]. split; [exact H2|exact H3].
Defined.

Lemma visibility_toggle_witness :
  fst (download 3 30 (snd (set_public 1 30 (Some true) Sample.nested))) =
    inr (Download "uploads/1/1700000000001-7.pdf" "report.pdf") /\
  fst (download 3 30 (snd (set_public 1 30 (Some false) Sample.nested))) =
    inr (Json 404 "File not found or access denied") /\
  fst (download 2 30 (snd (set_public 1 30 (Some false) Sample.nested))) =
    inr (Download "uploads/1/1700000000001-7.pdf" "report.pdf").
Proof.
  split; [|split].
  - apply (visibility_toggle_governs_download Sample.nested Demo.report true 3);
      [reflexivity|exact sample_nested_unique|left; reflexivity].
  - apply (visibility_toggle_governs_download Sample.nested Demo.report false 3);
      [reflexivity|exact sample_nested_unique|left; reflexivity].
  - apply (visibility_toggle_governs_download Sample.nested Demo.report false 2);
      [reflexivity|exact sample_nested_unique|left; reflexivity].
Defined.

Lemma grant_opens_file_witness :
  (status_of_run (share_file 1 31 (Some "bob@example.com") None Sample.nested) = Some 200 /\
   fst (download 2 31
          (snd (share_file 1 31 (Some "bob@example.com") None Sample.nested))) =
     inr (Download "uploads/1/1700000000003-5.ppt" "slides.ppt")) /\
  (status_of_run (share_file 1 31 (Some "bob@example.com") None Sample.nested) = Some 200 /\
   fst (download 3 31
          (snd (share_file 1 31 (Some "bob@example.com") None Sample.nested))) =
     inr (Json 404 "File not found or access denied")).
Proof.
  split.
  - apply (grant_opens_file_to_target_only Sample.nested Sample.slides Demo.bob
             "bob@example.com" None 2);
      [reflexivity|exact sample_nested_unique|right; left; reflexivity|reflexivity
      |discriminate|reflexivity|discriminate|reflexivity|reflexivity].
  - apply (grant_opens_file_to_target_only Sample.nested Sample.slides Demo.bob
             "bob@example.com" None 3);
      [reflexivity|exact sample_nested_unique|right; left; reflexivity|reflexivity
      |discriminate|reflexivity|discriminate|reflexivity|reflexivity].
Defined.

Lemma permission_enum_witness :
  (fst (share_file 1 31 (Some "bob@example.com") (Some "admin") Sample.nested) =
     inr (Json 500 "Server error") /\
   same_store Sample.nested
     (snd (share_file 1 31 (Some "bob@example.com") (Some "admin") Sample.nested))) /\
  (status_of_run (share_file 1 30 (Some "bob@example.com") (Some "admin") Sample.nested) =
     Some 200 /\
   exists F',
     stored 30 (snd (share_file 1 30 (Some "bob@example.com") (Some "admin")
                       Sample.nested)) = Some F' /\
     In (File.mkShare 2 "admin") (File.sharedWith F')).
Proof.
  split.
  - apply (proj1 permission_enum_checked_on_first_grant_only Sample.nested Sample.slides
             Demo.bob "bob@example.com" (Some "admin"));
      [reflexivity|exact sample_nested_unique|right; left; reflexivity|reflexivity
      |discriminate|reflexivity|discriminate|reflexivity|reflexivity].
  - apply (proj2 permission_enum_checked_on_first_grant_only Sample.nested Demo.report
             Demo.bob "bob@example.com" (Some "admin"));
      [reflexivity|exact sample_nested_unique|left; reflexivity|reflexivity
      |discriminate|reflexivity|discriminate|reflexivity].
Defined.

Lemma all_or_nothing_witness :
  status_of_run (handle (ReqShare 1 30 (Some "bob@example.com") (Some "read"))
                        Sample.third_call_fails) = Some 500 /\
  same_store Sample.third_call_fails
    (snd (handle (ReqShare 1 30 (Some "bob@example.com") (Some "read"))
                 Sample.third_call_fails)).
Proof.
  split; [reflexivity|].
  apply (single_write_requests_all_or_nothing
           (ReqShare 1 30 (Some "bob@example.com") (Some "read"))
           Sample.third_call_fails).
  - reflexivity.
  - discriminate.
Defined.

Lemma sample_fresh_50 : fresh_file_id 50 Sample.nested.
Proof. intros f [<-|[<-|[]]]; discriminate. Qed.

Lemma demo_big_valid : valid_upload Demo.big.
Proof. repeat split; discriminate. Qed.

Lemma upload_then_owner_downloads_witness :
  ledger 1 (snd (upload Sample.alice_900 (Some Demo.big) None 50 Sample.nested)) =
    Some 1500 /\
  fst (download 1 50
         (snd (upload Sample.alice_900 (Some Demo.big) None 50 Sample.nested))) =
    inr (Download "uploads/1/1700000000002-9.bin" "big.bin").
Proof.
  destruct (upload_then_owner_downloads Sample.nested Sample.alice_900 Demo.big None 50)
    as (H1 & _ & H3).
  - reflexivity.
  - exact demo_big_valid.
  - reflexivity.
  - exact sample_fresh_50.
  - split; [exact H1|exact H3].
Defined.

(** Alice has 900 of 1000 bytes used. Her chunked upload of 600 bytes
    declares no length: it is stored, and her ledger stands at 1500. With
    nothing used, a body of 800 bytes that carries the 600-byte file is
    accepted, and the ledger stands at 600. *)
Lemma upload_adds_actual_size_witness :
  (status_of_run (upload_route Sample.alice_900 NaN (Some Demo.big) None 50
                    Sample.nested) = Some 201 /\
   ledger 1 (snd (upload_route Sample.alice_900 NaN (Some Demo.big) None 50
                    Sample.nested)) = Some 1500 /\
   User.storageLimit Sample.alice_900 = 1000) /\
  (fits_declared (Num 800) Demo.big /\
   fileFilter Demo.alice (Num 800) = Accept /\
   status_of_run (upload_route Demo.alice (Num 800) (Some Demo.big) None 50
                    Demo.empty) = Some 201 /\
   ledger 1 (snd (upload_route Demo.alice (Num 800) (Some Demo.big) None 50
                    Demo.empty)) = Some 600 /\
   User.storageUsed Demo.alice + Multer.size Demo.big < User.storageLimit Demo.alice).
Proof.
  split.
  - destruct (proj1 upload_adds_actual_size_unchecked Sample.nested Sample.alice_900
                Demo.big None 50) as (H1 & H2 & _).
    + reflexivity.
    + unfold Multer.fileSize_limit; simpl; lia.
    + exact demo_big_valid.
    + reflexivity.
    + reflexivity.
    + exact sample_fresh_50.
    + split; [exact H1|]. split; [exact H2|reflexivity].
  - destruct (proj2 upload_adds_actual_size_unchecked Demo.empty Demo.alice 800
                Demo.big None 50) as (H1 & H2 & _ & H4).
    + reflexivity.
    + unfold safe_integer; simpl; lia.
    + simpl; lia.
    + reflexivity.
    + unfold Multer.fileSize_limit; simpl; lia.
    + exact demo_big_valid.
    + reflexivity.
    + reflexivity.
    + intros f [].
    + split; [simpl; lia|]. split; [reflexivity|]. split; [exact H1|].
      split; [exact H2|exact H4].
Defined.

(** A body of 800 bytes carries Bob's 600-byte file into the installation
    where Alice has her two files; his delete then restores the store. *)
Lemma upload_then_delete_witness :
  fits_declared (Num 800) Demo.big /\
  fileFilter Demo.bob (Num 800) = Accept /\
  status_of_run
    (delete_file 2 50
       (snd (upload_route Demo.bob (Num 800) (Some Demo.big) None 50
               Sample.nested))) = Some 200 /\
  same_store Sample.nested
    (snd (delete_file 2 50
            (snd (upload_route Demo.bob (Num 800) (Some Demo.big) None 50
                    Sample.nested)))).
Proof.
  split; [simpl; lia|]. split; [reflexivity|].
  apply (upload_then_delete_restores_store Sample.nested Demo.bob (Num 800)
           Demo.big None 50).
  - reflexivity.
  - simpl; lia.
  - reflexivity.
  - unfold Multer.fileSize_limit; simpl; lia.
  - exact demo_big_valid.
  - reflexivity.
  - reflexivity.
  - exact sample_fresh_50.
  - simpl; intuition discriminate.
Defined.

Lemma delete_file_removes_exactly_one_witness :
  status_of_run (delete_file 1 30 Sample.nested) = Some 200 /\
  ledger 1 (snd (delete_file 1 30 Sample.nested)) = Some 300 /\
  ledger 2 (snd (delete_file 1 30 Sample.nested)) = Some 0.
Proof.
  destruct (delete_file_removes_exactly_one Sample.nested Demo.report)
    as (H1 & _ & H3 & H4 & _).
  - reflexivity.
  - exact sample_nested_unique.
  - left; reflexivity.
  - discriminate.
  - split; [exact H1|]. split; [exact H3|].
    apply (H4 2); discriminate.
Defined.

Lemma deleted_file_is_gone_witness :
  fst (download 2 30 (snd (delete_file 1 30 Sample.nested))) =
    inr (Json 404 "File not found or access denied") /\
  fst (delete_file 1 30 (snd (delete_file 1 30 Sample.nested))) =
    inr (Json 404 "File not found or access denied").
Proof.
  split.
  - apply (deleted_file_is_gone Sample.nested Demo.report 2);
      [reflexivity|exact sample_nested_unique|left; reflexivity|discriminate].
  - apply (deleted_file_is_gone Sample.nested Demo.report 1);
      [reflexivity|exact sample_nested_unique|left; reflexivity|discriminate].
Defined.

Lemma delete_file_ledger_failure_witness :
  fst (delete_file 1 30 Sample.second_call_fails) = inr (Json 500 "Server error") /\
  files (snd (delete_file 1 30 Sample.second_call_fails)) = files Sample.nested /\
  users (snd (delete_file 1 30 Sample.second_call_fails)) = users Sample.nested /\
  folders (snd (delete_file 1 30 Sample.second_call_fails)) = folders Sample.nested /\
  ~ In "uploads/1/1700000000001-7.pdf"
       (disk (snd (delete_file 1 30 Sample.second_call_fails))).
Proof.
  apply (delete_file_ledger_failure_loses_blob Sample.second_call_fails 1 30 Demo.report
           "connection reset" []).
  - reflexivity.
  - reflexivity.
  - discriminate.
Defined.

Lemma upload_ledger_failure_witness :
  fst (upload Demo.bob (Some Demo.notes) None 20 Demo.inc_fails) =
    inr (Json 500 "connection reset") /\
  List.length (files (snd (upload Demo.bob (Some Demo.notes) None 20 Demo.inc_fails))) =
    1%nat /\
  ledger 2 (snd (upload Demo.bob (Some Demo.notes) None 20 Demo.inc_fails)) = Some 0.
Proof.
  destruct (upload_ledger_failure_keeps_record Demo.inc_fails Demo.bob Demo.notes None 20
              "connection reset" []) as (H1 & H2 & H3 & _).
  - reflexivity.
  - repeat split; discriminate.
  - reflexivity.
  - reflexivity.
  - intros f [].
  - split; [exact H1|]. split; [rewrite H2; reflexivity|].
    unfold ledger; rewrite H3; reflexivity.
Defined.

Lemma delete_folder_requires_ownership_witness :
  fst (delete_folder 2 10 Sample.nested) =
    inr (Json 404 "Folder not found or access denied") /\
  same_store Sample.nested (snd (delete_folder 2 10 Sample.nested)).
Proof.
  apply (delete_folder_requires_ownership Sample.nested 2 10); [reflexivity|].
  intros (d & [<-|[<-|[]]] & Hid & Ho); discriminate.
Defined.

(** Alice deletes folder 10: sub-folder 11 and the slides in it stay, the
    report and its blob go. *)
Lemma cascade_is_one_level_witness :
  status_of_run (delete_folder 1 10 Sample.nested) = Some 200 /\
  In (Folder.mk 11 "Y" 1 (Some 10)) (folders (snd (delete_folder 1 10 Sample.nested))) /\
  In Sample.slides (files (snd (delete_folder 1 10 Sample.nested))) /\
  In "uploads/1/1700000000003-5.ppt" (disk (snd (delete_folder 1 10 Sample.nested))) /\
  ~ In "uploads/1/1700000000001-7.pdf" (disk (snd (delete_folder 1 10 Sample.nested))).
Proof.
  destruct (cascade_is_one_level Sample.nested 1 10) as (H1 & H2 & H3 & H4).
  - reflexivity.
  - exact sample_nested_folders_unique.
  - exact sample_owns_10.
  - split; [exact H1|].
    destruct (H3 (Folder.mk 11 "Y" 1 (Some 10)) Sample.slides) as [Hd Hf].
    + right; left; reflexivity.
    + reflexivity.
    + discriminate.
    + right; left; reflexivity.
    + reflexivity.
    + split; [exact Hd|]. split; [exact Hf|]. split.
      * apply H4; split; [right; left; reflexivity|reflexivity].
      * intros C; apply H4 in C; destruct C as [_ C]; discriminate.
Defined.

(** Alice lists her folder 10, with ids standing for creation dates: her
    report and her sub-folder, and nothing of Bob. *)
Lemma listing_witness :
  same_store Sample.nested
    (snd (list_children File._id Folder._id 1 (Some 10) Sample.nested)) /\
  exists fs ds,
    fst (list_children File._id Folder._id 1 (Some 10) Sample.nested) =
      inr (Listed fs ds) /\
    (forall f, In f fs <->
               In f (files Sample.nested) /\ File.owner f = 1 /\ File.folder f = Some 10) /\
    newest_first File._id fs.
Proof.
  destruct (listing_shows_own_children File._id Folder._id 1 (Some 10) Sample.nested)
    as [Hs Hl].
  split; [exact Hs|].
  destruct (Hl eq_refl) as (fs & ds & Hr & _ & _ & Hf & _ & Hsf & _).
  exists fs, ds. split; [exact Hr|]. split; [exact Hf|exact Hsf].
Defined.

(** ** What a request cannot reach *)

Lemma within_footprint_store (r : api_request) (w w' : World) :
  same_store w w' -> within_footprint r w w'.
Proof. intros (H1 & H2 & H3 & H4); repeat split; intros _; assumption. Qed.

Lemma within_footprint_trans (r : api_request) (a b c : World) :
  within_footprint r a b -> within_footprint r b c -> within_footprint r a c.
Proof.
  intros (a1 & a2 & a3 & a4) (b1 & b2 & b3 & b4).
  repeat split; intros H;
    [rewrite (b1 H), (a1 H)|rewrite (b2 H), (a2 H)
    |rewrite (b3 H), (a3 H)|rewrite (b4 H), (a4 H)]; reflexivity.
Qed.

Ltac footprint := intros; repeat split; intros Hfp; first [reflexivity|discriminate Hfp].

(** X24. Every request stays within its footprint, whatever fails. A
    download writes nothing; a folder creation writes only folders; a grant
    and a visibility toggle write only files; an upload and a file delete
    write users, files and blobs but no folder; only a folder delete can reach
    all four. *)
Theorem requests_stay_within_footprint (r : api_request) (w : World) :
  within_footprint r w (snd (handle r w)).
Proof.
  pose proof (within_footprint_store r) as Hst.
  pose proof (within_footprint_trans r) as Htr.
  destruct r as [user file folderId oid | userId fileId | userId name parentId oid
                | userId fileId | userId folderId
                | userId fileId email permission | userId fileId isPublic];
    cbn [handle].
  - apply (steps_upload _ Hst Htr); footprint.
  - apply (steps_download _ Hst Htr).
  - apply (steps_create_folder _ Hst Htr); footprint.
  - apply (steps_delete_file _ Hst Htr); footprint.
  - apply (steps_delete_folder _ Hst Htr); footprint.
  - apply (steps_share_file _ Hst Htr); footprint.
  - apply (steps_set_public _ Hst Htr); footprint.
Qed.

(** On the sample host the loopback and the IPv6 address of the card are
    passed over. *)
Example announced_address : getLocalIpAddress Sample.host = "192.168.1.20".
Proof. reflexivity. Qed.
